(** * CIP protocol engine: a shallow embedding of the JavaScript sources

    The development follows the source files of the library:
    - [cipErrorCodes.js]   (status-code catalog, [CIPErrorParser]),
    - [cipDataTypes.js]    (type registry, [CIPDataTypeDecoder]),
    - [cipParser.js]       ([CIPParser]: object paths, encoding, responses),
    - [cipClient.js]       ([CIPClient]: encapsulation framing),
    - [secureCIPClient.js] ([SecureCIPClient]: session and MAC layer).

    Buffers are lists of bytes, JavaScript numbers are rationals extended
    with NaN and the infinities, a thrown exception is the [Throw] case of
    [result]. *)

From Stdlib Require Import ZArith QArith List String Ascii Lia Bool.
From Stdlib Require Import Strings.Byte HexString DecimalString.
From stdpp Require Import gmap.
Import ListNotations.

Set Warnings "-register-all".
Close Scope Q_scope.
Open Scope string_scope.
Open Scope list_scope.
Open Scope Z_scope.

(** ** JavaScript values *)

Module JS.

(** A JavaScript number: every finite double is a rational. *)
Inductive jsnum : Type :=
| Fin (q : Q)
| NaN
| PosInf
| NegInf.

(** The primitive values a caller can hand to the library. *)
Inductive prim : Type :=
| VUndefined
| VNull
| VBool (b : bool)
| VNum (n : jsnum)
| VStr (s : string).

Definition num (z : Z) : prim := VNum (Fin (inject_Z z)).

(** The two ECMAScript operations on strings and numbers that the library
    reaches only through implicit coercions; they are an interface of the
    host, not code of the library. *)
Class Host : Type := {
  StringToNumber : string -> jsnum;   (* ToNumber applied to a String *)
  NumberToString : jsnum -> string    (* ToString applied to a Number *)
}.

(** Truncation towards zero. *)
Definition Qtrunc (q : Q) : Z := Z.quot (Qnum q) (Zpos (Qden q)).

Definition is_integral (q : Q) : bool := Z.rem (Qnum q) (Zpos (Qden q)) =? 0.

(** [Number.isInteger]: false for everything that is not a number. *)
Definition Number_isInteger (v : prim) : bool :=
  match v with
  | VNum (Fin q) => is_integral q
  | _ => false
  end.

(** [n < z] and [n > z] on numbers, [z] an integer literal. *)
Definition num_ltb (n : jsnum) (z : Z) : bool :=
  match n with
  | Fin q => match Qcompare q (inject_Z z) with Lt => true | _ => false end
  | NegInf => true
  | NaN | PosInf => false
  end.

Definition num_gtb (n : jsnum) (z : Z) : bool :=
  match n with
  | Fin q => match Qcompare q (inject_Z z) with Gt => true | _ => false end
  | PosInf => true
  | NaN | NegInf => false
  end.

Definition ToBoolean (v : prim) : bool :=
  match v with
  | VUndefined | VNull => false
  | VBool b => b
  | VNum (Fin q) => negb (Qnum q =? 0)
  | VNum NaN => false
  | VNum _ => true
  | VStr s => negb (String.eqb s "")
  end.

(** Integer part of a number modulo [2^w]; NaN and the infinities give 0. *)
Definition to_uint (w : Z) (n : jsnum) : Z :=
  match n with
  | Fin q => Qtrunc q mod 2 ^ w
  | _ => 0
  end.

(** The double nearest to an integer (ties to the even significand): an
    integer of magnitude up to [2^53] is a double; a larger one is rounded
    to 53 significant bits.  (For integers below [2^1024] in magnitude;
    past that a double is infinite.) *)
Definition double_of_Z (z : Z) : Z :=
  let a := Z.abs z in
  if a <=? 2 ^ 53 then z
  else
    let e := Z.log2 a - 52 in
    let q := a / 2 ^ e in
    let r := a mod 2 ^ e in
    let half := 2 ^ (e - 1) in
    let q' := if (half <? r) || ((r =? half) && Z.odd q) then q + 1 else q in
    Z.sgn z * (q' * 2 ^ e).

(** [++n] on a number with an integer value: the sum is a double again. *)
Definition increment (n : Z) : Z := double_of_Z (n + 1).

Definition to_signed (w : Z) (u : Z) : Z :=
  if 2 ^ (w - 1) <=? u then u - 2 ^ w else u.

(** [v === w] where [w] is a number or, for [None], undefined. *)
Definition strict_equal (v : prim) (w : option Z) : bool :=
  match v, w with
  | VNum (Fin q), Some z => Qeq_bool q (inject_Z z)
  | VUndefined, None => true
  | _, _ => false
  end.

Section WithHost.
Context `{Host}.

Definition ToNumber (v : prim) : jsnum :=
  match v with
  | VUndefined => NaN
  | VNull => Fin 0
  | VBool true => Fin 1
  | VBool false => Fin 0
  | VNum n => n
  | VStr s => StringToNumber s
  end.

Definition ToString (v : prim) : string :=
  match v with
  | VUndefined => "undefined"
  | VNull => "null"
  | VBool true => "true"
  | VBool false => "false"
  | VNum n => NumberToString n
  | VStr s => s
  end.

Definition ToInt32 (v : prim) : Z := to_signed 32 (to_uint 32 (ToNumber v)).
Definition ToUint8 (v : prim) : Z := to_uint 8 (ToNumber v).
End WithHost.

End JS.
Export JS.

(** ** Errors and results *)

(** The descriptor built by [CIPErrorParser.parse] (cipErrorCodes.js). *)
Module CIPError.
Record t : Type := {
  code : Z;
  extendedCode : Z;
  name : string;
  description : string;
  isRecoverable : bool
}.
End CIPError.

(** One constructor per [throw] site of the sources, named as the
    specification's error taxonomy names them; the exceptions raised by
    the runtime itself keep their JavaScript names. *)
Inductive error : Type :=
| ValidationError (field : string)    (* "Invalid <field> ID: Must be an integer between 0 and 65535" *)
| MissingIdentifier                   (* "At least one of classId, instanceId, or attributeId must be provided" *)
| UnsupportedDataType (typeCode : Z)  (* "Unsupported data type: 0x.." / "Unsupported CIP data type: 0x.." *)
| ResponseNotBuffer                   (* "Response must be a Buffer" *)
| InvalidResponseLength (len : nat)   (* "Invalid response length: <len> bytes" *)
| ProtocolStatusError (descriptor : CIPError.t) (rawResponse : list byte)
| WithRawData (e : error) (rawData : list byte)  (* a decode error with [rawData] attached *)
| SessionAlreadyActive                (* "Session already established" *)
| SessionRegistrationFailed           (* "Invalid session response" / "Session registration failed" *)
| NotPointToPoint                     (* "Only point-to-point connections support secure data" *)
| SessionNotActive                    (* "Secure session not established" *)
| InvalidLength                       (* "Invalid response length" (secure client) *)
| SessionHandleMismatch               (* "Session handle mismatch" *)
| SecurityError                       (* "MAC verification failed" *)
| TimeoutError                        (* "Timeout waiting for response" *)
| RangeError                          (* Buffer access or value out of range *)
| TypeError (what : string)
| ReferenceError (identifier : string).

Inductive result (A : Type) : Type :=
| Ok (a : A)
| Throw (e : error).
Arguments Ok {A} a.
Arguments Throw {A} e.

Definition bind {A B : Type} (r : result A) (k : A -> result B) : result B :=
  match r with
  | Ok a => k a
  | Throw e => Throw e
  end.

Declare Scope js_scope.
Notation "'let*' x ':=' r 'in' k" := (bind r (fun x => k))
  (at level 10, x name, r at level 100, k at level 200) : js_scope.
Open Scope js_scope.

(** ** Buffers (the [buffer] module) *)

Module Buf.

Definition Buffer : Type := list byte.

Definition byte_of_Z (z : Z) : byte :=
  match Byte.of_N (Z.to_N (z mod 256)) with
  | Some b => b
  | None => x00
  end.

Definition Z_of_byte (b : byte) : Z := Z.of_N (Byte.to_N b).

(** [Buffer.alloc(n)] *)
Definition alloc (n : nat) : Buffer := repeat x00 n.

(** Index normalisation of [slice]: negative indices count from the end,
    everything is clamped to the buffer. *)
Definition clamp_index (len i : Z) : nat :=
  Z.to_nat (if i <? 0 then Z.max (len + i) 0 else Z.min i len).

(** [buf.slice(start, stop)] *)
Definition slice (b : Buffer) (start stop : Z) : Buffer :=
  let len := Z.of_nat (length b) in
  let s := clamp_index len start in
  let e := clamp_index len stop in
  firstn (e - s) (skipn s b).

(** [buf.slice(start)] *)
Definition slice_from (b : Buffer) (start : Z) : Buffer :=
  slice b start (Z.of_nat (length b)).

(** The [n] bytes at [off], or the runtime's range error. *)
Definition bytes_at (b : Buffer) (off n : nat) : result (list byte) :=
  if (off + n <=? length b)%nat then Ok (firstn n (skipn off b))
  else Throw RangeError.

Fixpoint le_value (bs : list byte) : Z :=
  match bs with
  | [] => 0
  | b :: rest => Z_of_byte b + 256 * le_value rest
  end.

Definition be_value (bs : list byte) : Z := le_value (rev bs).

Definition readUInt8 (b : Buffer) (off : nat) : result Z :=
  let* bs := bytes_at b off 1 in Ok (le_value bs).
Definition readInt8 (b : Buffer) (off : nat) : result Z :=
  let* bs := bytes_at b off 1 in Ok (to_signed 8 (le_value bs)).
Definition readUInt16LE (b : Buffer) (off : nat) : result Z :=
  let* bs := bytes_at b off 2 in Ok (le_value bs).
Definition readUInt16BE (b : Buffer) (off : nat) : result Z :=
  let* bs := bytes_at b off 2 in Ok (be_value bs).
Definition readInt16LE (b : Buffer) (off : nat) : result Z :=
  let* bs := bytes_at b off 2 in Ok (to_signed 16 (le_value bs)).
Definition readInt16BE (b : Buffer) (off : nat) : result Z :=
  let* bs := bytes_at b off 2 in Ok (to_signed 16 (be_value bs)).
Definition readUInt32LE (b : Buffer) (off : nat) : result Z :=
  let* bs := bytes_at b off 4 in Ok (le_value bs).
Definition readInt32LE (b : Buffer) (off : nat) : result Z :=
  let* bs := bytes_at b off 4 in Ok (to_signed 32 (le_value bs)).
Definition readInt32BE (b : Buffer) (off : nat) : result Z :=
  let* bs := bytes_at b off 4 in Ok (to_signed 32 (be_value bs)).

(** The [n] low bytes of [v], least significant first (two's complement
    for a negative [v]). *)
Fixpoint le_bytes (n : nat) (v : Z) : list byte :=
  match n with
  | O => []
  | S k => byte_of_Z v :: le_bytes k (v / 256)
  end.

Definition be_bytes (n : nat) (v : Z) : list byte := rev (le_bytes n v).

(** Overwrite the bytes of [b] from [off] on with [bs]. *)
Definition splice (b : Buffer) (off : nat) (bs : list byte) : Buffer :=
  firstn off b ++ bs ++ skipn (off + length bs) b.

(** The integer writers: the value is checked against the range of the
    field, then the offset against the buffer; the integer part of the
    value is stored. *)
Definition write_int (order : nat -> Z -> list byte) (n : nat) (lo hi : Z)
    (b : Buffer) (value : jsnum) (off : nat) : result Buffer :=
  if num_gtb value hi || num_ltb value lo then Throw RangeError
  else if (off + n <=? length b)%nat
       then Ok (splice b off (order n (to_uint 32 value)))
       else Throw RangeError.

Definition writeUInt8 := write_int le_bytes 1 0 255.
Definition writeUInt16LE := write_int le_bytes 2 0 65535.
Definition writeUInt32LE := write_int le_bytes 4 0 4294967295.
Definition writeInt16LE := write_int le_bytes 2 (-32768) 32767.
Definition writeInt16BE := write_int be_bytes 2 (-32768) 32767.
Definition writeInt32LE := write_int le_bytes 4 (-2147483648) 2147483647.
Definition writeInt32BE := write_int be_bytes 4 (-2147483648) 2147483647.

(** [src.copy(target, targetStart, sourceStart, sourceEnd)] *)
Definition copy (src target : Buffer) (targetStart : nat) (sourceStart sourceEnd : Z) : Buffer :=
  let part := slice src sourceStart sourceEnd in
  let room := (length target - targetStart)%nat in
  splice target targetStart (firstn room part).

(** [Buffer.from(array)]: every element is reduced to a byte. *)
Definition from_array `{Host} (a : list prim) : Buffer :=
  map (fun v => byte_of_Z (ToUint8 v)) a.

End Buf.
Export Buf.

(** ** cipErrorCodes.js *)

(** [n.toString(16)] for an integer-valued number. *)
Definition toString16 (z : Z) : string :=
  match z with
  | Z0 => "0"
  | Zpos p => HexString.Raw.of_pos p ""
  | Zneg p => String "-" (HexString.Raw.of_pos p "")
  end.

(** An object literal with numeric keys: a later entry with the same key
    replaces the earlier one. *)
Definition object_literal {V : Type} (entries : list (Z * V)) : gmap Z V :=
  fold_left (fun m kv => <[fst kv := snd kv]> m) entries ∅.

Module CipErrorCodes.

(** The parser is the same in both copies of the file; they differ in the
    table and in the text of the fallback description. *)
Section Parser.
Variable CIP_ERROR_CODES : gmap Z (string * string).
Variable unknownDescription : Z -> string.

Definition isRecoverableError (code : Z) : bool :=
  existsb (Z.eqb code) [0x02; 0x06; 0x07].

Definition parse (statusCode : Z) (extendedStatus : Z) : CIPError.t :=
  let error :=
    match CIP_ERROR_CODES !! statusCode with
    | Some entry => entry
    | None => ("UnknownError", unknownDescription statusCode)
    end in
  {| CIPError.code := statusCode;
     CIPError.extendedCode := extendedStatus;
     CIPError.name := fst error;
     CIPError.description := snd error;
     CIPError.isRecoverable := isRecoverableError statusCode |}.
End Parser.

(** First copy of the file. *)
Module V1.
Definition CIP_ERROR_CODES : gmap Z (string * string) := object_literal [
    (0x00, ("Success", "Operation successful"));
    (0x01, ("ConnectionFailure", "Connection failed"));
    (0x02, ("ResourceUnavailable", "Resource unavailable"));
    (0x03, ("InvalidParameter", "Invalid parameter"));
    (0x04, ("PathSegmentError", "Path segment error"));
    (0x05, ("PathDestinationUnknown", "Destination path unknown"));
    (0x06, ("PartialTransfer", "Partial data transfer"));
    (0x07, ("ConnectionLost", "Connection lost"));
    (0x08, ("ServiceNotSupported", "Service not supported"));
    (0x09, ("InvalidAttributeValue", "Invalid attribute value"));
    (0x0A, ("AttributeListError", "Attribute list error"));
    (0x0B, ("AlreadyInRequestedMode", "Already in requested mode"));
    (0x0C, ("ObjectStateConflict", "Object state conflict"));
    (0x0D, ("ObjectAlreadyExists", "Object already exists"));
    (0x0E, ("AttributeNotSettable", "Attribute not settable"));
    (0x0F, ("PrivilegeViolation", "Insufficient privileges"));
    (0x10, ("DevInWrongState", "Device is not in the correct mode"));
    (0x11, ("ReplyDataTooLarge", "Response data packet is too large"));
    (0x12, ("FragmentPrimitive", "Primitive value will be fragmented"));
    (0x13, ("ConfigTooSmall", "Service did not provide enough data"));
    (0x14, ("UndefinedAttr", "Attribute not supported in FIND"));
    (0x15, ("ConfigTooBig", "Service provided data exceeds expectations"));
    (0x16, ("ObjDoesNotExist", "Specified object does not exist"));
    (0x17, ("NoFragmentation", "Fragmentation not activated"));
    (0x18, ("DataNotSaved", "Attribute data not saved"));
    (0x19, ("DataWriteFailure", "Attribute data write failure"));
    (0x1A, ("RequestTooLarge", "Routing failure: request too large"));
    (0x1B, ("ResponseTooLarge", "Routing failure: response too large"));
    (0x1C, ("MissingListData", "Attribute data not found in the list"));
    (0x1D, ("InvalidListStatus", "Returned attribute status list"));
    (0x1E, ("ServiceError", "Embedded service failure"));
    (0x1F, ("ConnRelatedFailure", "Connection handling error"));
    (0x20, ("InvalidParameter", "Error in parameters associated with the request"));
    (0x21, ("WriteOnceFailure", "Write once has been completed"));
    (0x22, ("InvalidReply", "Received invalid reply"));
    (0x23, ("CstNotSynchronized", "CST not synchronized"));
    (0x25, ("BadKeyInPath", "Electronic key failure in the path"));
    (0x26, ("BadPathSize", "Invalid path size"));
    (0x27, ("UnexpectedAttr", "Attribute cannot be set at this time"));
    (0x28, ("InvalidMember", "Member ID does not exist in the list"));
    (0x29, ("MemberNotSettable", "Cannot set member value"));
    (0x2A, ("DnetGrp2OnlySrvr", "Only Dnet group 2 server error"));
    (0x2B, ("DisqualifiedMode", "Redundant mode has been disqualified"));
    (0x2C, ("PrimaryMode", "Redundant mode is primary"));
    (0x2D, ("InstanceNotDeletable", "Requested object instance cannot be deleted"));
    (0x2D, ("SecondaryMode", "Redundant mode is secondary"));
    (0x2E, ("BadServiceForPath", "Service not supported for the specified path"));
    (0x61, ("NvsBypass", "Special bypass update"));
    (0xFB, ("PortNotSupported", "Message port not supported"));
    (0xFF, ("GctGeneral", "GetConnTags ConnMngr service error"));
    (0x1000, ("VendorSpecificError", "Self-defined error codes"))
  ].

Definition unknownDescription (statusCode : Z) : string :=
  ("未知错误 (Code: 0x" ++ toString16 statusCode)%string.

Module CIPErrorParser.
Definition isRecoverableError := isRecoverableError.
Definition parse := parse CIP_ERROR_CODES unknownDescription.
End CIPErrorParser.
End V1.

(** Second copy of the file. *)
Module V2.
Definition CIP_ERROR_CODES : gmap Z (string * string) := object_literal [
    (0x00, ("Success", "Operation successful"));
    (0x01, ("ConnectionFailure", "Connection failed"));
    (0x02, ("ResourceUnavailable", "Resource unavailable"));
    (0x03, ("InvalidParameter", "Invalid parameter"));
    (0x04, ("PathProcessingFailure", "Path processing failure"));
    (0x05, ("PathDestinationUnknown", "Destination path unknown"));
    (0x06, ("PartialTransfer", "Partial data transfer"));
    (0x07, ("ConnectionLost", "Connection lost"));
    (0x08, ("ServiceNotSupported", "Service not supported"));
    (0x09, ("AttributeNotSupported", "Attribute not supported"));
    (0x0A, ("AttributeListError", "Attribute list error"));
    (0x0B, ("AlreadyInRequestedMode", "Already in requested mode"));
    (0x0C, ("ObjectStateConflict", "Object state conflict"));
    (0x0D, ("ObjectAlreadyExists", "Object already exists"));
    (0x0E, ("AttributeNotSettable", "Attribute not settable"));
    (0x0F, ("PrivilegeViolation", "Insufficient privileges"));
    (0x10, ("DeviceStateConflict", "Device is not in the correct mode"));
    (0x11, ("ReplyDataTooLarge", "Response data packet is too large"));
    (0x12, ("FragmentationOfPrimitive", "Primitive value will be fragmented"));
    (0x13, ("NotEnoughData", "Not enough data"));
    (0x14, ("AttributeNotFound", "Attribute not found"));
    (0x15, ("TooMuchData", "Service provided data exceeds expectations"));
    (0x16, ("ObjectDoesNotExist", "Specified object does not exist"));
    (0x17, ("NoFragmentation", "Fragmentation not activated"));
    (0x18, ("DataNotSaved", "Attribute data not saved"));
    (0x19, ("DataWriteFailure", "Attribute data write failure"));
    (0x1A, ("RequestTooLarge", "Routing failure: request too large"));
    (0x1B, ("ResponseTooLarge", "Routing failure: response too large"));
    (0x1C, ("MissingListData", "Attribute data not found in the list"));
    (0x1D, ("InvalidListStatus", "Returned attribute status list"));
    (0x1E, ("ServiceError", "Embedded service failure"));
    (0x1F, ("ConnectionRelatedFailure", "Connection handling error"));
    (0x21, ("WriteOnceFailure", "Write once has been completed"));
    (0x22, ("InvalidReply", "Received invalid reply"));
    (0x23, ("BufferInvalidSize", "Buffer size mismatch"));
    (0x24, ("InvalidAttributeData", "Invalid attribute data"));
    (0x25, ("InvalidKeySegmentInPath", "Electronic key failure in the path"));
    (0x26, ("InvalidPathSize", "Invalid path size"));
    (0x27, ("UnexpectedAttribute", "Attribute cannot be set at this time"));
    (0x28, ("InvalidMember", "Member ID does not exist in the list"));
    (0x29, ("MemberNotSettable", "Cannot set member value"));
    (0x2A, ("DnetGroup2OnlyServer", "Only Dnet group 2 server error"));
    (0x2B, ("DisqualifiedRedundancyMode", "Redundant mode has been disqualified"));
    (0x2C, ("PrimaryMode", "Redundant mode is primary"));
    (0x2D, ("InstanceNotDeletable", "Requested object instance cannot be deleted"));
    (0x2E, ("SecondaryMode", "Redundant mode is secondary"));
    (0x2F, ("InvalidServiceForPath", "Service not supported for the specified path"));
    (0x61, ("NvsUpdateInProgress", "Special bypass update"));
    (0xFB, ("MessagePortNotSupported", "Message port not supported"));
    (0xFF, ("GeneralError", "General error"));
    (0x1000, ("VendorSpecificError", "Vendor specific error codes"))
  ].

Definition unknownDescription (statusCode : Z) : string :=
  ("Unknown error (Code: 0x" ++ toString16 statusCode ++ ")")%string.

Module CIPErrorParser.
Definition isRecoverableError := isRecoverableError.
Definition parse := parse CIP_ERROR_CODES unknownDescription.
End CIPErrorParser.
End V2.

End CipErrorCodes.

(** ** cipDataTypes.js *)

Module CipDataTypes.

(** A registry entry; [size] is [None] where the source has [null].  The
    [encode] members of the entries are used neither by the decoder nor by
    [CIPParser]. *)
Record CIPDataType : Type := {
  code : Z;
  size : option Z
}.

Definition BOOL   := {| code := 0xC1; size := Some 1 |}.
Definition SINT   := {| code := 0xC2; size := Some 1 |}.
Definition INT    := {| code := 0xC3; size := Some 2 |}.
Definition DINT   := {| code := 0xC4; size := Some 4 |}.
Definition REAL   := {| code := 0xCA; size := Some 4 |}.
Definition STRING := {| code := 0xDA; size := None |}.
Definition ARRAY  := {| code := 0xE0; size := None |}.
Definition STRUCT := {| code := 0xE1; size := None |}.
Definition LREAL  := {| code := 0xCB; size := Some 8 |}.

(** The object [CIP_DATA_TYPES]: its properties, in the order of the
    literal, under their names. *)
Definition CIP_DATA_TYPES : list (string * CIPDataType) :=
  [ ("BOOL", BOOL); ("SINT", SINT); ("INT", INT); ("DINT", DINT);
    ("REAL", REAL); ("STRING", STRING); ("ARRAY", ARRAY);
    ("STRUCT", STRUCT); ("LREAL", LREAL) ].

(** [Object.values(o)] *)
Definition Object_values {V : Type} (o : list (string * V)) : list V := map snd o.

(** [o[key]] for a property name. *)
Fixpoint get_property {V : Type} (o : list (string * V)) (key : string) : option V :=
  match o with
  | [] => None
  | (k, v) :: rest => if String.eqb k key then Some v else get_property rest key
  end.

(** The property name of an integer-valued number: its decimal digits. *)
Definition property_key (n : Z) : string := NilZero.string_of_int (Z.to_int n).

(** [CIP_DATA_TYPES[typeCode]?.size || 0] *)
Definition size_of_code (typeCode : Z) : Z :=
  match get_property CIP_DATA_TYPES (property_key typeCode) with
  | Some t => match size t with
              | Some n => if n =? 0 then 0 else n
              | None => 0
              end
  | None => 0
  end.

(** What the decoder returns. *)
Inductive decoded : Type :=
| DBool (b : bool)
| DNum (n : jsnum)
| DStr (s : string)
| DBuf (b : Buffer)
| DArr (elements : list decoded)
| DMember (type : Z) (value : decoded).   (* the object [{type, value}] *)

(** The number denoted by the bits of an IEEE-754 single (a negative zero
    reads as zero). *)
Definition float32_of_bits (u : Z) : jsnum :=
  let negative := 2147483648 <=? u in
  let e := (u / 8388608) mod 256 in
  let m := u mod 8388608 in
  let signed (x : Z) := if negative then - x else x in
  if e =? 255 then
    (if m =? 0 then (if negative then NegInf else PosInf) else NaN)
  else if e =? 0 then Fin (Qred (Qmake (signed m) (Z.to_pos (2 ^ 149))))
  else if 150 <=? e then Fin (inject_Z (signed ((8388608 + m) * 2 ^ (e - 150))))
  else Fin (Qred (Qmake (signed (8388608 + m)) (Z.to_pos (2 ^ (150 - e))))).

Definition readFloatLE (b : Buffer) (off : nat) : result jsnum :=
  let* bs := bytes_at b off 4 in Ok (float32_of_bits (le_value bs)).
Definition readFloatBE (b : Buffer) (off : nat) : result jsnum :=
  let* bs := bytes_at b off 4 in Ok (float32_of_bits (be_value bs)).

(** [buf.toString("ascii")]: the high bit of every byte is dropped. *)
Definition toString_ascii (b : Buffer) : string :=
  string_of_list_ascii
    (map (fun x => ascii_of_N (Z.to_N (Z_of_byte x mod 128))) b).

Module CIPDataTypeDecoder.

Section Body.
(** [this.decode], as the methods call it. *)
Variable decode : Z -> Buffer -> bool -> result decoded.

(** The body of the [for] loop of [decodeArray], [n] iterations left. *)
Fixpoint decodeArray_loop (n : nat) (elementType : Z) (data : Buffer)
    (isBigEndian : bool) (offset : Z) : result (list decoded) :=
  match n with
  | O => Ok []
  | S k =>
      let elementSize := size_of_code elementType in
      let elementData := slice data offset (offset + elementSize) in
      let* v := decode elementType elementData isBigEndian in
      let* rest := decodeArray_loop k elementType data isBigEndian (offset + elementSize) in
      Ok (v :: rest)
  end.

Definition decodeArray (data : Buffer) (isBigEndian : bool) : result decoded :=
  let* elementType := readUInt16BE data 0 in
  let* elementCount := readUInt16BE data 2 in
  let* elements :=
    decodeArray_loop (Z.to_nat elementCount) elementType data isBigEndian 4 in
  Ok (DArr elements).

(** The body of the [for] loop of [decodeStruct]. *)
Fixpoint decodeStruct_loop (n : nat) (data : Buffer) (isBigEndian : bool)
    (offset : Z) : result (list decoded) :=
  match n with
  | O => Ok []
  | S k =>
      let* memberType := readUInt16BE data (Z.to_nat offset) in
      let offset := offset + 2 in
      let memberSize := size_of_code memberType in
      let memberData := slice data offset (offset + memberSize) in
      let* v := decode memberType memberData isBigEndian in
      let* rest := decodeStruct_loop k data isBigEndian (offset + memberSize) in
      Ok (DMember memberType v :: rest)
  end.

Definition decodeStruct (data : Buffer) (isBigEndian : bool) : result decoded :=
  let* memberCount := readUInt16BE data 0 in
  let* members := decodeStruct_loop (Z.to_nat memberCount) data isBigEndian 2 in
  Ok (DArr members).

(** The body of [decode]. *)
Definition decode_body (typeCode : Z) (data : Buffer) (isBigEndian : bool)
    : result decoded :=
  match find (fun t => code t =? typeCode) (Object_values CIP_DATA_TYPES) with
  | None => Throw (UnsupportedDataType typeCode)
  | Some _ =>
      if typeCode =? code BOOL then
        let* v := readUInt8 data 0 in Ok (DBool (negb (v =? 0)))
      else if typeCode =? code SINT then
        let* v := readInt8 data 0 in Ok (DNum (Fin (inject_Z v)))
      else if typeCode =? code INT then
        let* v := (if isBigEndian then readInt16BE data 0 else readInt16LE data 0) in
        Ok (DNum (Fin (inject_Z v)))
      else if typeCode =? code DINT then
        let* v := (if isBigEndian then readInt32BE data 0 else readInt32LE data 0) in
        Ok (DNum (Fin (inject_Z v)))
      else if typeCode =? code REAL then
        let* v := (if isBigEndian then readFloatBE data 0 else readFloatLE data 0) in
        Ok (DNum v)
      else if typeCode =? code STRING then
        let* length := readUInt8 data 0 in
        Ok (DStr (toString_ascii (slice data 1 (1 + length))))
      else if typeCode =? code ARRAY then decodeArray data isBigEndian
      else if typeCode =? code STRUCT then decodeStruct data isBigEndian
      else Ok (DBuf data)
  end.
End Body.

(** [decode]: the body above, calling itself.  The depth of the recursion
    through [decodeArray] and [decodeStruct] is bounded by [fuel]; past
    the bound the stack of the runtime is exhausted, which is a range
    error too.  The inner calls are on slices strictly shorter than the
    buffer, so that the bound chosen in [decode] is never reached:
    [decode] satisfies the recursive equation of the source
    ([decode_equation]). *)
Fixpoint decode_fuel (fuel : nat) : Z -> Buffer -> bool -> result decoded :=
  match fuel with
  | O => fun _ _ _ => Throw RangeError
  | S fuel' => decode_body (decode_fuel fuel')
  end.

Definition decode (typeCode : Z) (data : Buffer) (isBigEndian : bool) : result decoded :=
  decode_fuel (S (List.length data)) typeCode data isBigEndian.

End CIPDataTypeDecoder.
End CipDataTypes.

(** ** cipParser.js *)

Module CipParser.
Import CipDataTypes.

(** Path segment type constants *)
Module PATH_SEGMENTS.
Definition CLASS : Z := 0x20.
Definition INSTANCE : Z := 0x24.
Definition ATTRIBUTE : Z := 0x30.
End PATH_SEGMENTS.

(** The first argument of the response parsers: a Buffer or anything else. *)
Inductive response_arg : Type :=
| IsBuffer (b : Buffer)
| NotBuffer (v : prim).

(** What [parseAttributeResponse] returns: [{dataType, value}], or
    [{isRedundant, transportClass}] from its first branch. *)
Inductive parsed : Type :=
| AttributeValue (dataType : Z) (value : decoded)
| ConnectionStatus (isRedundant : bool) (transportClass : Z).

(** [parseAttributeResponse] uses three identifiers that cipParser.js
    neither declares nor imports: [classId], [CIP_CLASS_IDS] and
    [CipConnOwner].  Such an identifier is looked up on the global object;
    [None] is an identifier without a binding there. *)
Record Globals : Type := {
  g_classId : option prim;
  g_CIP_CLASS_IDS : option (list (string * Z));
  g_CipConnOwner : option (list (string * Z))
}.

(** The global object of a process in which nothing but the library's
    modules has run: none of them assigns a global. *)
Definition no_globals : Globals :=
  {| g_classId := None; g_CIP_CLASS_IDS := None; g_CipConnOwner := None |}.

Definition resolve {A : Type} (binding : option A) (identifier : string) : result A :=
  match binding with
  | Some v => Ok v
  | None => Throw (ReferenceError identifier)
  end.

Section WithHost.
Context `{Host}.
(** [CIPErrorParser.parse] of the imported cipErrorCodes module. *)
Variable CIPErrorParser_parse : Z -> Z -> CIPError.t.

Definition present (id : prim) : bool :=
  match id with
  | VUndefined | VNull => false
  | _ => true
  end.

(** The local function [validateId] of [buildObjectPath]. *)
Definition validateId (id : prim) (name : string) : result bool :=
  if negb (present id) then Ok false
  else if negb (Number_isInteger id)
          || num_ltb (ToNumber id) 0 || num_gtb (ToNumber id) 0xFFFF
       then Throw (ValidationError name)
       else Ok true.

(** [a || b] on fallible operands: [b] is evaluated only when [a] is false. *)
Definition or_else (a : result bool) (b : result bool) : result bool :=
  let* x := a in if x then Ok true else b.

Definition buildObjectPath (classId instanceId attributeId : prim) : result Buffer :=
  let* hasValidId :=
    or_else (validateId classId "Class")
      (or_else (validateId instanceId "Instance")
               (validateId attributeId "Attribute")) in
  if negb hasValidId then Throw MissingIdentifier
  else
    let path := [] in
    let path := if present classId
                then path ++ [num PATH_SEGMENTS.CLASS; classId] else path in
    let path := if present instanceId
                then path ++ [num PATH_SEGMENTS.INSTANCE; instanceId] else path in
    let path := if present attributeId
                then path ++ [num PATH_SEGMENTS.ATTRIBUTE; attributeId] else path in
    Ok (from_array path).

(** [s.substring(0, n)] *)
Definition substring0 (n : nat) (s : string) : string := String.substring 0 n s.

(** [Buffer.from(str, "ascii")]: one byte per character. *)
Definition from_ascii (s : string) : Buffer :=
  map byte_of_ascii (list_ascii_of_string s).

Definition encodeData (value : prim) (dataType : CIPDataType) (isBigEndian : bool)
    : result Buffer :=
  let c := code dataType in
  if c =? code BOOL then
    Ok (from_array [num (if ToBoolean value then 0xFF else 0x00)])
  else if c =? code SINT then
    Ok (from_array [num (Z.land (ToInt32 value) 0xFF)])
  else if c =? code INT then
    if isBigEndian
    then Ok (from_array [num (Z.land (Z.shiftr (ToInt32 value) 8) 0xFF);
                         num (Z.land (ToInt32 value) 0xFF)])
    else Ok (from_array [num (Z.land (ToInt32 value) 0xFF);
                         num (Z.land (Z.shiftr (ToInt32 value) 8) 0xFF)])
  else if (c =? code DINT) || (c =? code REAL) then
    let buf := alloc 4 in
    if isBigEndian then writeInt32BE buf (ToNumber value) 0
    else writeInt32LE buf (ToNumber value) 0
  else if c =? code STRING then
    let maxLength := 255%nat in
    let str := substring0 maxLength (ToString value) in
    let strBuffer := from_ascii str in
    Ok (from_array [num (Z.of_nat (List.length strBuffer))] ++ strBuffer)
  else Throw (UnsupportedDataType c).

Definition parseAttributeResponse (G : Globals) (response : response_arg)
    (isBigEndian : bool) : result parsed :=
  let* classId := resolve (g_classId G) "classId" in
  let* CIP_CLASS_IDS := resolve (g_CIP_CLASS_IDS G) "CIP_CLASS_IDS" in
  if strict_equal classId (get_property CIP_CLASS_IDS "CONNECTION") then
    let* connStatus :=
      match response with
      | IsBuffer b => readUInt16BE b 4
      | NotBuffer _ => Throw (TypeError "response.readUInt16BE is not a function")
      end in
    let* CipConnOwner := resolve (g_CipConnOwner G) "CipConnOwner" in
    let REDUNDANT_OWNER :=
      match get_property CipConnOwner "REDUNDANT_OWNER" with
      | Some z => to_signed 32 (z mod 2 ^ 32)
      | None => 0
      end in
    Ok (ConnectionStatus (negb (Z.land connStatus REDUNDANT_OWNER =? 0))
                         (Z.land connStatus 0x000F))
  else
    match response with
    | NotBuffer _ => Throw ResponseNotBuffer
    | IsBuffer response =>
        if (List.length response <? 4)%nat
        then Throw (InvalidResponseLength (List.length response))
        else
          let* status := readUInt8 response 0 in
          if negb (status =? 0x00) then
            let* extendedStatus :=
              (if (3 <=? List.length response)%nat
               then readUInt16BE response 1 else Ok 0) in
            let error := CIPErrorParser_parse status extendedStatus in
            Throw (ProtocolStatusError error response)
          else
            let* dataTypeCode := readUInt16BE response 2 in
            let data := slice_from response 4 in
            match CIPDataTypeDecoder.decode dataTypeCode data isBigEndian with
            | Ok value => Ok (AttributeValue dataTypeCode value)
            | Throw decodeError => Throw (WithRawData decodeError data)
            end
    end.

Definition decodeComplexData (typeCode : Z) (data : Buffer) (isBigEndian : bool)
    : result decoded :=
  CIPDataTypeDecoder.decode typeCode data isBigEndian.
End WithHost.

End CipParser.

(** ** CipConnFields.js *)

Module CipConnFields.
Module CipConnOwner.
Definition EXCLUSIVE_OWNER : Z := 0x0000.
Definition REDUNDANT_OWNER : Z := 0x8000.
End CipConnOwner.
Module CipConnType.
Definition TYPE_NULL : Z := 0x0000.
Definition TYPE_MULTICAST : Z := 0x2000.
Definition TYPE_PT2PT : Z := 0x4000.
End CipConnType.
Module CipConnPriority.
Definition PRIOR_LOW : Z := 0x0000.
Definition PRIOR_HIGH : Z := 0x0400.
Definition PRIOR_SCHED : Z := 0x0800.
Definition PRIOR_URGENT : Z := 0x0C00.
End CipConnPriority.
Module CipXportDir.
Definition DIRECTION_CLIENT : Z := 0x00.
Definition DIRECTION_SERVER : Z := 0x80.
End CipXportDir.
Module CipProdTrigger.
Definition TRIG_CYCLIC : Z := 0x00.
Definition TRIG_COS : Z := 0x10.
Definition TRIG_APP : Z := 0x20.
Definition TRIG_APP_ONLY : Z := 0x80.
End CipProdTrigger.
End CipConnFields.

(** ** cipClient.js *)

Module CipClient.
Import CipConnFields.

Record ConnectionParams : Type := {
  owner : prim;
  type : prim;
  priority : prim
}.

(** The fields of a [CIPClient] that [buildEncapMessage] reads. *)
Record CIPClient : Type := {
  sessionHandle : prim;
  senderContext : Buffer;
  connectionParams : ConnectionParams
}.

(** The fields as the constructor leaves them, without overrides. *)
Definition new_CIPClient : CIPClient :=
  {| sessionHandle := num 0;
     senderContext := alloc 8;
     connectionParams :=
       {| owner := num CipConnOwner.EXCLUSIVE_OWNER;
          type := num CipConnType.TYPE_PT2PT;
          priority := num CipConnPriority.PRIOR_SCHED |} |}.

(** The socket behind [send] and [receive]: what has been written to it,
    and what the peer answers.  [inbound] lists, in order, the chunks that
    arrive while a [receive] is pending, one for each call, and ends where
    a call waits in vain.  It is not a queue of what has arrived:
    [receive] listens with [once("data")], so a chunk that arrives while no
    call is pending is heard by nobody, and is no part of the record. *)
Record Socket : Type := {
  written : list Buffer;
  inbound : list Buffer
}.

(** [send(data)]: the data is written to the socket. *)
Definition send (data : Buffer) (s : Socket) : result unit * Socket :=
  (Ok tt, {| written := written s ++ [data]; inbound := inbound s |}).

(** [receive(timeout)]: the chunk that arrives while the call is pending,
    or the timeout when none does. *)
Definition receive (s : Socket) : result Buffer * Socket :=
  match inbound s with
  | [] => (Throw TimeoutError, s)
  | chunk :: rest => (Ok chunk, {| written := written s; inbound := rest |})
  end.

Section WithHost.
Context `{Host}.

(** [data] is a Buffer here; the method converts anything else with
    [Buffer.from] first. *)
Definition buildEncapMessage (this : CIPClient) (command : prim) (data : Buffer)
    : result Buffer :=
  let encapHeader := alloc 24 in
  let params := connectionParams this in
  let bits := Z.lor (Z.lor (ToInt32 (owner params)) (ToInt32 (type params)))
                    (ToInt32 (priority params)) in
  let* encapHeader := writeUInt16LE encapHeader (Fin (inject_Z bits)) 16 in
  let* encapHeader := writeUInt16LE encapHeader (ToNumber command) 0 in
  let* encapHeader :=
    writeUInt16LE encapHeader (Fin (inject_Z (Z.of_nat (List.length data)))) 2 in
  let* encapHeader := writeUInt32LE encapHeader (ToNumber (sessionHandle this)) 4 in
  let* encapHeader := writeUInt32LE encapHeader (Fin 0) 8 in
  let encapHeader := copy (senderContext this) encapHeader 12 0 8 in
  Ok (encapHeader ++ data).
End WithHost.

End CipClient.

(** ** secureCIPClient.js *)

Module SecureCipClient.
Import CipConnFields.

Module ENCAPSULATION_PROTOCOL.
Module COMMAND.
Definition SEND_RRDATA : Z := 0x0065.
Definition REGISTER_SESSION : Z := 0x0065.
End COMMAND.
Module STATUS.
Definition SUCCESS : Z := 0x0000.
End STATUS.
End ENCAPSULATION_PROTOCOL.

Record SecurityContext : Type := {
  lastActivity : Z;
  sequenceNumber : Z
}.

(** The fields of a [SecureCIPClient].  The constructor assigns all of
    them but [connectionType], which [sendSecureData] reads and the class
    never writes: it is undefined unless the owner of the object sets it.
    The sequence number is a number with an integer value. *)
Record SecureCIPClient : Type := {
  sessionNonce : Buffer;
  sessionHandle : Z;
  sessionActive : bool;
  securityContext : SecurityContext;
  connectionType : prim
}.

(** The object after [new SecureCIPClient(host)]; [nonce] is the result of
    [randomBytes(16)] and [now] that of [Date.now()]. *)
Definition new_SecureCIPClient (nonce : Buffer) (now : Z) : SecureCIPClient :=
  {| sessionNonce := nonce;
     sessionHandle := 0;
     sessionActive := false;
     securityContext := {| lastActivity := now; sequenceNumber := 0 |};
     connectionType := VUndefined |}.

(** The client together with its socket. *)
Record World : Type := {
  this : SecureCIPClient;
  socket : CipClient.Socket
}.

(** A method: it returns or throws, and leaves a world behind either way. *)
Definition M (A : Type) : Type := World -> result A * World.

Definition ret {A : Type} (a : A) : M A := fun w => (Ok a, w).
Definition throw {A : Type} (e : error) : M A := fun w => (Throw e, w).
Definition bindM {A B : Type} (m : M A) (k : A -> M B) : M B :=
  fun w => match m w with
           | (Ok a, w') => k a w'
           | (Throw e, w') => (Throw e, w')
           end.
(** A computation on buffers that may throw. *)
Definition lift {A : Type} (r : result A) : M A := fun w => (r, w).
Definition get_this : M SecureCIPClient := fun w => (Ok (this w), w).
Definition set_this (f : SecureCIPClient -> SecureCIPClient) : M unit :=
  fun w => (Ok tt, {| this := f (this w); socket := socket w |}).

#[global] Instance M_ret : MRet M := @ret.
#[global] Instance M_bind : MBind M := fun A B k m => bindM m k.

Definition set_sessionHandle (h : Z) (c : SecureCIPClient) : SecureCIPClient :=
  {| sessionNonce := sessionNonce c; sessionHandle := h;
     sessionActive := sessionActive c; securityContext := securityContext c;
     connectionType := connectionType c |}.
Definition set_sessionActive (b : bool) (c : SecureCIPClient) : SecureCIPClient :=
  {| sessionNonce := sessionNonce c; sessionHandle := sessionHandle c;
     sessionActive := b; securityContext := securityContext c;
     connectionType := connectionType c |}.
Definition set_securityContext (s : SecurityContext) (c : SecureCIPClient) : SecureCIPClient :=
  {| sessionNonce := sessionNonce c; sessionHandle := sessionHandle c;
     sessionActive := sessionActive c; securityContext := s;
     connectionType := connectionType c |}.
Definition set_sequenceNumber (n : Z) (c : SecureCIPClient) : SecureCIPClient :=
  set_securityContext
    {| lastActivity := lastActivity (securityContext c); sequenceNumber := n |} c.
Definition set_lastActivity (t : Z) (c : SecureCIPClient) : SecureCIPClient :=
  set_securityContext
    {| lastActivity := t; sequenceNumber := sequenceNumber (securityContext c) |} c.

(** [a.equals(b)] *)
#[global] Instance byte_eq_decision : EqDecision byte := Byte.byte_eq_dec.
Definition equals (a b : Buffer) : bool := bool_decide (a = b).

(** The methods call three members that the class does not define:
    [SecureCIPClient] extends nothing, and neither its body nor its
    constructor gives an object a [send], a [receive] or a
    [buildEncapHeader].  Under such a name an object carries nothing,
    [None], and calling it is a TypeError; or it carries what its owner
    has put there: for [send] and [receive] a transport, which acts on the
    socket, for [buildEncapHeader] a function of the fields. *)
Record Members : Type := {
  send_member :
    option (Buffer -> CipClient.Socket -> result unit * CipClient.Socket);
  receive_member :
    option (CipClient.Socket -> result Buffer * CipClient.Socket);
  buildEncapHeader_member : option (SecureCIPClient -> Buffer)
}.

(** An object of the class as it is: none of the three. *)
Definition as_shipped : Members :=
  {| send_member := None; receive_member := None;
     buildEncapHeader_member := None |}.

(** An object that has been given the [send] and the [receive] of
    [CIPClient] (cipClient.js), and possibly a [buildEncapHeader]. *)
Definition with_transport (header : option (SecureCIPClient -> Buffer)) : Members :=
  {| send_member := Some CipClient.send; receive_member := Some CipClient.receive;
     buildEncapHeader_member := header |}.

Section Methods.
(** [createHmac('sha256', key).update(message).digest()] of the crypto
    module. *)
Variable hmac_sha256 : Buffer -> Buffer -> Buffer.
(** What the object carries under the three names. *)
Variable members : Members.

(** [this.send(data)] *)
Definition send (data : Buffer) : M unit :=
  fun w => match send_member members with
           | None => (Throw (TypeError "this.send is not a function"), w)
           | Some transport =>
               let (r, s) := transport data (socket w) in
               (r, {| this := this w; socket := s |})
           end.

(** [this.receive()] *)
Definition receive : M Buffer :=
  fun w => match receive_member members with
           | None => (Throw (TypeError "this.receive is not a function"), w)
           | Some transport =>
               let (r, s) := transport (socket w) in
               (r, {| this := this w; socket := s |})
           end.

(** [this.buildEncapHeader()] *)
Definition buildEncapHeader : M Buffer :=
  fun w => match buildEncapHeader_member members with
           | None => (Throw (TypeError "this.buildEncapHeader is not a function"), w)
           | Some header => (Ok (header (this w)), w)
           end.

Definition buildRegistrationPacket : M Buffer :=
  c ← get_this;
  let packet := alloc 28 in
  packet ← lift (writeUInt8 packet
              (Fin (inject_Z (Z.lor CipXportDir.DIRECTION_CLIENT
                                    CipProdTrigger.TRIG_CYCLIC))) 20);
  packet ← lift (writeUInt16LE packet
              (Fin (inject_Z ENCAPSULATION_PROTOCOL.COMMAND.REGISTER_SESSION)) 0);
  packet ← lift (writeUInt16LE packet (Fin (inject_Z 0x0004)) 2);
  ret (copy (sessionNonce c) packet 4 0 16).

Definition validateSessionResponse (response : Buffer) : M unit :=
  if (List.length response <? 8)%nat then throw SessionRegistrationFailed
  else
    statusCode ← lift (readUInt32LE response 4);
    if negb (statusCode =? ENCAPSULATION_PROTOCOL.STATUS.SUCCESS)
    then throw SessionRegistrationFailed
    else ret tt.

Definition calculateMac (payload : Buffer) : M Buffer :=
  c ← get_this;
  ret (slice (hmac_sha256 (sessionNonce c) payload) 0 8).

Definition receiveWithValidation : M Buffer :=
  response ← receive;
  if (List.length response <? 24)%nat then throw InvalidLength
  else
    handle ← lift (readUInt32LE response 4);
    c ← get_this;
    if negb (handle =? sessionHandle c) then throw SessionHandleMismatch
    else
      let payload := slice response 24 (-12) in
      let receivedMac := slice_from response (-8) in
      calculatedMac ← calculateMac payload;
      if negb (equals calculatedMac receivedMac) then throw SecurityError
      else ret payload.

Definition establishSecureSession : M unit :=
  c ← get_this;
  if sessionActive c then throw SessionAlreadyActive
  else
    registerPacket ← buildRegistrationPacket;
    send registerPacket;;
    response ← receiveWithValidation;
    validateSessionResponse response;;
    handle ← lift (readUInt32LE (slice response 4 8) 0);
    set_this (set_sessionHandle handle);;
    set_this (set_sequenceNumber 0);;
    set_this (set_sessionActive true).

(** [now] is the value of [Date.now()] at the end of the call.  The
    counter is incremented first, as a number; the write of the counter
    fails from [2^32] on; the header is asked for when the packet is put
    together, after the MAC has been computed. *)
Definition sendSecureData (data : Buffer) (now : Z) : M unit :=
  c ← get_this;
  if negb (strict_equal (connectionType c) (Some CipConnType.TYPE_PT2PT))
  then throw NotPointToPoint
  else if negb (sessionActive c) then throw SessionNotActive
  else
    let sequenceBuf := alloc 4 in
    let n := increment (sequenceNumber (securityContext c)) in
    set_this (set_sequenceNumber n);;
    sequenceBuf ← lift (writeUInt32LE sequenceBuf (Fin (inject_Z n)) 0);
    c ← get_this;
    let mac := slice (hmac_sha256 (sessionNonce c) (data ++ sequenceBuf)) 0 8 in
    header ← buildEncapHeader;
    let securePacket := header ++ data ++ sequenceBuf ++ mac in
    send securePacket;;
    set_this (set_lastActivity now).
End Methods.

End SecureCipClient.

(** ** Notions used to state the properties *)

(** A host about which nothing is known: it serves the closed examples,
    none of which coerces a string to a number or a number to a string. *)
Definition any_host : Host :=
  {| StringToNumber := fun _ => NaN; NumberToString := fun _ => "" |}.

Module PathSpec.
Import CipParser.
Section WithHost.
Context `{Host}.

(** The bytes that the specification prescribes for one identifier: none
    when it is absent, else the segment-type byte and the identifier's
    byte. *)
Definition path_segment (segmentType : Z) (id : prim) : Buffer :=
  if present id then [byte_of_Z segmentType; byte_of_Z (ToUint8 id)] else [].

(** An identifier that passes [validateId]. *)
Definition valid_id (id : prim) : bool :=
  Number_isInteger id
  && negb (num_ltb (ToNumber id) 0) && negb (num_gtb (ToNumber id) 0xFFFF).
End WithHost.
End PathSpec.

Module CodecSpec.
Import CipDataTypes.

(** The type codes of the registry [CIP_DATA_TYPES]. *)
Definition registry_codes : list Z := map code (Object_values CIP_DATA_TYPES).

(** The type codes for which [encodeData] has a [case]. *)
Definition encodable_codes : list Z :=
  [code BOOL; code SINT; code INT; code DINT; code REAL; code STRING].
End CodecSpec.

Module DecoderSpec.
Import CipDataTypes. Import CIPDataTypeDecoder.

(** The results of a sequence of steps, in their order; the first failure
    is the failure of the sequence. *)
Fixpoint in_order {A : Type} (steps : list (result A)) : result (list A) :=
  match steps with
  | [] => Ok []
  | step :: rest =>
      let* v := step in
      let* vs := in_order rest in
      Ok (v :: vs)
  end.

(** The bytes of the element number [i] of an ARRAY: the elements follow
    the header of 4 bytes, each of the size that [decodeArray] looks up
    for the element type. *)
Definition element_slice (data : Buffer) (elementType : Z) (i : nat) : Buffer :=
  let elementSize := size_of_code elementType in
  slice data (4 + Z.of_nat i * elementSize)
             (4 + Z.of_nat i * elementSize + elementSize).

(** The element number [i] of an ARRAY, decoded. *)
Definition element (data : Buffer) (isBigEndian : bool) (elementType : Z) (i : nat)
    : result decoded :=
  decode elementType (element_slice data elementType i) isBigEndian.

(** The 16-bit big-endian word at an offset, 0 where there is none. *)
Definition type_at (data : Buffer) (offset : Z) : Z :=
  match readUInt16BE data (Z.to_nat offset) with
  | Ok t => t
  | Throw _ => 0
  end.

(** Where the member number [i] of a STRUCT begins: the members follow
    the member count one after another, each a type code of 2 bytes and
    then as many bytes as [decodeStruct] looks up for that type. *)
Fixpoint member_offset (data : Buffer) (i : nat) : Z :=
  match i with
  | O => 2
  | S k =>
      let offset := member_offset data k in
      offset + 2 + size_of_code (type_at data offset)
  end.

(** The member number [i] of a STRUCT, decoded: its type code is read,
    and its bytes are decoded by [decode] as a value of that type. *)
Definition member (data : Buffer) (isBigEndian : bool) (i : nat) : result decoded :=
  let offset := member_offset data i in
  let* memberType := readUInt16BE data (Z.to_nat offset) in
  let* value :=
    decode memberType
      (slice data (offset + 2) (offset + 2 + size_of_code memberType)) isBigEndian in
  Ok (DMember memberType value).
End DecoderSpec.

Module FramerSpec.
Import CipClient.
(** The 16-bit word of connection parameters that [buildEncapMessage]
    writes first. *)
Definition connection_bits `{Host} (params : ConnectionParams) : Z :=
  Z.lor (Z.lor (ToInt32 (owner params)) (ToInt32 (type params)))
        (ToInt32 (priority params)).
End FramerSpec.

Module SessionSpec.
Import SecureCipClient.
(** The connection type of the client is point-to-point. *)
Definition point_to_point (c : SecureCIPClient) : bool :=
  strict_equal (connectionType c) (Some CipConnFields.CipConnType.TYPE_PT2PT).
End SessionSpec.

Module SessionRuns.
Import SecureCipClient.

(** What can happen to a client and its socket between two observations:
    a call of one of the three methods of the session protocol, the peer
    sending one more chunk (which arrives while a later [receive] is
    pending), or the owner of the object setting its connection type. *)
Inductive event : Type :=
| CallEstablishSecureSession
| CallSendSecureData (data : Buffer) (now : Z)
| CallReceiveWithValidation
| Deliver (chunk : Buffer)
| SetConnectionType (v : prim).

Section Runs.
Variable hmac_sha256 : Buffer -> Buffer -> Buffer.
Variable members : Members.

(** The world after an event, whether the call returned or threw. *)
Definition after (e : event) (w : World) : World :=
  match e with
  | CallEstablishSecureSession => snd (establishSecureSession hmac_sha256 members w)
  | CallSendSecureData data now =>
      snd (sendSecureData hmac_sha256 members data now w)
  | CallReceiveWithValidation => snd (receiveWithValidation hmac_sha256 members w)
  | Deliver chunk =>
      {| this := this w;
         socket := {| CipClient.written := CipClient.written (socket w);
                      CipClient.inbound := CipClient.inbound (socket w) ++ [chunk] |} |}
  | SetConnectionType v =>
      {| this := {| sessionNonce := sessionNonce (this w);
                    sessionHandle := sessionHandle (this w);
                    sessionActive := sessionActive (this w);
                    securityContext := securityContext (this w);
                    connectionType := v |};
         socket := socket w |}
  end.

(** The worlds that a newly constructed client can reach, for an object
    that carries [members]. *)
Inductive reachable : World -> Prop :=
| reachable_new (nonce : Buffer) (now : Z) :
    reachable {| this := new_SecureCIPClient nonce now;
                 socket := {| CipClient.written := []; CipClient.inbound := [] |} |}
| reachable_after (e : event) (w : World) :
    reachable w -> reachable (after e w).
End Runs.

(** Whatever its outcome, a method leaves the client related to the one
    it started from. *)
Definition respects (R : SecureCIPClient -> SecureCIPClient -> Prop)
    {A : Type} (m : M A) : Prop :=
  forall w r w', m w = (r, w') -> R (this w) (this w').

(** The relation "same session handle". *)
Definition same_handle (a b : SecureCIPClient) : Prop :=
  sessionHandle b = sessionHandle a.
End SessionRuns.

(** * The rest of the sources *)

(** ** Failures beyond those of the core *)

Module Outcome.

(** What the remaining functions can throw: an error of the functions
    above, or one of their own. *)
Inductive failure : Type :=
| Thrown (e : error)
| EncapsulationError (encapStatus : Z)       (* "EtherNet/IP Error: 0x<encapStatus>" *)
| EmptySetAttributeResponse                  (* "Empty response for set attribute" *)
| SetAttributeStatusError (descriptor : CIPError.t)
                                             (* the descriptor, with operation = "SET_ATTRIBUTE" *)
| InvalidObjectId (position : nat) (id : prim).
                                             (* "Invalid object ID at position <position>: <id>" *)

Inductive outcome (A : Type) : Type :=
| Returns (a : A)
| Fails (f : failure).
Arguments Returns {A} a.
Arguments Fails {A} f.

Definition of_result {A : Type} (r : result A) : outcome A :=
  match r with
  | Ok a => Returns a
  | Throw e => Fails (Thrown e)
  end.

End Outcome.
Export Outcome.

(** ** cipDataTypes.js: the [encode] members of the registry *)

Module CipDataTypeEncoders.
Import CipDataTypes.

Section WithHost.
Context `{Host}.

(** [CIP_DATA_TYPES.BOOL.encode] *)
Definition BOOL_encode (v : prim) : result Buffer :=
  Ok (from_array [num (if ToBoolean v then 0xFF else 0x00)]).

(** [CIP_DATA_TYPES.SINT.encode] *)
Definition SINT_encode (v : prim) : result Buffer :=
  Ok (from_array [num (Z.land (ToInt32 v) 0xFF)]).

(** [CIP_DATA_TYPES.INT.encode] *)
Definition INT_encode (v : prim) (isBigEndian : bool) : result Buffer :=
  let buf := alloc 2 in
  if isBigEndian then writeInt16BE buf (ToNumber v) 0
  else writeInt16LE buf (ToNumber v) 0.

(** [CIP_DATA_TYPES.DINT.encode] *)
Definition DINT_encode (v : prim) (isBigEndian : bool) : result Buffer :=
  let buf := alloc 4 in
  if isBigEndian then writeInt32BE buf (ToNumber v) 0
  else writeInt32LE buf (ToNumber v) 0.

(** [CIP_DATA_TYPES.STRING.encode]: [v.length] is the length of a string,
    undefined on a number or a boolean, and an error on undefined and
    null; [Buffer.from(v, "ascii")] takes a string only. *)
Definition STRING_encode (v : prim) : result Buffer :=
  match v with
  | VUndefined | VNull => Throw (TypeError "v.length")
  | VStr s =>
      let lengthBuf := from_array [num (Z.of_nat (String.length s))] in
      Ok (lengthBuf ++ CipParser.from_ascii s)
  | VBool _ | VNum _ => Throw (TypeError "Buffer.from")
  end.
End WithHost.

(** The [encode] members of REAL and LREAL write IEEE floats
    ([writeFloat], [writeDouble]); they are not part of this development. *)

End CipDataTypeEncoders.

(** ** cipParser.js: [parseSetAttributeResponse] *)

Module CipParserRest.
Import CipParser.

Section WithParser.
(** [CIPErrorParser.parse] of the imported cipErrorCodes module. *)
Variable CIPErrorParser_parse : Z -> Z -> CIPError.t.

(** The object [{success: true}] is the only value returned. *)
Definition parseSetAttributeResponse (response : response_arg) : outcome unit :=
  match response with
  | NotBuffer _ => Fails (Thrown ResponseNotBuffer)
  | IsBuffer response =>
      if (List.length response <? 1)%nat then Fails EmptySetAttributeResponse
      else
        match readUInt8 response 0 with
        | Throw e => Fails (Thrown e)
        | Ok status =>
            if negb (status =? 0x00)
            then Fails (SetAttributeStatusError (CIPErrorParser_parse status 0))
            else Returns tt
        end
  end.
End WithParser.

End CipParserRest.

(** ** cipClient.js: requests *)

Module CipClientRest.
Import CipDataTypes. Import CipParser. Import CipParserRest. Import CipClient.

(** CIP service codes *)
Module CIP_SERVICES.
Definition GET_ATTRIBUTES : Z := 0x01.
Definition SET_ATTRIBUTES : Z := 0x02.
Definition RESET : Z := 0x05.
Definition START_CONNECTION : Z := 0x0E.
Definition READ_TAG : Z := 0x4C.
End CIP_SERVICES.

(** Common CIP Class IDs *)
Module CIP_CLASS_IDS.
Definition IDENTITY : Z := 0x01.
Definition MESSAGE_ROUTER : Z := 0x02.
Definition ASSEMBLY : Z := 0x04.
Definition CONNECTION : Z := 0x06.
End CIP_CLASS_IDS.

(** A request: it returns or throws, and leaves the socket behind. *)
Definition Net (A : Type) : Type := Socket -> outcome A * Socket.

Definition net_ret {A : Type} (a : A) : Net A := fun s => (Returns a, s).
Definition net_bind {A B : Type} (m : Net A) (k : A -> Net B) : Net B :=
  fun s => match m s with
           | (Returns a, s') => k a s'
           | (Fails f, s') => (Fails f, s')
           end.
#[global] Instance Net_ret : MRet Net := @net_ret.
#[global] Instance Net_bind : MBind Net := fun A B k m => net_bind m k.

(** A computation that touches no socket. *)
Definition pure {A : Type} (r : outcome A) : Net A := fun s => (r, s).
(** [await this.send(..)] and [await this.receive()] *)
Definition net_send (data : Buffer) : Net unit :=
  fun s => let (r, s') := send data s in (of_result r, s').
Definition net_receive : Net Buffer :=
  fun s => let (r, s') := receive s in (of_result r, s').

(** What [getIdentityInfo] returns; a field is [None] where the response
    object has no [value]. *)
Record IdentityInfo : Type := {
  vendorId : option decoded;
  productCode : option decoded;
  serialNumber : option decoded
}.

(** [response.value] *)
Definition value_of (response : parsed) : option decoded :=
  match response with
  | AttributeValue _ value => Some value
  | ConnectionStatus _ _ => None
  end.

Section Requests.
Context `{Host}.
Variable CIPErrorParser_parse : Z -> Z -> CIPError.t.
(** The global scope in which cipParser.js runs. *)
Variable G : Globals.
Variable this : CIPClient.

(** [serviceCode] is a number with an integer value. *)
Definition sendCipRequest (serviceCode : Z) (path : Buffer) (requestData : Buffer)
    : Net Buffer :=
  let pathSize := Fin (Qmake (Z.of_nat (List.length path)) 2) in
  let cipData :=
    from_array [num serviceCode; VNum pathSize] ++ path ++ requestData in
  let encapCommand := 0x0065 in
  message ← pure (of_result (buildEncapMessage this (num encapCommand) cipData));
  net_send message;;
  response ← net_receive;
  encapStatus ← pure (of_result (readUInt32LE response 8));
  if negb (encapStatus =? 0) then pure (Fails (EncapsulationError encapStatus))
  else mret (slice_from response 24).

Definition getAttribute (classId instanceId attributeId : prim) : Net parsed :=
  path ← pure (of_result (buildObjectPath classId instanceId attributeId));
  cipResponse ← sendCipRequest CIP_SERVICES.GET_ATTRIBUTES path (alloc 0);
  pure (of_result
          (parseAttributeResponse CIPErrorParser_parse G (IsBuffer cipResponse) false)).

Definition setAttribute (classId instanceId attributeId value : prim) : Net unit :=
  path ← pure (of_result (buildObjectPath classId instanceId attributeId));
  requestData ← pure (of_result (encodeData value DINT false));
  cipResponse ← sendCipRequest CIP_SERVICES.SET_ATTRIBUTES path requestData;
  pure (parseSetAttributeResponse CIPErrorParser_parse (IsBuffer cipResponse)).

Definition getIdentityInfo : Net IdentityInfo :=
  vendorResponse ← getAttribute (num CIP_CLASS_IDS.IDENTITY) (num 0x01) (num 0x01);
  productResponse ← getAttribute (num CIP_CLASS_IDS.IDENTITY) (num 0x01) (num 0x03);
  serialResponse ← getAttribute (num CIP_CLASS_IDS.IDENTITY) (num 0x01) (num 0x06);
  mret {| vendorId := value_of vendorResponse;
          productCode := value_of productResponse;
          serialNumber := value_of serialResponse |}.
End Requests.

End CipClientRest.

(** ** secureCIPClient.js: teardown and identifier checks *)

Module SecureCipClientRest.
Import SecureCipClient.

Section Teardown.
(** What the object carries under the name [send]. *)
Variable members : Members.

Definition sendSessionClose : M unit :=
  c ← get_this;
  let packet := alloc 24 in
  packet ← lift (writeUInt16LE packet (Fin (inject_Z 0x0066)) 0);
  packet ← lift (writeUInt32LE packet (Fin (inject_Z (sessionHandle c))) 4);
  send members packet.

(** The client after [gracefulShutdown]: its fields and socket, and
    whether [this.client.destroy()] has run. *)
Record ShutDown : Type := {
  final : World;
  destroyed : bool
}.

(** [try { if (this.sessionActive) await this.sendSessionClose() }
     catch (error) { } finally { this.client.destroy();
     this.sessionActive = false }]: what the [try] block throws is
    logged and dropped. *)
Definition gracefulShutdown (w : World) : result unit * ShutDown :=
  let attempt : M unit :=
    c ← get_this;
    if sessionActive c then sendSessionClose else mret tt in
  let w1 := snd (attempt w) in
  (Ok tt,
   {| final := {| this := set_sessionActive false (this w1); socket := socket w1 |};
      destroyed := true |}).
End Teardown.

(** The callback of [ids.forEach] in [validateObjectIds], from [index] on. *)
Fixpoint validateObjectIds_from (index : nat) (ids : list prim) : outcome unit :=
  match ids with
  | [] => Returns tt
  | id :: rest =>
      if negb (Number_isInteger id)
         || num_ltb (match id with VNum n => n | _ => NaN end) 0
         || num_gtb (match id with VNum n => n | _ => NaN end) 0xFFFF
      then Fails (InvalidObjectId index id)
      else validateObjectIds_from (S index) rest
  end.

Definition validateObjectIds (ids : list prim) : outcome unit :=
  validateObjectIds_from 0 ids.

End SecureCipClientRest.

(** ** Further notions used to state the properties *)

Module MoreSpec.

(** A string of 7-bit characters. *)
Definition seven_bit (s : string) : bool :=
  forallb (fun a => (N_of_ascii a <? 128)%N) (list_ascii_of_string s).

(** The first identifier that is present, with its name. *)
Definition first_present (ids : list (prim * string)) : option (prim * string) :=
  find (fun p => CipParser.present (fst p)) ids.

(** The 24 bytes of an encapsulation header: command, length of the
    payload, session handle, status 0, sender context, and four bytes of
    zero. *)
Definition encap_header (command payloadLength handle : Z) (senderContext : Buffer)
    : Buffer :=
  le_bytes 2 command ++ le_bytes 2 payloadLength ++ le_bytes 4 handle
  ++ le_bytes 4 0 ++ senderContext ++ alloc 4.

(** The CIP request: service code, length of the path in 16-bit words,
    path, request data. *)
Definition cip_request (serviceCode : Z) (path requestData : Buffer) : Buffer :=
  byte_of_Z serviceCode :: byte_of_Z (Z.of_nat (List.length path) / 2)
  :: path ++ requestData.

(** What a reply to a request amounts to: the status word at offset 8
    decides, and the CIP data is what follows the first 24 bytes. *)
Definition reply_outcome (reply : Buffer) : outcome Buffer :=
  match readUInt32LE reply 8 with
  | Throw e => Fails (Thrown e)
  | Ok encapStatus =>
      if encapStatus =? 0 then Returns (skipn 24 reply)
      else Fails (EncapsulationError encapStatus)
  end.

(** The socket after one more message has been written and the first
    pending chunk, if any, has been taken. *)
Definition exchanged (message : Buffer) (s : CipClient.Socket) : CipClient.Socket :=
  {| CipClient.written := CipClient.written s ++ [message];
     CipClient.inbound := tl (CipClient.inbound s) |}.

End MoreSpec.

(** * Properties *)

(** ** Numbers and buffers *)

Lemma Qtrunc_inject_Z (z : Z) : Qtrunc (inject_Z z) = z.
Proof. unfold Qtrunc, inject_Z; simpl. apply Z.quot_1_r. Qed.

Lemma is_integral_inject_Z (z : Z) : is_integral (inject_Z z) = true.
Proof. unfold is_integral, inject_Z; simpl. rewrite Z.rem_1_r. reflexivity. Qed.

Lemma to_signed_mod (w v : Z) :
  0 < w -> - 2 ^ (w - 1) <= v < 2 ^ (w - 1) -> to_signed w (v mod 2 ^ w) = v.
Proof.
  intros Hw Hv. unfold to_signed.
  assert (E : 2 ^ w = 2 * 2 ^ (w - 1)).
  { replace w with (Z.succ (w - 1)) at 1 by lia. apply Z.pow_succ_r; lia. }
  assert (P : 0 < 2 ^ (w - 1)) by (apply Z.pow_pos_nonneg; lia).
  destruct (Z.leb_spec (2 ^ (w - 1)) (v mod 2 ^ w)) as [L|L].
  - assert (v < 0).
    { destruct (Z.lt_ge_cases v 0); [assumption|].
      rewrite Z.mod_small in L; lia. }
    assert (M : v mod 2 ^ w = v + 2 ^ w).
    { symmetry. apply Z.mod_unique with (q := -1); lia. }
    lia.
  - destruct (Z.lt_ge_cases v 0) as [N|N].
    + assert (M : v mod 2 ^ w = v + 2 ^ w).
      { symmetry. apply Z.mod_unique with (q := -1); lia. }
      lia.
    + apply Z.mod_small; lia.
Qed.

Lemma Z_of_byte_range (b : byte) : 0 <= Z_of_byte b < 256.
Proof.
  unfold Z_of_byte. pose proof (Byte.to_N_bounded b) as B.
  lia.
Qed.

Lemma byte_of_Z_of_byte (b : byte) : byte_of_Z (Z_of_byte b) = b.
Proof.
  unfold byte_of_Z. rewrite Z.mod_small by apply Z_of_byte_range.
  unfold Z_of_byte. rewrite N2Z.id, Byte.of_to_N. reflexivity.
Qed.

Lemma Z_of_byte_of_Z (z : Z) : Z_of_byte (byte_of_Z z) = z mod 256.
Proof.
  unfold byte_of_Z, Z_of_byte.
  assert (R : 0 <= z mod 256 < 256) by (apply Z.mod_pos_bound; lia).
  destruct (Byte.of_N (Z.to_N (z mod 256))) as [b|] eqn:E.
  - apply Byte.to_of_N in E. rewrite E. apply Z2N.id. lia.
  - apply Byte.of_N_None_iff in E. lia.
Qed.

Lemma le_bytes_length (n : nat) (v : Z) : length (le_bytes n v) = n.
Proof. revert v; induction n as [|n IH]; intros v; simpl; [|rewrite IH]; reflexivity. Qed.

Lemma le_value_le_bytes (n : nat) (v : Z) :
  le_value (le_bytes n v) = v mod 256 ^ Z.of_nat n.
Proof.
  revert v; induction n as [|n IH]; intros v.
  - simpl. symmetry. apply Z.mod_1_r.
  - cbn [le_bytes le_value]. rewrite IH, Z_of_byte_of_Z.
    rewrite Nat2Z.inj_succ, Z.pow_succ_r by lia.
    rewrite Z.rem_mul_r by (try apply Z.pow_nonzero; lia). reflexivity.
Qed.

Lemma be_value_be_bytes (n : nat) (v : Z) :
  be_value (be_bytes n v) = v mod 256 ^ Z.of_nat n.
Proof. unfold be_value, be_bytes. rewrite rev_involutive. apply le_value_le_bytes. Qed.

Lemma bytes_at_whole (bs : list byte) : bytes_at bs 0 (length bs) = Ok bs.
Proof.
  unfold bytes_at. simpl. rewrite Nat.leb_refl, firstn_all. reflexivity.
Qed.


(** ** The error catalog *)

Import CipErrorCodes.

Section ErrorCatalog.

Lemma isRecoverableError_iff (code : Z) :
  isRecoverableError code = true <-> In code [0x02; 0x06; 0x07].
Proof.
  unfold isRecoverableError. rewrite existsb_exists. split.
  - intros [x [Hin Heq]]. apply Z.eqb_eq in Heq. subst x. exact Hin.
  - intros Hin. exists code. split; [exact Hin | apply Z.eqb_refl].
Qed.

Lemma parse_name_unknown (table : gmap Z (string * string)) (text : Z -> string)
    (statusCode extendedStatus : Z) :
  table !! statusCode = None ->
  CIPError.name (parse table text statusCode extendedStatus) = "UnknownError".
Proof. intros E. unfold parse. rewrite E. reflexivity. Qed.

(** C9. In both copies of cipErrorCodes.js, [parse(statusCode,
    extendedStatus)] returns a descriptor whose [isRecoverable] is true
    exactly when the status code is 0x02, 0x06 or 0x07, and whose [code] is
    the status code; for a status code without a catalog entry the
    descriptor is named UnknownError (and still carries the code). *)
Theorem parse_recoverable_and_unknown (statusCode extendedStatus : Z) :
  (CIPError.isRecoverable (V1.CIPErrorParser.parse statusCode extendedStatus) = true
     <-> In statusCode [0x02; 0x06; 0x07]) /\
  (CIPError.isRecoverable (V2.CIPErrorParser.parse statusCode extendedStatus) = true
     <-> In statusCode [0x02; 0x06; 0x07]) /\
  CIPError.code (V1.CIPErrorParser.parse statusCode extendedStatus) = statusCode /\
  CIPError.code (V2.CIPErrorParser.parse statusCode extendedStatus) = statusCode /\
  (V1.CIP_ERROR_CODES !! statusCode = None ->
     CIPError.name (V1.CIPErrorParser.parse statusCode extendedStatus) = "UnknownError") /\
  (V2.CIP_ERROR_CODES !! statusCode = None ->
     CIPError.name (V2.CIPErrorParser.parse statusCode extendedStatus) = "UnknownError").
Proof.
  repeat split; try apply isRecoverableError_iff;
    try (intros Hin; apply isRecoverableError_iff in Hin; exact Hin);
    apply parse_name_unknown.
Qed.

(** The status code 0x30 has no entry in either copy, 0x06 is recoverable. *)
Lemma parse_recoverable_and_unknown_witness :
  (In 0x06 [0x02; 0x06; 0x07] /\
   CIPError.isRecoverable (V1.CIPErrorParser.parse 0x06 0) = true) /\
  (V1.CIP_ERROR_CODES !! 0x30 = None /\
   CIPError.name (V1.CIPErrorParser.parse 0x30 0) = "UnknownError") /\
  (V2.CIP_ERROR_CODES !! 0x30 = None /\
   CIPError.name (V2.CIPErrorParser.parse 0x30 0) = "UnknownError").
Proof.
  split; [|split].
  - assert (Hin : In 0x06 [0x02; 0x06; 0x07]) by (right; left; reflexivity).
    split; [exact Hin|].
    exact (proj2 (proj1 (parse_recoverable_and_unknown 0x06 0)) Hin).
  - assert (E : V1.CIP_ERROR_CODES !! 0x30 = None) by (vm_compute; reflexivity).
    split; [exact E|].
    exact (proj1 (proj2 (proj2 (proj2 (proj2 (parse_recoverable_and_unknown 0x30 0))))) E).
  - assert (E : V2.CIP_ERROR_CODES !! 0x30 = None) by (vm_compute; reflexivity).
    split; [exact E|].
    exact (proj2 (proj2 (proj2 (proj2 (proj2 (parse_recoverable_and_unknown 0x30 0))))) E).
Defined.

End ErrorCatalog.

(** ** Object paths *)

Import CipParser. Import PathSpec.

Section PathBuilder.
Context `{Host}.

Lemma validateId_absent (id : prim) (name : string) :
  present id = false -> validateId id name = Ok false.
Proof. intros E. unfold validateId. rewrite E. reflexivity. Qed.

Lemma validateId_valid (id : prim) (name : string) :
  present id = true -> valid_id id = true -> validateId id name = Ok true.
Proof.
  intros P V. unfold validateId, valid_id in *. rewrite P. simpl.
  apply andb_prop in V as [V V3]. apply andb_prop in V as [V1 V2].
  rewrite V1. apply negb_true_iff in V2, V3. rewrite V2, V3. reflexivity.
Qed.

Lemma validateId_invalid (id : prim) (name : string) :
  present id = true -> valid_id id = false ->
  validateId id name = Throw (ValidationError name).
Proof.
  intros P V. unfold validateId, valid_id in *. rewrite P. simpl.
  destruct (Number_isInteger id); simpl in *; [|reflexivity].
  destruct (num_ltb (ToNumber id) 0); simpl in *; [reflexivity|].
  destruct (num_gtb (ToNumber id) 0xFFFF); simpl in *; [reflexivity|discriminate].
Qed.

Lemma validateId_cases (id : prim) (name : string) :
  validateId id name = Ok (present id) \/
  validateId id name = Throw (ValidationError name).
Proof.
  destruct (present id) eqn:P.
  - destruct (valid_id id) eqn:V.
    + left. apply validateId_valid; assumption.
    + right. apply validateId_invalid; assumption.
  - left. apply validateId_absent; assumption.
Qed.

(** Whenever [buildObjectPath] returns, it returns the three segments. *)
Lemma buildObjectPath_Ok (classId instanceId attributeId : prim) (buf : Buffer) :
  buildObjectPath classId instanceId attributeId = Ok buf ->
  buf = path_segment PATH_SEGMENTS.CLASS classId
        ++ path_segment PATH_SEGMENTS.INSTANCE instanceId
        ++ path_segment PATH_SEGMENTS.ATTRIBUTE attributeId.
Proof.
  unfold buildObjectPath. intros E.
  destruct (or_else _ _) as [hasValidId|e]; simpl in E; [|discriminate].
  destruct hasValidId; simpl in E; [|discriminate].
  injection E as <-. unfold path_segment, from_array.
  destruct (present classId), (present instanceId), (present attributeId);
    reflexivity.
Qed.

(** No identifier at all: the call fails. *)
Lemma buildObjectPath_missing (classId instanceId attributeId : prim) :
  present classId = false -> present instanceId = false ->
  present attributeId = false ->
  buildObjectPath classId instanceId attributeId = Throw MissingIdentifier.
Proof.
  intros Pc Pi Pa. unfold buildObjectPath.
  rewrite (validateId_absent _ _ Pc), (validateId_absent _ _ Pi),
    (validateId_absent _ _ Pa). reflexivity.
Qed.

(** Valid identifiers, one of them present: the call returns. *)
Lemma buildObjectPath_returns (classId instanceId attributeId : prim) :
  (present classId = true -> valid_id classId = true) ->
  (present instanceId = true -> valid_id instanceId = true) ->
  (present attributeId = true -> valid_id attributeId = true) ->
  present classId || present instanceId || present attributeId = true ->
  exists buf, buildObjectPath classId instanceId attributeId = Ok buf.
Proof.
  intros Vc Vi Va P. unfold buildObjectPath.
  assert (R : forall id name, (present id = true -> valid_id id = true) ->
                validateId id name = Ok (present id)).
  { intros id name V. destruct (present id) eqn:E.
    - apply validateId_valid; auto.
    - apply validateId_absent; auto. }
  rewrite (R _ _ Vc), (R _ _ Vi), (R _ _ Va). unfold or_else. simpl.
  destruct (present classId); simpl in *; [eexists; reflexivity|].
  destruct (present instanceId); simpl in *; [eexists; reflexivity|].
  rewrite P. simpl. eexists; reflexivity.
Qed.

(** C7. [buildObjectPath] emits, for each present identifier in the order
    class, instance, attribute, the segment-type byte (0x20, 0x24, 0x30)
    followed by the identifier's byte: every path it returns has this
    form, and it returns one when the identifiers that are present are
    integers in [0,65535] and there is at least one;
    [buildObjectPath(1,2,3)] is [0x20,1,0x24,2,0x30,3],
    [buildObjectPath(10,undefined,undefined)] is [0x20,10]; with no
    identifier present the call fails with MissingIdentifier. *)
Theorem buildObjectPath_emits_segments :
  (forall classId instanceId attributeId buf,
     buildObjectPath classId instanceId attributeId = Ok buf ->
     buf = path_segment 0x20 classId ++ path_segment 0x24 instanceId
           ++ path_segment 0x30 attributeId) /\
  (forall classId instanceId attributeId,
     (present classId = true -> valid_id classId = true) ->
     (present instanceId = true -> valid_id instanceId = true) ->
     (present attributeId = true -> valid_id attributeId = true) ->
     present classId || present instanceId || present attributeId = true ->
     exists buf, buildObjectPath classId instanceId attributeId = Ok buf) /\
  buildObjectPath (num 1) (num 2) (num 3) = Ok [x20; x01; x24; x02; x30; x03] /\
  buildObjectPath (num 10) VUndefined VUndefined = Ok [x20; x0a] /\
  (forall classId instanceId attributeId,
     present classId = false -> present instanceId = false ->
     present attributeId = false ->
     buildObjectPath classId instanceId attributeId = Throw MissingIdentifier).
Proof.
  split; [exact buildObjectPath_Ok|].
  split; [exact buildObjectPath_returns|].
  split; [reflexivity|]. split; [reflexivity|].
  exact buildObjectPath_missing.
Qed.

(** C2 (what the code does). [buildObjectPath(1, 70000, 3)] does not fail:
    [validateId(classId)] is true, so the [||] chain never validates the
    instance identifier, and 70000 is stored as the byte 0x70. *)
Theorem buildObjectPath_skips_validation :
  valid_id (num 70000) = false /\
  buildObjectPath (num 1) (num 70000) (num 3)
    = Ok [x20; x01; x24; x70; x30; x03] /\
  buildObjectPath (num (-1)) (num 2) (num 3) = Throw (ValidationError "Class").
Proof. repeat split. Qed.

(** The identifiers after the first valid one are never validated. *)
Lemma buildObjectPath_first_valid (classId instanceId attributeId : prim) :
  present classId = true -> valid_id classId = true ->
  exists buf, buildObjectPath classId instanceId attributeId = Ok buf.
Proof.
  intros P V. unfold buildObjectPath.
  rewrite (validateId_valid _ _ P V). simpl. eexists; reflexivity.
Qed.

End PathBuilder.

(** The path of class 1, with an instance identifier that is absent. *)
Lemma buildObjectPath_emits_segments_witness :
  (@buildObjectPath any_host (num 1) VNull (num 3) = Ok [x20; x01; x30; x03] /\
   [x20; x01; x30; x03]
     = @path_segment any_host 0x20 (num 1) ++ @path_segment any_host 0x24 VNull
       ++ @path_segment any_host 0x30 (num 3)) /\
  (exists buf, @buildObjectPath any_host VUndefined (num 65535) VNull = Ok buf) /\
  @buildObjectPath any_host VUndefined VNull VUndefined = Throw MissingIdentifier.
Proof.
  assert (E : @buildObjectPath any_host (num 1) VNull (num 3)
              = Ok [x20; x01; x30; x03]) by reflexivity.
  split; [split; [exact E|]|split].
  - exact (proj1 (@buildObjectPath_emits_segments any_host) _ _ _ _ E).
  - apply (proj1 (proj2 (@buildObjectPath_emits_segments any_host))
             VUndefined (num 65535) VNull);
      first [discriminate | reflexivity].
  - apply (proj2 (proj2 (proj2 (proj2 (@buildObjectPath_emits_segments any_host))))
             VUndefined VNull VUndefined); reflexivity.
Defined.

(** ** The codec *)

Import CipDataTypes. Import CIPDataTypeDecoder. Import CodecSpec. Import DecoderSpec.

Lemma byte_of_Z_mod (z : Z) : byte_of_Z (z mod 256) = byte_of_Z z.
Proof. unfold byte_of_Z. rewrite Z.mod_mod by lia. reflexivity. Qed.

Lemma num_ltb_inject (a b : Z) : num_ltb (Fin (inject_Z a)) b = (a <? b).
Proof.
  unfold num_ltb, Qcompare, inject_Z; simpl. rewrite !Z.mul_1_r.
  unfold Z.ltb. destruct (a ?= b); reflexivity.
Qed.

Lemma num_gtb_inject (a b : Z) : num_gtb (Fin (inject_Z a)) b = (b <? a).
Proof.
  unfold num_gtb, Qcompare, inject_Z; simpl. rewrite !Z.mul_1_r.
  rewrite Z.ltb_antisym, Z.leb_compare. destruct (a ?= b); reflexivity.
Qed.

Lemma to_uint_inject (w v : Z) : to_uint w (Fin (inject_Z v)) = v mod 2 ^ w.
Proof. unfold to_uint. rewrite Qtrunc_inject_Z. reflexivity. Qed.

Lemma be_bytes_length (n : nat) (v : Z) : length (be_bytes n v) = n.
Proof. unfold be_bytes. rewrite length_rev. apply le_bytes_length. Qed.

Lemma le_bytes_mod (n : nat) (k v : Z) :
  (Z.of_nat n <= k)%Z -> le_bytes n (v mod 256 ^ k) = le_bytes n v.
Proof.
  revert k v; induction n as [|n IH]; intros k v Hk; [reflexivity|].
  assert (E : 256 ^ k = 256 * 256 ^ (k - 1)).
  { replace k with (Z.succ (k - 1)) at 1 by lia. apply Z.pow_succ_r; lia. }
  assert (P : 0 < 256 ^ (k - 1)) by (apply Z.pow_pos_nonneg; lia).
  assert (B : 0 <= v mod 256 < 256) by (apply Z.mod_pos_bound; lia).
  rewrite E, Z.rem_mul_r by lia.
  cbn [le_bytes]. f_equal.
  - rewrite <- (byte_of_Z_mod (_ + _)), <- (byte_of_Z_mod v). f_equal.
    rewrite (Z.mul_comm 256), Z.mod_add by lia. apply Z.mod_mod; lia.
  - rewrite <- (IH (k - 1) (v / 256)) by lia. f_equal.
    rewrite (Z.mul_comm 256), Z.div_add by lia.
    rewrite (Z.div_small (v mod 256)) by lia. reflexivity.
Qed.

(** A write of an integer in range at the start of a fresh buffer. *)
Lemma write_int_alloc (order : nat -> Z -> list byte) (n : nat) (lo hi v : Z) :
  (forall x, length (order n x) = n) -> lo <= v <= hi ->
  write_int order n lo hi (alloc n) (Fin (inject_Z v)) 0
    = Ok (order n (v mod 2 ^ 32)).
Proof.
  intros L R. unfold write_int. rewrite num_gtb_inject, num_ltb_inject.
  replace (hi <? v) with false by (symmetry; apply Z.ltb_ge; lia).
  replace (v <? lo) with false by (symmetry; apply Z.ltb_ge; lia).
  simpl orb. cbv iota. unfold alloc. rewrite repeat_length.
  rewrite Nat.add_0_l, Nat.leb_refl. unfold splice.
  rewrite to_uint_inject, L, Nat.add_0_l.
  rewrite skipn_all2 by (rewrite repeat_length; lia).
  rewrite app_nil_r. reflexivity.
Qed.

Lemma write_int_outcome (order : nat -> Z -> list byte) (n : nat) (lo hi : Z)
    (b : Buffer) (v : jsnum) (off : nat) :
  (exists buf, write_int order n lo hi b v off = Ok buf) \/
  write_int order n lo hi b v off = Throw RangeError.
Proof.
  unfold write_int. destruct (_ || _); [right; reflexivity|].
  destruct (_ <=? _)%nat; [left; eexists; reflexivity | right; reflexivity].
Qed.

(** [find] over the registry fails exactly on the codes that are not in it. *)
Lemma find_code_None (typeCode : Z) (types : list CIPDataType) :
  find (fun t => code t =? typeCode) types = None <-> ~ In typeCode (map code types).
Proof.
  induction types as [|t ts IH]; simpl.
  - split; [intros _ []|reflexivity].
  - destruct (Z.eqb_spec (code t) typeCode) as [E|N].
    + split; [discriminate|]. intros C. exfalso. apply C. left. exact E.
    + rewrite IH. split.
      * intros C [E|I]; [exact (N E)|exact (C I)].
      * intros C I. apply C. right. exact I.
Qed.

Section Encoding.
Context `{Host}.

Lemma ToUint8_num (z : Z) : ToUint8 (num z) = z mod 256.
Proof. unfold ToUint8, num; simpl. rewrite Qtrunc_inject_Z. reflexivity. Qed.

Lemma ToInt32_num (v : Z) :
  - 2147483648 <= v <= 2147483647 -> ToInt32 (num v) = v.
Proof.
  intros R. unfold ToInt32, num; simpl. rewrite Qtrunc_inject_Z.
  apply (to_signed_mod 32); simpl; lia.
Qed.

Lemma from_array_num_land (x : Z) :
  byte_of_Z (ToUint8 (num (Z.land x 0xFF))) = byte_of_Z x.
Proof.
  rewrite ToUint8_num, byte_of_Z_mod.
  change 0xFF with (Z.ones 8). rewrite Z.land_ones by lia.
  apply byte_of_Z_mod.
Qed.

(** The INT case writes the two low bytes of the value. *)
Lemma encodeData_INT (v : Z) (isBigEndian : bool) :
  - 2147483648 <= v <= 2147483647 ->
  encodeData (num v) INT isBigEndian
    = Ok (if isBigEndian then be_bytes 2 v else le_bytes 2 v).
Proof.
  intros R. unfold encodeData. simpl. rewrite (ToInt32_num v R).
  destruct isBigEndian; unfold from_array, be_bytes; simpl;
    rewrite !from_array_num_land, Z.shiftr_div_pow2 by lia; reflexivity.
Qed.

Lemma encodeData_DINT (v : Z) (isBigEndian : bool) :
  - 2147483648 <= v <= 2147483647 ->
  encodeData (num v) DINT isBigEndian
    = Ok (if isBigEndian then be_bytes 4 v else le_bytes 4 v).
Proof.
  intros R. unfold encodeData. simpl. unfold writeInt32BE, writeInt32LE.
  destruct isBigEndian.
  - rewrite (write_int_alloc be_bytes 4) by (try apply be_bytes_length; lia).
    change (2 ^ 32) with (256 ^ 4).
    unfold be_bytes. rewrite (le_bytes_mod 4 4 v) by lia. reflexivity.
  - rewrite (write_int_alloc le_bytes 4) by (try apply le_bytes_length; lia).
    change (2 ^ 32) with (256 ^ 4).
    rewrite (le_bytes_mod 4 4 v) by lia. reflexivity.
Qed.

Lemma decode_INT (v : Z) (isBigEndian : bool) :
  - 32768 <= v <= 32767 ->
  decode (code INT) (if isBigEndian then be_bytes 2 v else le_bytes 2 v) isBigEndian
    = Ok (DNum (Fin (inject_Z v))).
Proof.
  intros R. unfold decode. destruct isBigEndian.
  - rewrite be_bytes_length. cbn [decode_fuel]. unfold decode_body. simpl find. cbv iota.
    simpl Z.eqb. cbv iota. unfold readInt16BE.
    rewrite <- (be_bytes_length 2 v) at 2. rewrite bytes_at_whole. cbn [bind].
    rewrite be_value_be_bytes.
    change (256 ^ Z.of_nat 2) with (2 ^ 16).
    rewrite (to_signed_mod 16) by (simpl; lia). reflexivity.
  - rewrite le_bytes_length. cbn [decode_fuel]. unfold decode_body. simpl find. cbv iota.
    simpl Z.eqb. cbv iota. unfold readInt16LE.
    rewrite <- (le_bytes_length 2 v) at 2. rewrite bytes_at_whole. cbn [bind].
    rewrite le_value_le_bytes.
    change (256 ^ Z.of_nat 2) with (2 ^ 16).
    rewrite (to_signed_mod 16) by (simpl; lia). reflexivity.
Qed.

Lemma decode_DINT (v : Z) (isBigEndian : bool) :
  - 2147483648 <= v <= 2147483647 ->
  decode (code DINT) (if isBigEndian then be_bytes 4 v else le_bytes 4 v) isBigEndian
    = Ok (DNum (Fin (inject_Z v))).
Proof.
  intros R. unfold decode. destruct isBigEndian.
  - rewrite be_bytes_length. cbn [decode_fuel]. unfold decode_body. simpl find. cbv iota.
    simpl Z.eqb. cbv iota. unfold readInt32BE.
    rewrite <- (be_bytes_length 4 v) at 2. rewrite bytes_at_whole. cbn [bind].
    rewrite be_value_be_bytes.
    change (256 ^ Z.of_nat 4) with (2 ^ 32).
    rewrite (to_signed_mod 32) by (simpl; lia). reflexivity.
  - rewrite le_bytes_length. cbn [decode_fuel]. unfold decode_body. simpl find. cbv iota.
    simpl Z.eqb. cbv iota. unfold readInt32LE.
    rewrite <- (le_bytes_length 4 v) at 2. rewrite bytes_at_whole. cbn [bind].
    rewrite le_value_le_bytes.
    change (256 ^ Z.of_nat 4) with (2 ^ 32).
    rewrite (to_signed_mod 32) by (simpl; lia). reflexivity.
Qed.

End Encoding.

Section EncodeData.
Context `{Host}.

Lemma encodeData_outcome (value : prim) (dataType : CIPDataType) (isBigEndian : bool) :
  (In (code dataType) encodable_codes /\
   ((exists buf, encodeData value dataType isBigEndian = Ok buf) \/
    encodeData value dataType isBigEndian = Throw RangeError)) \/
  (~ In (code dataType) encodable_codes /\
   encodeData value dataType isBigEndian = Throw (UnsupportedDataType (code dataType))).
Proof.
  unfold encodeData, encodable_codes.
  destruct (Z.eqb_spec (code dataType) (code BOOL)) as [E1|N1];
    [left; split; [rewrite E1; simpl; tauto | left; eexists; reflexivity]|].
  destruct (Z.eqb_spec (code dataType) (code SINT)) as [E2|N2];
    [left; split; [rewrite E2; simpl; tauto | left; eexists; reflexivity]|].
  destruct (Z.eqb_spec (code dataType) (code INT)) as [E3|N3];
    [left; split; [rewrite E3; simpl; tauto
                  | left; destruct isBigEndian; eexists; reflexivity]|].
  destruct (Z.eqb_spec (code dataType) (code DINT)) as [E4|N4];
    [left; split; [rewrite E4; simpl; tauto
                  | simpl orb; cbv iota; destruct isBigEndian;
                    apply write_int_outcome]|].
  destruct (Z.eqb_spec (code dataType) (code REAL)) as [E5|N5];
    [left; split; [rewrite E5; simpl; tauto
                  | simpl orb; cbv iota; destruct isBigEndian;
                    apply write_int_outcome]|].
  destruct (Z.eqb_spec (code dataType) (code STRING)) as [E6|N6];
    [left; split; [rewrite E6; simpl; tauto | left; eexists; reflexivity]|].
  right. split; [|reflexivity].
  simpl. intros [C|[C|[C|[C|[C|[C|[]]]]]]]; symmetry in C; contradiction.
Qed.

(** C4, amended. [encodeData] fails UnsupportedDataType exactly for the
    type codes other than those of BOOL, SINT, INT, DINT, REAL and STRING:
    it has no case for the registry types LREAL (0xCB), ARRAY (0xE0) and
    STRUCT (0xE1), which fail like the unregistered code 0xFFFF; for BOOL,
    SINT, INT and STRING it returns a buffer for every value, for DINT and
    REAL for every integer of 32 bits. *)
Theorem encodeData_unsupported_iff (value : prim) (dataType : CIPDataType)
    (isBigEndian : bool) :
  (encodeData value dataType isBigEndian = Throw (UnsupportedDataType (code dataType))
     <-> ~ In (code dataType) [0xC1; 0xC2; 0xC3; 0xC4; 0xCA; 0xDA]) /\
  encodeData value LREAL isBigEndian = Throw (UnsupportedDataType 0xCB) /\
  encodeData value ARRAY isBigEndian = Throw (UnsupportedDataType 0xE0) /\
  encodeData value STRUCT isBigEndian = Throw (UnsupportedDataType 0xE1) /\
  encodeData value {| code := 0xFFFF; size := None |} isBigEndian
    = Throw (UnsupportedDataType 0xFFFF) /\
  (In (code dataType) [0xC1; 0xC2; 0xC3; 0xDA] ->
     exists buf, encodeData value dataType isBigEndian = Ok buf) /\
  (forall v, - 2147483648 <= v <= 2147483647 ->
     (exists buf, encodeData (num v) DINT isBigEndian = Ok buf) /\
     (exists buf, encodeData (num v) REAL isBigEndian = Ok buf)).
Proof.
  split; [|repeat split; try reflexivity].
  - destruct (encodeData_outcome value dataType isBigEndian)
      as [[I [[buf E]|E]]|[N E]]; rewrite E; split;
      try discriminate; try (intros C; exact (False_ind _ (C I)));
      try (intros _; exact N); reflexivity.
  - intros I. unfold encodeData.
    destruct I as [E|[E|[E|[E|[]]]]]; rewrite <- E; simpl;
      try destruct isBigEndian; eexists; reflexivity.
  - rewrite encodeData_DINT by assumption. eexists; reflexivity.
  - pose proof (encodeData_DINT v isBigEndian H0) as E.
    unfold encodeData in *. simpl in *. rewrite E. eexists; reflexivity.
Qed.

(** C5, amended. For every integer [v] of 16 bits and both byte orders,
    decoding as INT what [encodeData] encoded as INT gives [v] back; for
    every integer [v] of 32 bits the same holds for DINT. *)
Theorem roundtrip_INT_DINT (v : Z) (isBigEndian : bool) :
  (- 32768 <= v <= 32767 ->
   exists buf, encodeData (num v) INT isBigEndian = Ok buf /\
               decode (code INT) buf isBigEndian = Ok (DNum (Fin (inject_Z v)))) /\
  (- 2147483648 <= v <= 2147483647 ->
   exists buf, encodeData (num v) DINT isBigEndian = Ok buf /\
               decode (code DINT) buf isBigEndian = Ok (DNum (Fin (inject_Z v)))).
Proof.
  split; intros R.
  - eexists. split; [apply encodeData_INT; lia | apply decode_INT; exact R].
  - eexists. split; [apply encodeData_DINT; lia | apply decode_DINT; exact R].
Qed.

End EncodeData.

(** C4, as stated, fails: LREAL is a type of the registry, and [encodeData]
    fails UnsupportedDataType for it. *)
Lemma encodeData_LREAL_unsupported :
  In (code LREAL) registry_codes /\
  @encodeData any_host (num 1) LREAL false = Throw (UnsupportedDataType 0xCB).
Proof. split; [simpl; tauto | reflexivity]. Qed.

Lemma encodeData_unsupported_iff_witness :
  ~ In 0xE0 [0xC1; 0xC2; 0xC3; 0xC4; 0xCA; 0xDA] /\
  @encodeData any_host (VBool true) ARRAY true = Throw (UnsupportedDataType 0xE0) /\
  (exists buf, @encodeData any_host (VBool true) BOOL true = Ok buf) /\
  (exists buf, @encodeData any_host (num (-7)) DINT true = Ok buf) /\
  (exists buf, @encodeData any_host (num (-7)) REAL true = Ok buf).
Proof.
  assert (N : ~ In (code ARRAY) [0xC1; 0xC2; 0xC3; 0xC4; 0xCA; 0xDA]).
  { simpl. intros [C|[C|[C|[C|[C|[C|[]]]]]]]; discriminate C. }
  assert (R : - 2147483648 <= -7 <= 2147483647) by lia.
  split; [exact N|]. split; [|split; [|split]].
  - exact (proj2 (proj1 (@encodeData_unsupported_iff any_host (VBool true) ARRAY true)) N).
  - apply (proj1 (proj2 (proj2 (proj2 (proj2 (proj2
             (@encodeData_unsupported_iff any_host (VBool true) BOOL true))))))).
    simpl. left. reflexivity.
  - exact (proj1 (proj2 (proj2 (proj2 (proj2 (proj2 (proj2
             (@encodeData_unsupported_iff any_host VNull DINT true)))))) (-7) R)).
  - exact (proj2 (proj2 (proj2 (proj2 (proj2 (proj2 (proj2
             (@encodeData_unsupported_iff any_host VNull DINT true)))))) (-7) R)).
Defined.

(** C5, as stated, fails: no value makes the round trip through LREAL,
    because [encodeData] returns no buffer for it; and [decode] has no case
    for LREAL either, it hands the bytes back. *)
Lemma roundtrip_LREAL_fails :
  (~ exists buf, @encodeData any_host (num 1) LREAL false = Ok buf /\
                 decode (code LREAL) buf false = Ok (DNum (Fin (inject_Z 1)))) /\
  decode (code LREAL) [x00; x00; x00; x00; x00; x00; xf0; x3f] false
    = Ok (DBuf [x00; x00; x00; x00; x00; x00; xf0; x3f]).
Proof.
  split; [|reflexivity].
  intros [buf [E _]]. discriminate E.
Qed.

(** REAL is encoded by [writeInt32] and decoded by [readFloat]: the number
    1 comes back as the smallest positive single. *)
Lemma roundtrip_REAL_one :
  @encodeData any_host (num 1) REAL false = Ok [x01; x00; x00; x00] /\
  decode (code REAL) [x01; x00; x00; x00] false
    = Ok (DNum (Fin (Qmake 1 (Z.to_pos (2 ^ 149))))) /\
  decode (code REAL) [x00; x00; x80; x3f] false = Ok (DNum (Fin (inject_Z 1))).
Proof. repeat split. Qed.

Lemma roundtrip_INT_DINT_witness :
  (exists buf, @encodeData any_host (num (-2)) INT true = Ok buf /\
               decode (code INT) buf true = Ok (DNum (Fin (inject_Z (-2))))) /\
  (exists buf, @encodeData any_host (num 305419896) DINT false = Ok buf /\
               decode (code DINT) buf false = Ok (DNum (Fin (inject_Z 305419896)))).
Proof.
  split.
  - apply (proj1 (@roundtrip_INT_DINT any_host (-2) true)). lia.
  - apply (proj2 (@roundtrip_INT_DINT any_host 305419896 false)). lia.
Defined.

(** *** The decoder *)

Lemma slice_length (b : Buffer) (start stop : Z) :
  0 <= start -> (length (slice b start stop) <= length b - Z.to_nat start)%nat.
Proof.
  intros S. unfold slice, clamp_index.
  replace (start <? 0) with false by (symmetry; apply Z.ltb_ge; lia).
  rewrite length_firstn, length_skipn. lia.
Qed.

Lemma clamp_index_nonneg (len i : Z) :
  0 <= i -> clamp_index len i = Z.to_nat (Z.min i len).
Proof.
  intros P. unfold clamp_index.
  replace (i <? 0) with false by (symmetry; apply Z.ltb_ge; lia). reflexivity.
Qed.

Lemma slice_from_skipn (b : Buffer) (n : nat) :
  slice_from b (Z.of_nat n) = skipn n b.
Proof.
  unfold slice_from, slice. rewrite !clamp_index_nonneg by lia.
  rewrite Z.min_id, Nat2Z.id.
  destruct (Nat.le_gt_cases n (length b)) as [L|L].
  - rewrite Z.min_l by lia. rewrite Nat2Z.id.
    apply firstn_all2. rewrite length_skipn. lia.
  - rewrite Z.min_r by lia. rewrite Nat2Z.id, Nat.sub_diag.
    rewrite (skipn_all2 b (n := n)) by lia. reflexivity.
Qed.

Lemma bytes_at_Ok (b : Buffer) (off n : nat) (bs : list byte) :
  bytes_at b off n = Ok bs -> (off + n <= length b)%nat.
Proof.
  unfold bytes_at. destruct (Nat.leb_spec (off + n) (length b)); [trivial|discriminate].
Qed.

Lemma readUInt16BE_Ok (b : Buffer) (off : nat) (v : Z) :
  readUInt16BE b off = Ok v -> (off + 2 <= length b)%nat.
Proof.
  unfold readUInt16BE. destruct (bytes_at b off 2) as [bs|e] eqn:E; [|discriminate].
  intros _. exact (bytes_at_Ok _ _ _ _ E).
Qed.

(** No property of [CIP_DATA_TYPES] is named by a number: the object is
    keyed by the names of the types, not by their codes. *)
Lemma property_key_not_a_name (typeCode : Z) :
  get_property CIP_DATA_TYPES (property_key typeCode) = None.
Proof.
  unfold property_key. destruct (Z.to_int typeCode) as [u|u]; [destruct u|];
    reflexivity.
Qed.

(** Hence the size that [decodeArray] and [decodeStruct] look up is 0 for
    every type code. *)
Lemma size_of_code_zero (typeCode : Z) : size_of_code typeCode = 0.
Proof. unfold size_of_code. rewrite property_key_not_a_name. reflexivity. Qed.

Section LoopsAgree.
Variables d1 d2 : Z -> Buffer -> bool -> result decoded.
Variable data : Buffer.
Hypothesis agree : forall typeCode d isBigEndian,
  (length d < length data)%nat -> d1 typeCode d isBigEndian = d2 typeCode d isBigEndian.
Hypothesis nonempty : (0 < length data)%nat.

Lemma decodeArray_loop_ext (n : nat) (elementType : Z) (isBigEndian : bool) (offset : Z) :
  0 < offset ->
  decodeArray_loop d1 n elementType data isBigEndian offset
    = decodeArray_loop d2 n elementType data isBigEndian offset.
Proof.
  revert offset; induction n as [|n IH]; intros offset P; [reflexivity|].
  cbn [decodeArray_loop]. rewrite size_of_code_zero, Z.add_0_r.
  rewrite agree by (pose proof (slice_length data offset offset); lia).
  destruct (d2 _ _ _); [|reflexivity]. cbn [bind].
  rewrite IH by exact P. reflexivity.
Qed.

Lemma decodeStruct_loop_ext (n : nat) (isBigEndian : bool) (offset : Z) :
  0 < offset ->
  decodeStruct_loop d1 n data isBigEndian offset
    = decodeStruct_loop d2 n data isBigEndian offset.
Proof.
  revert offset; induction n as [|n IH]; intros offset P; [reflexivity|].
  cbn [decodeStruct_loop].
  destruct (readUInt16BE data (Z.to_nat offset)) as [memberType|e]; [|reflexivity].
  cbn [bind]. rewrite size_of_code_zero, Z.add_0_r.
  rewrite agree by (pose proof (slice_length data (offset + 2) (offset + 2)); lia).
  destruct (d2 _ _ _); [|reflexivity]. cbn [bind].
  rewrite IH by lia. reflexivity.
Qed.
End LoopsAgree.

(** The recursion of [decode] goes through slices that are strictly
    shorter than the buffer: any bound above the length of the buffer
    gives the same result, and the bound of [decode] is such a bound. *)
Lemma decode_fuel_stable (fuel1 fuel2 : nat) (typeCode : Z) (data : Buffer)
    (isBigEndian : bool) :
  (length data < fuel1)%nat -> (length data < fuel2)%nat ->
  decode_fuel fuel1 typeCode data isBigEndian
    = decode_fuel fuel2 typeCode data isBigEndian.
Proof.
  revert fuel2 typeCode data isBigEndian.
  induction fuel1 as [|f1 IH]; intros fuel2 typeCode data isBigEndian L1 L2; [lia|].
  destruct fuel2 as [|f2]; [lia|]. cbn [decode_fuel]. unfold decode_body.
  destruct (find _ _); [|reflexivity].
  repeat (match goal with
          | |- (if ?c then _ else _) = _ => destruct c; [reflexivity|]
          end).
  destruct (typeCode =? code ARRAY).
  - unfold decodeArray.
    destruct (readUInt16BE data 0) as [elementType|e] eqn:E0; [|reflexivity].
    apply readUInt16BE_Ok in E0. cbn [bind].
    destruct (readUInt16BE data 2) as [elementCount|e]; [|reflexivity].
    cbn [bind].
    rewrite (decodeArray_loop_ext (decode_fuel f1) (decode_fuel f2) data);
      [reflexivity| |lia|lia].
    intros tc d be Ld. apply IH; lia.
  - destruct (typeCode =? code STRUCT); [|reflexivity].
    unfold decodeStruct.
    destruct (readUInt16BE data 0) as [memberCount|e] eqn:E0; [|reflexivity].
    apply readUInt16BE_Ok in E0. cbn [bind].
    rewrite (decodeStruct_loop_ext (decode_fuel f1) (decode_fuel f2) data);
      [reflexivity| |lia|lia].
    intros tc d be Ld. apply IH; lia.
Qed.

Lemma decode_unfold (fuel : nat) (typeCode : Z) (data : Buffer) (isBigEndian : bool) :
  (length data < fuel)%nat ->
  decode_fuel fuel typeCode data isBigEndian = decode typeCode data isBigEndian.
Proof. intros L. unfold decode. apply decode_fuel_stable; lia. Qed.

(** [decode] satisfies the recursive equation of the source: it is its
    body, with [decode] itself for the inner calls. *)
Lemma decode_equation (typeCode : Z) (data : Buffer) (isBigEndian : bool) :
  decode typeCode data isBigEndian = decode_body decode typeCode data isBigEndian.
Proof.
  unfold decode at 1. cbn [decode_fuel]. unfold decode_body.
  destruct (find _ _); [|reflexivity].
  repeat (match goal with
          | |- (if ?c then _ else _) = _ => destruct c; [reflexivity|]
          end).
  destruct (typeCode =? code ARRAY).
  - unfold decodeArray.
    destruct (readUInt16BE data 0) as [elementType|e] eqn:E0; [|reflexivity].
    apply readUInt16BE_Ok in E0. cbn [bind].
    destruct (readUInt16BE data 2) as [elementCount|e]; [|reflexivity].
    cbn [bind].
    rewrite (decodeArray_loop_ext (decode_fuel (length data)) decode data);
      [reflexivity| |lia|lia].
    intros tc d be Ld. apply decode_unfold. exact Ld.
  - destruct (typeCode =? code STRUCT); [|reflexivity].
    unfold decodeStruct.
    destruct (readUInt16BE data 0) as [memberCount|e] eqn:E0; [|reflexivity].
    apply readUInt16BE_Ok in E0. cbn [bind].
    rewrite (decodeStruct_loop_ext (decode_fuel (length data)) decode data);
      [reflexivity| |lia|lia].
    intros tc d be Ld. apply decode_unfold. exact Ld.
Qed.

(** At any depth, a type code outside the registry is refused. *)
Lemma decode_fuel_unknown (fuel : nat) (typeCode : Z) (data : Buffer) (isBigEndian : bool) :
  ~ In typeCode registry_codes ->
  decode_fuel (S fuel) typeCode data isBigEndian = Throw (UnsupportedDataType typeCode).
Proof.
  intros N. cbn [decode_fuel]. unfold decode_body.
  apply find_code_None in N. rewrite N. reflexivity.
Qed.

Lemma decode_unknown (typeCode : Z) (data : Buffer) (isBigEndian : bool) :
  ~ In typeCode registry_codes ->
  decode typeCode data isBigEndian = Throw (UnsupportedDataType typeCode).
Proof. apply decode_fuel_unknown. Qed.

Lemma decode_ARRAY (data : Buffer) (isBigEndian : bool) :
  decode (code ARRAY) data isBigEndian = decodeArray decode data isBigEndian.
Proof. rewrite decode_equation. reflexivity. Qed.

Lemma decode_STRUCT (data : Buffer) (isBigEndian : bool) :
  decode (code STRUCT) data isBigEndian = decodeStruct decode data isBigEndian.
Proof. rewrite decode_equation. reflexivity. Qed.

(** *** Elements and members, one by one *)

Lemma in_order_length {A : Type} (steps : list (result A)) (vs : list A) :
  in_order steps = Ok vs -> length vs = length steps.
Proof.
  revert vs. induction steps as [|step rest IH]; intros vs E.
  - injection E as <-. reflexivity.
  - cbn [in_order] in E. destruct step as [v|e]; [|discriminate E].
    cbn [bind] in E. destruct (in_order rest) as [vs'|e]; [|discriminate E].
    injection E as <-. cbn [length]. rewrite (IH vs' eq_refl). reflexivity.
Qed.

Lemma decodeArray_loop_in_order (n k : nat) (elementType : Z) (data : Buffer)
    (isBigEndian : bool) :
  decodeArray_loop decode n elementType data isBigEndian
      (4 + Z.of_nat k * size_of_code elementType)
    = in_order (map (element data isBigEndian elementType) (seq k n)).
Proof.
  revert k. induction n as [|n IH]; intros k; [reflexivity|].
  cbn [decodeArray_loop seq map in_order]. unfold element at 1, element_slice.
  cbv zeta.
  destruct (decode elementType _ isBigEndian) as [v|e]; [|reflexivity].
  cbn [bind].
  replace (4 + Z.of_nat k * size_of_code elementType + size_of_code elementType)
    with (4 + Z.of_nat (S k) * size_of_code elementType)
    by (rewrite Nat2Z.inj_succ; ring).
  rewrite IH. reflexivity.
Qed.

Lemma decodeStruct_loop_in_order (n k : nat) (data : Buffer) (isBigEndian : bool) :
  decodeStruct_loop decode n data isBigEndian (member_offset data k)
    = in_order (map (member data isBigEndian) (seq k n)).
Proof.
  revert k. induction n as [|n IH]; intros k; [reflexivity|].
  cbn [decodeStruct_loop seq map in_order]. unfold member at 1. cbv zeta.
  destruct (readUInt16BE data (Z.to_nat (member_offset data k)))
    as [memberType|e] eqn:R; [|reflexivity].
  cbn [bind].
  destruct (decode memberType _ isBigEndian) as [v|e]; [|reflexivity].
  cbn [bind].
  replace (member_offset data k + 2 + size_of_code memberType)
    with (member_offset data (S k))
    by (cbn [member_offset]; unfold type_at; rewrite R; reflexivity).
  rewrite IH. reflexivity.
Qed.

(** C3, amended. [decode] fails UnsupportedDataType for a type code that is
    not in the registry, at the top level and inside ARRAY and STRUCT
    alike, since elements and members are decoded by [decode] itself.  On
    an ARRAY buffer it reads a 16-bit big-endian element type, then a
    16-bit big-endian element count, and decodes that many elements: the
    call returns the elements number 0 to count - 1 in this order, each
    decoded as a value of the element type from its own bytes after the
    header, or fails as the first of them that fails; so with a count of 0
    it returns the empty array, and with a positive count and an
    unregistered element type it fails.  On a STRUCT buffer it reads a
    16-bit big-endian member count and returns, for the members number 0
    to count - 1 in this order, the type code read at the start of the
    member with the value decoded by [decode] from the bytes that follow
    it, or fails as the first of them that fails; so it fails when the
    first member's type is unregistered. *)
Theorem decode_unknown_type_fails (data : Buffer) (isBigEndian : bool) :
  (forall typeCode, ~ In typeCode registry_codes ->
     decode typeCode data isBigEndian = Throw (UnsupportedDataType typeCode)) /\
  (forall elementType elementCount,
     readUInt16BE data 0 = Ok elementType ->
     readUInt16BE data 2 = Ok elementCount ->
     decode (code ARRAY) data isBigEndian
       = (let* elements :=
            in_order (map (element data isBigEndian elementType)
                          (seq 0 (Z.to_nat elementCount))) in
          Ok (DArr elements)) /\
     (forall v, decode (code ARRAY) data isBigEndian = Ok v ->
        exists elements,
          v = DArr elements /\ length elements = Z.to_nat elementCount) /\
     (elementCount = 0 -> decode (code ARRAY) data isBigEndian = Ok (DArr [])) /\
     (0 < elementCount -> ~ In elementType registry_codes ->
        decode (code ARRAY) data isBigEndian
          = Throw (UnsupportedDataType elementType))) /\
  (forall memberCount,
     readUInt16BE data 0 = Ok memberCount ->
     decode (code STRUCT) data isBigEndian
       = (let* members :=
            in_order (map (member data isBigEndian)
                          (seq 0 (Z.to_nat memberCount))) in
          Ok (DArr members)) /\
     (forall v, decode (code STRUCT) data isBigEndian = Ok v ->
        exists members,
          v = DArr members /\ length members = Z.to_nat memberCount) /\
     (forall memberType,
        0 < memberCount -> readUInt16BE data 2 = Ok memberType ->
        ~ In memberType registry_codes ->
        decode (code STRUCT) data isBigEndian
          = Throw (UnsupportedDataType memberType))).
Proof.
  split; [intros typeCode N; apply decode_unknown; exact N|]. split.
  - intros elementType elementCount E0 E2.
    assert (Eq : decode (code ARRAY) data isBigEndian
                 = (let* elements :=
                      in_order (map (element data isBigEndian elementType)
                                    (seq 0 (Z.to_nat elementCount))) in
                    Ok (DArr elements))).
    { rewrite decode_ARRAY. unfold decodeArray. rewrite E0, E2. cbn [bind].
      pose proof (decodeArray_loop_in_order (Z.to_nat elementCount) 0 elementType
                    data isBigEndian) as L.
      change (4 + Z.of_nat 0 * size_of_code elementType) with 4 in L.
      rewrite L. reflexivity. }
    split; [exact Eq|]. rewrite Eq. split; [|split].
    + intros v E.
      destruct (in_order _) as [elements|e] eqn:O; [|discriminate E].
      injection E as <-. exists elements. split; [reflexivity|].
      rewrite (in_order_length _ _ O), length_map, length_seq. reflexivity.
    + intros ->. reflexivity.
    + intros P N. destruct (Z.to_nat elementCount) as [|k] eqn:K; [lia|].
      cbn [seq map in_order]. unfold element at 1.
      rewrite (decode_unknown _ _ _ N). reflexivity.
  - intros memberCount E0.
    assert (Eq : decode (code STRUCT) data isBigEndian
                 = (let* members :=
                      in_order (map (member data isBigEndian)
                                    (seq 0 (Z.to_nat memberCount))) in
                    Ok (DArr members))).
    { rewrite decode_STRUCT. unfold decodeStruct. rewrite E0. cbn [bind].
      pose proof (decodeStruct_loop_in_order (Z.to_nat memberCount) 0 data
                    isBigEndian) as L.
      cbn [member_offset] in L. rewrite L. reflexivity. }
    split; [exact Eq|]. rewrite Eq. split.
    + intros v E.
      destruct (in_order _) as [members|e] eqn:O; [|discriminate E].
      injection E as <-. exists members. split; [reflexivity|].
      rewrite (in_order_length _ _ O), length_map, length_seq. reflexivity.
    + intros memberType P E2 N.
      destruct (Z.to_nat memberCount) as [|k] eqn:K; [lia|].
      cbn [seq map in_order]. unfold member at 1. cbn [member_offset].
      change (Z.to_nat 2) with 2%nat. rewrite E2. cbn [bind].
      rewrite (decode_unknown _ _ _ N). reflexivity.
Qed.

(** C3, as stated, fails: an ARRAY of one element of the unregistered type
    0x1234 is not decoded to zero-length data, the call fails; likewise a
    STRUCT with one such member. *)
Lemma decode_unknown_element_fails :
  ~ In 0x1234 registry_codes /\
  decode (code ARRAY) [x12; x34; x00; x01] false = Throw (UnsupportedDataType 0x1234) /\
  decode (code STRUCT) [x00; x01; x12; x34] false = Throw (UnsupportedDataType 0x1234).
Proof.
  split; [|split; reflexivity].
  simpl. intros C. repeat (destruct C as [C|C]; [discriminate C|]). exact C.
Qed.

Lemma decode_unknown_type_fails_witness :
  ~ In 0x1234 registry_codes /\
  decode 0x1234 [x12; x34; x00; x02] true = Throw (UnsupportedDataType 0x1234) /\
  readUInt16BE [x12; x34; x00; x02] 0 = Ok 0x1234 /\
  readUInt16BE [x12; x34; x00; x02] 2 = Ok 2 /\
  decode (code ARRAY) [x12; x34; x00; x02] true = Throw (UnsupportedDataType 0x1234) /\
  decode (code ARRAY) [x12; x34; x00; x00] true = Ok (DArr []) /\
  decode (code STRUCT) [x00; x01; x12; x34] true = Throw (UnsupportedDataType 0x1234) /\
  (exists elements,
     decode (code ARRAY) [x00; xcb; x00; x03] true = Ok (DArr elements) /\
     length elements = 3%nat) /\
  (exists members,
     decode (code STRUCT) [x00; x02; x00; xcb; x00; xcb] true = Ok (DArr members) /\
     length members = 2%nat).
Proof.
  assert (N : ~ In 0x1234 registry_codes).
  { simpl. intros C. repeat (destruct C as [C|C]; [discriminate C|]). exact C. }
  assert (E0 : readUInt16BE [x12; x34; x00; x02] 0 = Ok 0x1234) by reflexivity.
  assert (E2 : readUInt16BE [x12; x34; x00; x02] 2 = Ok 2) by reflexivity.
  assert (Z0 : readUInt16BE [x12; x34; x00; x00] 0 = Ok 0x1234) by reflexivity.
  assert (Z2 : readUInt16BE [x12; x34; x00; x00] 2 = Ok 0) by reflexivity.
  assert (S0 : readUInt16BE [x00; x01; x12; x34] 0 = Ok 1) by reflexivity.
  assert (S2 : readUInt16BE [x00; x01; x12; x34] 2 = Ok 0x1234) by reflexivity.
  split; [exact N|].
  split; [|split; [exact E0|split; [exact E2|split; [|split; [|split; [|split]]]]]].
  - exact (proj1 (decode_unknown_type_fails [x12; x34; x00; x02] true) 0x1234 N).
  - apply (proj2 (proj2 (proj2 (proj1 (proj2
             (decode_unknown_type_fails [x12; x34; x00; x02] true)) _ _ E0 E2))));
      [lia | exact N].
  - exact (proj1 (proj2 (proj2 (proj1 (proj2
             (decode_unknown_type_fails [x12; x34; x00; x00] true)) _ _ Z0 Z2)))
             eq_refl).
  - apply (proj2 (proj2 (proj2 (proj2
             (decode_unknown_type_fails [x00; x01; x12; x34] true)) 1 S0))
             0x1234); [lia | exact S2 | exact N].
  - destruct (proj1 (proj2 (proj1 (proj2
               (decode_unknown_type_fails [x00; xcb; x00; x03] true))
               0xCB 3 eq_refl eq_refl))
               (DArr [DBuf []; DBuf []; DBuf []]) eq_refl)
      as [elements [E L]].
    exists elements. injection E as <-. split; [reflexivity|exact L].
  - destruct (proj1 (proj2 (proj2 (proj2
               (decode_unknown_type_fails [x00; x02; x00; xcb; x00; xcb] true))
               2 eq_refl))
               (DArr [DMember 0xCB (DBuf []); DMember 0xCB (DBuf [])]) eq_refl)
      as [members [E L]].
    exists members. injection E as <-. split; [reflexivity|exact L].
Defined.

(** The elements of an ARRAY are sliced with the size 0 whatever their
    type ([size_of_code_zero]): an array of one INT finds no bytes to
    read, an array of LREAL yields empty buffers. *)
Lemma decodeArray_elements_are_empty :
  decode (code ARRAY) [x00; xc3; x00; x01; x2a; x00] false = Throw RangeError /\
  decode (code ARRAY) [x00; xcb; x00; x02] false = Ok (DArr [DBuf []; DBuf []]).
Proof. split; reflexivity. Qed.

(** ** Attribute responses *)

Section AttributeResponse.
Context `{Host}.
Variable CIPErrorParser_parse : Z -> Z -> CIPError.t.

(** C1 (what the code does). The first statement of
    [parseAttributeResponse] reads [classId], an identifier that the module
    neither declares nor imports: whatever the response, the call ends
    there with a ReferenceError.  So does the call on the response
    [00 00 00 C1 01] (status 0, type BOOL, data 01), on a response of three
    bytes and on a string. *)
Theorem parseAttributeResponse_throws_ReferenceError :
  (forall response isBigEndian,
     parseAttributeResponse CIPErrorParser_parse no_globals response isBigEndian
       = Throw (ReferenceError "classId")) /\
  parseAttributeResponse CIPErrorParser_parse no_globals
      (IsBuffer [x00; x00; x00; xc1; x01]) false
    = Throw (ReferenceError "classId") /\
  parseAttributeResponse CIPErrorParser_parse no_globals
      (IsBuffer [x00; x01; x02]) false
    = Throw (ReferenceError "classId") /\
  parseAttributeResponse CIPErrorParser_parse no_globals
      (NotBuffer (VStr "not a buffer")) false
    = Throw (ReferenceError "classId").
Proof. repeat split. Qed.

(** Past its first statement, that is with a [classId] bound to something
    other than [CIP_CLASS_IDS.CONNECTION], the function does what the
    specification says. *)
Lemma parseAttributeResponse_past_guard (G : Globals) (classId : prim)
    (CIP_CLASS_IDS : list (string * Z)) (isBigEndian : bool) :
  g_classId G = Some classId -> g_CIP_CLASS_IDS G = Some CIP_CLASS_IDS ->
  strict_equal classId (get_property CIP_CLASS_IDS "CONNECTION") = false ->
  (forall v, parseAttributeResponse CIPErrorParser_parse G (NotBuffer v) isBigEndian
             = Throw ResponseNotBuffer) /\
  (forall response, (length response < 4)%nat ->
     parseAttributeResponse CIPErrorParser_parse G (IsBuffer response) isBigEndian
       = Throw (InvalidResponseLength (length response))) /\
  (forall b1 b2 b3 data,
     parseAttributeResponse CIPErrorParser_parse G
         (IsBuffer (x00 :: b1 :: b2 :: b3 :: data)) isBigEndian
       = match decode (be_value [b2; b3]) data isBigEndian with
         | Ok value => Ok (AttributeValue (be_value [b2; b3]) value)
         | Throw e => Throw (WithRawData e data)
         end).
Proof.
  intros Ec Ei Ne. unfold parseAttributeResponse. rewrite Ec, Ei. cbn [resolve bind].
  rewrite Ne. split; [reflexivity|]. split.
  - intros response L. apply Nat.ltb_lt in L. rewrite L. reflexivity.
  - intros b1 b2 b3 data.
    pose proof (slice_from_skipn (x00 :: b1 :: b2 :: b3 :: data) 4) as S.
    change (Z.of_nat 4) with 4 in S. rewrite !S. reflexivity.
Qed.

End AttributeResponse.

(** ** Encapsulation framing *)

Import CipClient. Import FramerSpec.

Lemma splice_length (b : Buffer) (off : nat) (bs : list byte) :
  (off + length bs <= length b)%nat -> length (splice b off bs) = length b.
Proof.
  intros L. unfold splice. rewrite !length_app, length_firstn, length_skipn. lia.
Qed.

(** A write of an integer in range, anywhere inside the buffer. *)
Lemma write_int_le (n : nat) (lo hi v : Z) (b : Buffer) (off : nat) :
  lo <= v <= hi -> (n <= 4)%nat -> (off + n <= length b)%nat ->
  write_int le_bytes n lo hi b (Fin (inject_Z v)) off
    = Ok (splice b off (le_bytes n v)).
Proof.
  intros R N L. unfold write_int. rewrite num_gtb_inject, num_ltb_inject.
  replace (hi <? v) with false by (symmetry; apply Z.ltb_ge; lia).
  replace (v <? lo) with false by (symmetry; apply Z.ltb_ge; lia).
  simpl orb. cbv iota.
  apply Nat.leb_le in L. rewrite L. rewrite to_uint_inject.
  change (2 ^ 32) with (256 ^ 4). rewrite le_bytes_mod by lia. reflexivity.
Qed.

Section Framing.
Context `{Host}.

Lemma buildEncapMessage_header (params : ConnectionParams) (command handle : Z)
    (c0 c1 c2 c3 c4 c5 c6 c7 : byte) (data : Buffer) :
  0 <= connection_bits params <= 65535 ->
  0 <= command <= 65535 ->
  Z.of_nat (length data) <= 65535 ->
  0 <= handle <= 4294967295 ->
  buildEncapMessage
      {| sessionHandle := num handle;
         senderContext := [c0; c1; c2; c3; c4; c5; c6; c7];
         connectionParams := params |} (num command) data
    = Ok ((le_bytes 2 command ++ le_bytes 2 (Z.of_nat (length data))
           ++ le_bytes 4 handle ++ le_bytes 4 0
           ++ [c0; c1; c2; c3; c4; c5; c6; c7] ++ alloc 4) ++ data).
Proof.
  intros Rb Rc Rl Rh. unfold buildEncapMessage.
  cbn [connectionParams sessionHandle senderContext].
  fold (connection_bits params).
  unfold writeUInt16LE, writeUInt32LE.
  change (ToNumber (num command)) with (Fin (inject_Z command)).
  change (ToNumber (num handle)) with (Fin (inject_Z handle)).
  change (Fin 0) with (Fin (inject_Z 0)).
  rewrite (write_int_le 2 0 65535 (connection_bits params)) by (simpl; lia).
  cbn [bind].
  rewrite (write_int_le 2 0 65535 command) by (simpl; lia).
  cbn [bind].
  rewrite (write_int_le 2 0 65535 (Z.of_nat (length data))) by (simpl; lia).
  cbn [bind].
  rewrite (write_int_le 4 0 4294967295 handle) by (simpl; lia).
  cbn [bind].
  rewrite (write_int_le 4 0 4294967295 0) by (simpl; lia).
  cbn [bind].
  reflexivity.
Qed.

Lemma bytes_at_app (pre bs post : list byte) (off n : nat) :
  off = length pre -> n = length bs -> bytes_at (pre ++ bs ++ post) off n = Ok bs.
Proof.
  intros -> ->. unfold bytes_at.
  replace (length pre + length bs <=? length (pre ++ bs ++ post))%nat with true
    by (symmetry; apply Nat.leb_le; rewrite !length_app; lia).
  rewrite skipn_app, Nat.sub_diag, skipn_all, skipn_O, app_nil_l.
  rewrite firstn_app, Nat.sub_diag, firstn_all, firstn_O, app_nil_r.
  reflexivity.
Qed.

Lemma bytes_at_prefix (bs post : list byte) (n : nat) :
  n = length bs -> bytes_at (bs ++ post) 0 n = Ok bs.
Proof. intros E. exact (bytes_at_app [] bs post 0 n eq_refl E). Qed.

(** C8. For a command and a payload length of 16 bits, a session handle of
    32 bits and a sender context of 8 bytes, [buildEncapMessage] returns a
    24-byte header followed by the payload, and the header read back at
    the documented offsets yields the command (u16 little-endian at 0),
    the byte length of the payload (u16 at 2), the session handle (u32 at
    4), the status 0 (u32 at 8) and the sender context (bytes 12 to 19). *)
Theorem buildEncapMessage_readback (params : ConnectionParams) (command handle : Z)
    (senderContext data : Buffer) :
  0 <= connection_bits params <= 65535 ->
  0 <= command <= 65535 ->
  Z.of_nat (length data) <= 65535 ->
  0 <= handle <= 4294967295 ->
  length senderContext = 8%nat ->
  exists header,
    buildEncapMessage
        {| sessionHandle := num handle; CipClient.senderContext := senderContext;
           connectionParams := params |} (num command) data
      = Ok (header ++ data) /\
    length header = 24%nat /\
    readUInt16LE header 0 = Ok command /\
    readUInt16LE header 2 = Ok (Z.of_nat (length data)) /\
    readUInt32LE header 4 = Ok handle /\
    readUInt32LE header 8 = Ok 0 /\
    slice header 12 20 = senderContext.
Proof.
  intros Rb Rc Rl Rh Lc.
  destruct senderContext as [|c0 [|c1 [|c2 [|c3 [|c4 [|c5 [|c6 [|c7 [|c8 rest]]]]]]]]];
    try discriminate Lc.
  eexists. split; [apply buildEncapMessage_header; assumption|].
  split; [reflexivity|].
  split.
  { unfold readUInt16LE. rewrite bytes_at_prefix by reflexivity. cbn [bind].
    rewrite le_value_le_bytes. rewrite Z.mod_small by (simpl; lia). reflexivity. }
  split.
  { unfold readUInt16LE.
    rewrite (bytes_at_app (le_bytes 2 command)) by reflexivity. cbn [bind].
    rewrite le_value_le_bytes. rewrite Z.mod_small by (simpl; lia). reflexivity. }
  split.
  { unfold readUInt32LE.
    rewrite (app_assoc (le_bytes 2 command)).
    rewrite (bytes_at_app (le_bytes 2 command ++ le_bytes 2 (Z.of_nat (length data))))
      by reflexivity.
    cbn [bind].
    rewrite le_value_le_bytes. rewrite Z.mod_small by (simpl; lia). reflexivity. }
  split; reflexivity.
Qed.

(** A command that does not fit 16 bits is refused, not wrapped. *)
Lemma buildEncapMessage_command_out_of_range (this : CIPClient) (command : Z)
    (data : Buffer) :
  0 <= connection_bits (connectionParams this) <= 65535 ->
  command < 0 \/ 65535 < command ->
  buildEncapMessage this (num command) data = Throw RangeError.
Proof.
  intros Rb Rc. unfold buildEncapMessage.
  fold (connection_bits (connectionParams this)).
  unfold writeUInt16LE.
  rewrite (write_int_le 2 0 65535 (connection_bits (connectionParams this)))
    by (simpl; lia).
  cbn [bind]. change (ToNumber (num command)) with (Fin (inject_Z command)).
  unfold write_int at 1. rewrite num_gtb_inject, num_ltb_inject.
  destruct (Z.ltb_spec 65535 command); [reflexivity|].
  destruct (Z.ltb_spec command 0); [reflexivity|lia].
Qed.

End Framing.

Lemma buildEncapMessage_readback_witness :
  exists header,
    @buildEncapMessage any_host
        {| sessionHandle := num 0x12345678;
           senderContext := [x41; x42; x43; x44; x45; x46; x47; x48];
           connectionParams := connectionParams new_CIPClient |}
        (num 0x0065) [x54; x65; x73; x74]
      = Ok (header ++ [x54; x65; x73; x74]) /\
    length header = 24%nat /\
    readUInt16LE header 0 = Ok 0x0065 /\
    readUInt16LE header 2 = Ok 4 /\
    readUInt32LE header 4 = Ok 0x12345678 /\
    readUInt32LE header 8 = Ok 0 /\
    slice header 12 20 = [x41; x42; x43; x44; x45; x46; x47; x48].
Proof.
  apply (@buildEncapMessage_readback any_host (connectionParams new_CIPClient)
           0x0065 0x12345678 [x41; x42; x43; x44; x45; x46; x47; x48]
           [x54; x65; x73; x74]).
  - vm_compute. split; discriminate.
  - lia.
  - simpl. lia.
  - lia.
  - reflexivity.
Defined.

(** ** The secure session *)

Import SecureCipClient. Import SessionSpec. Import SessionRuns.

Lemma slice_prefix (b : Buffer) (n : nat) : slice b 0 (Z.of_nat n) = firstn n b.
Proof.
  unfold slice. rewrite !clamp_index_nonneg by lia.
  rewrite (Z.min_l 0) by lia. change (Z.to_nat 0) with 0%nat.
  rewrite skipn_O, Nat.sub_0_r.
  destruct (Nat.le_gt_cases n (length b)) as [L|L].
  - rewrite Z.min_l by lia. rewrite Nat2Z.id. reflexivity.
  - rewrite Z.min_r by lia. rewrite Nat2Z.id.
    rewrite firstn_all, firstn_all2 by lia. reflexivity.
Qed.

(** Reading the word at 4 from the slice of bytes 4 to 8 is reading it
    from the buffer. *)
Lemma readUInt32LE_slice_4_8 (b : Buffer) :
  (8 <= length b)%nat -> readUInt32LE (slice b 4 8) 0 = readUInt32LE b 4.
Proof.
  intros L. unfold readUInt32LE, bytes_at, slice.
  rewrite !clamp_index_nonneg by lia. rewrite !Z.min_l by lia.
  change (Z.to_nat 8 - Z.to_nat 4)%nat with 4%nat. change (Z.to_nat 4) with 4%nat.
  rewrite length_firstn, length_skipn.
  replace (0 + 4 <=? Nat.min 4 (length b - 4))%nat with true
    by (symmetry; apply Nat.leb_le; lia).
  replace (4 + 4 <=? length b)%nat with true by (symmetry; apply Nat.leb_le; lia).
  rewrite skipn_O, firstn_firstn. reflexivity.
Qed.

(** A sequence of two steps that returns: both steps returned. *)
Lemma bindM_Ok {A B : Type} (m : M A) (k : A -> M B) (w w' : World) (b : B) :
  (m ≫= k) w = (Ok b, w') ->
  exists a w1, m w = (Ok a, w1) /\ k a w1 = (Ok b, w').
Proof.
  unfold mbind, M_bind, bindM. destruct (m w) as [[a|e] w1]; intros E.
  - exists a, w1. split; [reflexivity|exact E].
  - discriminate E.
Qed.

(** A sequence of two steps, whatever its outcome: the first step threw,
    or it returned and the second step ran. *)
Lemma bindM_inv {A B : Type} (m : M A) (k : A -> M B) (w w' : World) (r : result B) :
  (m ≫= k) w = (r, w') ->
  (exists e, m w = (Throw e, w') /\ r = Throw e) \/
  (exists a w1, m w = (Ok a, w1) /\ k a w1 = (r, w')).
Proof.
  unfold mbind, M_bind, bindM. destruct (m w) as [[a|e] w1]; intros E.
  - right. exists a, w1. split; [reflexivity|exact E].
  - left. injection E as <- <-. exists e. split; reflexivity.
Qed.

Ltac step_Ok E :=
  let a := fresh "a" in let w1 := fresh "w" in let E1 := fresh "E" in
  apply bindM_Ok in E; destruct E as [a [w1 [E1 E]]].

Lemma validateSessionResponse_Ok (response : Buffer) (w w' : World) :
  validateSessionResponse response w = (Ok tt, w') ->
  w' = w /\ (8 <= length response)%nat /\ readUInt32LE response 4 = Ok 0.
Proof.
  unfold validateSessionResponse.
  destruct (Nat.ltb_spec (length response) 8) as [L|L]; [discriminate|].
  intros E. step_Ok E. unfold lift in E0. injection E0 as E0 <-.
  destruct (Z.eqb_spec a ENCAPSULATION_PROTOCOL.STATUS.SUCCESS) as [->|N];
    simpl in E; [|discriminate].
  injection E as <-. repeat split; assumption.
Qed.

(** *** The counter *)

Lemma double_of_Z_exact (z : Z) : Z.abs z <= 2 ^ 53 -> double_of_Z z = z.
Proof.
  intros R. unfold double_of_Z. cbv zeta. apply Z.leb_le in R. rewrite R.
  reflexivity.
Qed.

(** Below [2^53] the increment is exact. *)
Lemma increment_exact (n : Z) : - 2 ^ 53 - 1 <= n < 2 ^ 53 -> increment n = n + 1.
Proof. intros R. unfold increment. apply double_of_Z_exact. lia. Qed.

Lemma double_of_Z_large (z : Z) : 2 ^ 53 < z -> 2 ^ 53 <= double_of_Z z.
Proof.
  intros L. unfold double_of_Z. cbv zeta.
  rewrite (Z.abs_eq z) by lia.
  replace (z <=? 2 ^ 53) with false by (symmetry; apply Z.leb_gt; exact L).
  rewrite (Z.sgn_pos z) by lia. rewrite Z.mul_1_l.
  assert (Lg : 53 <= Z.log2 z) by (apply Z.log2_le_pow2; lia).
  pose proof (Z.log2_spec z ltac:(lia)) as [Lo _].
  set (e := Z.log2 z - 52) in *.
  assert (Pe : 2 <= 2 ^ e).
  { change 2 with (2 ^ 1) at 1. apply Z.pow_le_mono_r; lia. }
  assert (Sp : 2 ^ Z.log2 z = 2 ^ e * 2 ^ 52).
  { rewrite <- Z.pow_add_r by lia. f_equal. lia. }
  assert (Q : 2 ^ 52 <= z / 2 ^ e).
  { apply Z.div_le_lower_bound; lia. }
  assert (Q' : z / 2 ^ e
               <= (if (2 ^ (e - 1) <? z mod 2 ^ e)
                      || ((z mod 2 ^ e =? 2 ^ (e - 1)) && Z.odd (z / 2 ^ e))
                   then z / 2 ^ e + 1 else z / 2 ^ e))
    by (destruct (_ || _); lia).
  nia.
Qed.

(** From [2^32 - 1] on, the incremented counter no longer fits 32 bits. *)
Lemma increment_past_32_bits (n : Z) : 4294967295 <= n -> 4294967295 < increment n.
Proof.
  intros L. unfold increment.
  destruct (Z.le_gt_cases (n + 1) (2 ^ 53)) as [S|S].
  - rewrite double_of_Z_exact by lia. lia.
  - pose proof (double_of_Z_large (n + 1) S). lia.
Qed.

Section SecureSession.
Variable hmac_sha256 : Buffer -> Buffer -> Buffer.
Variable members : Members.

Lemma buildRegistrationPacket_state (w w' : World) (r : result Buffer) :
  buildRegistrationPacket w = (r, w') -> w' = w.
Proof.
  unfold buildRegistrationPacket, mbind, M_bind, bindM, get_this, lift, mret.
  repeat (match goal with
          | |- context [match ?x with Ok _ => _ | Throw _ => _ end] => destruct x
          end); intros E; injection E as _ <-; reflexivity.
Qed.

(** The registration packet is built whatever the client is. *)
Lemma buildRegistrationPacket_returns (w : World) :
  exists packet, buildRegistrationPacket w = (Ok packet, w).
Proof. eexists. reflexivity. Qed.

(** A reply that [receiveWithValidation] returns has come through the
    [receive] that the object carries, and has passed the three checks. *)
Lemma receiveWithValidation_Ok (w w' : World) (payload : Buffer) :
  receiveWithValidation hmac_sha256 members w = (Ok payload, w') ->
  exists transport chunk s',
    receive_member members = Some transport /\
    transport (socket w) = (Ok chunk, s') /\
    w' = {| this := this w; socket := s' |} /\
    (24 <= length chunk)%nat /\
    readUInt32LE chunk 4 = Ok (sessionHandle (this w)) /\
    payload = slice chunk 24 (-12) /\
    slice (hmac_sha256 (sessionNonce (this w)) payload) 0 8 = slice_from chunk (-8).
Proof.
  unfold receiveWithValidation. intros E. step_Ok E.
  unfold receive in E0.
  destruct (receive_member members) as [transport|]; [|discriminate E0].
  destruct (transport (socket w)) as [r s'] eqn:T.
  injection E0 as -> <-. exists transport, a, s'.
  split; [reflexivity|]. split; [exact T|].
  destruct (Nat.ltb_spec (length a) 24) as [L|L]; [discriminate|].
  step_Ok E. unfold lift in E0. injection E0 as E0 <-.
  step_Ok E. unfold get_this in E1. injection E1 as <- <-. cbn [this] in E.
  destruct (Z.eqb_spec a0 (sessionHandle (this w))) as [->|N]; simpl in E;
    [|discriminate].
  step_Ok E. unfold calculateMac in E1. step_Ok E1. unfold get_this in E2.
  injection E2 as <- <-. injection E1 as <- <-. cbn [this] in E.
  unfold equals in E. destruct (bool_decide _) eqn:D; simpl in E; [|discriminate].
  apply bool_decide_eq_true in D. injection E as <- <-.
  repeat split; try assumption; reflexivity.
Qed.

(** A handshake that returns leaves the handle 0, the session active and
    the counter 0. *)
Lemma establishSecureSession_Ok (w w' : World) :
  establishSecureSession hmac_sha256 members w = (Ok tt, w') ->
  sessionHandle (this w') = 0 /\
  sessionActive (this w') = true /\
  sequenceNumber (securityContext (this w')) = 0.
Proof.
  unfold establishSecureSession. intros E.
  step_Ok E. unfold get_this in E0. injection E0 as <- <-.
  destruct (sessionActive (this w)); [discriminate|].
  step_Ok E. apply buildRegistrationPacket_state in E0. subst w0.
  step_Ok E. clear E0.
  step_Ok E. apply receiveWithValidation_Ok in E0.
  destruct E0 as [transport [chunk [s' [_ [_ [-> _]]]]]].
  step_Ok E. destruct a2. apply validateSessionResponse_Ok in E0.
  destruct E0 as [-> [L S]].
  step_Ok E. unfold lift in E0. injection E0 as E0 <-.
  rewrite (readUInt32LE_slice_4_8 _ L), S in E0. injection E0 as <-.
  step_Ok E. unfold set_this in E0. injection E0 as _ <-.
  step_Ok E. unfold set_this in E0. injection E0 as _ <-.
  unfold set_this in E. injection E as <-. cbn.
  repeat split.
Qed.

End SecureSession.

(** *** What the methods leave of the client *)

Section Respects.
Variable R : SecureCIPClient -> SecureCIPClient -> Prop.
Hypothesis R_refl : forall c, R c c.
Hypothesis R_trans : forall a b c, R a b -> R b c -> R a c.
Variable members : Members.

Lemma respects_bind {A B : Type} (m : M A) (k : A -> M B) :
  respects R m -> (forall a, respects R (k a)) -> respects R (m ≫= k).
Proof.
  intros Hm Hk w r w' E. apply bindM_inv in E.
  destruct E as [[e [E _]]|[a [w1 [E1 E2]]]].
  - exact (Hm _ _ _ E).
  - exact (R_trans _ _ _ (Hm _ _ _ E1) (Hk a _ _ _ E2)).
Qed.

Lemma respects_ret {A : Type} (a : A) : respects R (ret a).
Proof. intros w r w' E. injection E as _ <-. apply R_refl. Qed.

Lemma respects_mret {A : Type} (a : A) : respects R (mret a : M A).
Proof. apply respects_ret. Qed.

Lemma respects_throw {A : Type} (e : error) : respects R (throw e : M A).
Proof. intros w r w' E. injection E as _ <-. apply R_refl. Qed.

Lemma respects_lift {A : Type} (x : result A) : respects R (lift x).
Proof. intros w r w' E. injection E as _ <-. apply R_refl. Qed.

Lemma respects_get_this : respects R get_this.
Proof. intros w r w' E. injection E as _ <-. apply R_refl. Qed.

Lemma respects_send (data : Buffer) : respects R (send members data).
Proof.
  intros w r w' E. unfold send in E.
  destruct (send_member members) as [transport|].
  - destruct (transport data (socket w)) as [x s]. injection E as _ <-.
    apply R_refl.
  - injection E as _ <-. apply R_refl.
Qed.

Lemma respects_receive : respects R (receive members).
Proof.
  intros w r w' E. unfold receive in E.
  destruct (receive_member members) as [transport|].
  - destruct (transport (socket w)) as [x s]. injection E as _ <-.
    apply R_refl.
  - injection E as _ <-. apply R_refl.
Qed.

Lemma respects_buildEncapHeader : respects R (buildEncapHeader members).
Proof.
  intros w r w' E. unfold buildEncapHeader in E.
  destruct (buildEncapHeader_member members); injection E as _ <-; apply R_refl.
Qed.

Lemma respects_set_this (f : SecureCIPClient -> SecureCIPClient) :
  (forall c, R c (f c)) -> respects R (set_this f).
Proof. intros Hf w r w' E. injection E as _ <-. apply Hf. Qed.

Lemma respects_if {A : Type} (b : bool) (m1 m2 : M A) :
  respects R m1 -> respects R m2 -> respects R (if b then m1 else m2).
Proof. destruct b; trivial. Qed.
End Respects.

Ltac respects_steps :=
  repeat first
    [ apply respects_bind; [assumption| |intros ?]
    | apply respects_if
    | apply respects_mret; assumption
    | apply respects_ret; assumption
    | apply respects_throw; assumption
    | apply respects_lift; assumption
    | apply respects_get_this; assumption
    | apply respects_send; assumption
    | apply respects_receive; assumption
    | apply respects_buildEncapHeader; assumption ].

Section MethodsAndTheClient.
Variable hmac_sha256 : Buffer -> Buffer -> Buffer.
Variable members : Members.

Lemma buildRegistrationPacket_this : respects eq buildRegistrationPacket.
Proof.
  assert (Rf : forall c : SecureCIPClient, c = c) by reflexivity.
  assert (Rt : forall a b c : SecureCIPClient, a = b -> b = c -> a = c)
    by (intros; congruence).
  unfold buildRegistrationPacket. respects_steps.
Qed.

Lemma validateSessionResponse_this (response : Buffer) :
  respects eq (validateSessionResponse response).
Proof.
  assert (Rf : forall c : SecureCIPClient, c = c) by reflexivity.
  assert (Rt : forall a b c : SecureCIPClient, a = b -> b = c -> a = c)
    by (intros; congruence).
  unfold validateSessionResponse. respects_steps.
Qed.

Lemma receiveWithValidation_this :
  respects eq (receiveWithValidation hmac_sha256 members).
Proof.
  assert (Rf : forall c : SecureCIPClient, c = c) by reflexivity.
  assert (Rt : forall a b c : SecureCIPClient, a = b -> b = c -> a = c)
    by (intros; congruence).
  unfold receiveWithValidation, calculateMac. respects_steps.
Qed.

Lemma sendSecureData_handle (data : Buffer) (now : Z) :
  respects same_handle (sendSecureData hmac_sha256 members data now).
Proof.
  assert (Rf : forall c, same_handle c c) by reflexivity.
  assert (Rt : forall a b c, same_handle a b -> same_handle b c -> same_handle a c)
    by (unfold same_handle; intros; congruence).
  unfold sendSecureData. respects_steps;
    apply respects_set_this; reflexivity.
Qed.

(** [establishSecureSession] either returns, or throws and leaves the
    client as it was. *)
Lemma establishSecureSession_outcome (w w' : World) (r : result unit) :
  establishSecureSession hmac_sha256 members w = (r, w') ->
  r = Ok tt \/ this w' = this w.
Proof.
  assert (Rf : forall c : SecureCIPClient, c = c) by reflexivity.
  assert (Rt : forall a b c : SecureCIPClient, a = b -> b = c -> a = c)
    by (intros; congruence).
  unfold establishSecureSession. intros E.
  apply bindM_inv in E. destruct E as [[e [E _]]|[c [w1 [E1 E]]]];
    [injection E as _ <-; right; reflexivity|].
  injection E1 as <- <-.
  destruct (sessionActive (this w)); [injection E as _ <-; right; reflexivity|].
  apply bindM_inv in E. destruct E as [[e [E _]]|[p [w1 [E1 E]]]];
    [right; symmetry; exact (buildRegistrationPacket_this _ _ _ E)|].
  pose proof (buildRegistrationPacket_this _ _ _ E1) as T1.
  apply bindM_inv in E. destruct E as [[e [E _]]|[u [w2 [E2 E]]]];
    [right; rewrite T1; symmetry;
     exact (respects_send eq Rf members p _ _ _ E)|].
  pose proof (respects_send eq Rf members p _ _ _ E2) as T2.
  apply bindM_inv in E. destruct E as [[e [E _]]|[response [w3 [E3 E]]]];
    [right; rewrite T1, T2; symmetry; exact (receiveWithValidation_this _ _ _ E)|].
  pose proof (receiveWithValidation_this _ _ _ E3) as T3.
  apply bindM_inv in E. destruct E as [[e [E _]]|[u' [w4 [E4 E]]]];
    [right; rewrite T1, T2, T3; symmetry;
     exact (validateSessionResponse_this _ _ _ _ E)|].
  pose proof (validateSessionResponse_this _ _ _ _ E4) as T4.
  apply bindM_inv in E. destruct E as [[e [E _]]|[handle [w5 [E5 E]]]];
    [injection E as _ <-; right; congruence|].
  left.
  unfold mbind, M_bind, bindM, set_this in E. injection E as <- _. reflexivity.
Qed.

Lemma establishSecureSession_keeps_zero (w : World) :
  sessionHandle (this w) = 0 ->
  sessionHandle (this (snd (establishSecureSession hmac_sha256 members w))) = 0.
Proof.
  intros Z0.
  destruct (establishSecureSession hmac_sha256 members w) as [r w'] eqn:E. cbn [snd].
  destruct (establishSecureSession_outcome _ _ _ E) as [->|T].
  - exact (proj1 (establishSecureSession_Ok hmac_sha256 members w w' E)).
  - rewrite T. exact Z0.
Qed.

(** The session handle is 0 in every world a new client can reach. *)
Lemma reachable_handle_zero (w : World) :
  reachable hmac_sha256 members w -> sessionHandle (this w) = 0.
Proof.
  induction 1 as [nonce now|e w Hw IH]; [reflexivity|].
  destruct e as [|data now| |chunk|v]; cbn [after].
  - apply establishSecureSession_keeps_zero. exact IH.
  - destruct (sendSecureData _ _ _ _ w) as [r w'] eqn:E. cbn [snd].
    rewrite (sendSecureData_handle _ _ _ _ _ E). exact IH.
  - destruct (receiveWithValidation _ _ w) as [r w'] eqn:E. cbn [snd].
    rewrite <- (receiveWithValidation_this _ _ _ E). exact IH.
  - exact IH.
  - exact IH.
Qed.

End MethodsAndTheClient.

Section TheHandshake.
Variable hmac_sha256 : Buffer -> Buffer -> Buffer.

(** On an object of the class as it is, the handshake stops at
    [this.send]: the registration packet is built and never written. *)
Lemma establishSecureSession_as_shipped (w : World) :
  establishSecureSession hmac_sha256 as_shipped w
    = (if sessionActive (this w) then Throw SessionAlreadyActive
       else Throw (TypeError "this.send is not a function"), w).
Proof.
  unfold establishSecureSession, mbind, M_bind, bindM, get_this.
  destruct (sessionActive (this w)); [destruct w; reflexivity|].
  destruct (buildRegistrationPacket_returns w) as [packet ->].
  unfold send. cbn [send_member as_shipped]. reflexivity.
Qed.

(** C10. Whenever [establishSecureSession] returns, whatever the object
    carries as [send] and [receive], the session handle it has extracted
    is 0: the word at offset 4 of the validated payload had to be 0, and
    the handle is read from the same bytes 4 to 8; the session is then
    active.  As the constructor sets the handle to 0 and nothing else
    writes it, the handle is 0 in every state that a client reaches, so an
    active session has the handle 0, and [receiveWithValidation] accepts a
    reply, which it has from the [receive] of the object, only if the word
    at its offset 4 is 0.  On an object of the class as it is, which has
    no [send], no reply is ever accepted: the handshake fails, with
    SessionAlreadyActive or at [this.send], and changes nothing. *)
Theorem establishSecureSession_handle_zero :
  (forall members w w',
     establishSecureSession hmac_sha256 members w = (Ok tt, w') ->
     sessionHandle (this w') = 0 /\ sessionActive (this w') = true) /\
  (forall members w,
     reachable hmac_sha256 members w -> sessionHandle (this w) = 0) /\
  (forall members w payload w',
     reachable hmac_sha256 members w ->
     receiveWithValidation hmac_sha256 members w = (Ok payload, w') ->
     exists transport chunk s',
       receive_member members = Some transport /\
       transport (socket w) = (Ok chunk, s') /\
       readUInt32LE chunk 4 = Ok 0) /\
  (forall w,
     establishSecureSession hmac_sha256 as_shipped w
       = (Throw SessionAlreadyActive, w) \/
     establishSecureSession hmac_sha256 as_shipped w
       = (Throw (TypeError "this.send is not a function"), w)).
Proof.
  split; [|split; [|split]].
  - intros members w w' E.
    destruct (establishSecureSession_Ok hmac_sha256 members w w' E) as [Hh [Ha _]].
    split; assumption.
  - exact (reachable_handle_zero hmac_sha256).
  - intros members w payload w' Hr E.
    apply receiveWithValidation_Ok in E.
    destruct E as [transport [chunk [s' [M [T [_ [_ [Hd _]]]]]]]].
    exists transport, chunk, s'. split; [exact M|]. split; [exact T|].
    rewrite (reachable_handle_zero hmac_sha256 members w Hr) in Hd. exact Hd.
  - intros w. rewrite establishSecureSession_as_shipped.
    destruct (sessionActive (this w)); [left|right]; reflexivity.
Qed.

End TheHandshake.

Section SendSecureData.
Variable hmac_sha256 : Buffer -> Buffer -> Buffer.

Lemma writeUInt32LE_fresh (n : Z) :
  0 <= n <= 4294967295 ->
  writeUInt32LE (alloc 4) (Fin (inject_Z n)) 0 = Ok (le_bytes 4 n).
Proof.
  intros R. unfold writeUInt32LE.
  rewrite (write_int_alloc le_bytes 4) by (try apply le_bytes_length; lia).
  change (2 ^ 32) with (256 ^ 4). rewrite le_bytes_mod by lia. reflexivity.
Qed.

(** The two guards, whatever the object carries. *)
Lemma sendSecureData_guards (members : Members) (w : World) (data : Buffer) (now : Z) :
  (point_to_point (this w) = false ->
   sendSecureData hmac_sha256 members data now w = (Throw NotPointToPoint, w)) /\
  (point_to_point (this w) = true -> sessionActive (this w) = false ->
   sendSecureData hmac_sha256 members data now w = (Throw SessionNotActive, w)).
Proof.
  unfold point_to_point. split.
  - intros P. unfold sendSecureData, mbind, M_bind, bindM, get_this.
    rewrite P. destruct w; reflexivity.
  - intros P A. unfold sendSecureData, mbind, M_bind, bindM, get_this.
    rewrite P, A. destruct w; reflexivity.
Qed.

(** Past the guards, on an object without a [buildEncapHeader]: the
    counter is incremented and written, the MAC is computed, and the call
    stops where the packet is put together. *)
Lemma sendSecureData_no_header (members : Members) (w : World) (data : Buffer)
    (now : Z) :
  buildEncapHeader_member members = None ->
  point_to_point (this w) = true -> sessionActive (this w) = true ->
  0 <= sequenceNumber (securityContext (this w)) + 1 <= 4294967295 ->
  sendSecureData hmac_sha256 members data now w
    = (Throw (TypeError "this.buildEncapHeader is not a function"),
       {| this := set_sequenceNumber
                    (sequenceNumber (securityContext (this w)) + 1) (this w);
          socket := socket w |}).
Proof.
  intros Hm P A R. unfold point_to_point in P.
  unfold sendSecureData, mbind, M_bind, bindM, get_this. rewrite P, A.
  cbn [negb]. cbv iota. unfold set_this, lift.
  rewrite increment_exact by lia.
  rewrite (writeUInt32LE_fresh _ R). cbn [this socket].
  unfold buildEncapHeader. rewrite Hm. reflexivity.
Qed.

(** Past the guards, on an object that has been given a [buildEncapHeader]
    and the [send] of [CIPClient]: the method does what its comments
    say. *)
Lemma sendSecureData_equipped (members : Members) (header : SecureCIPClient -> Buffer)
    (w : World) (data : Buffer) (now : Z) :
  buildEncapHeader_member members = Some header ->
  send_member members = Some CipClient.send ->
  point_to_point (this w) = true -> sessionActive (this w) = true ->
  let n := sequenceNumber (securityContext (this w)) + 1 in
  let c := set_sequenceNumber n (this w) in
  0 <= n <= 4294967295 ->
  sendSecureData hmac_sha256 members data now w
    = (Ok tt,
       {| this := set_lastActivity now c;
          socket :=
            {| CipClient.written :=
                 CipClient.written (socket w)
                 ++ [header c ++ data ++ le_bytes 4 n
                     ++ firstn 8 (hmac_sha256 (sessionNonce (this w))
                                    (data ++ le_bytes 4 n))];
               CipClient.inbound := CipClient.inbound (socket w) |} |}).
Proof.
  intros Hm Sm P A n c R. unfold point_to_point in P.
  unfold sendSecureData, mbind, M_bind, bindM, get_this. rewrite P, A.
  cbn [negb]. cbv iota. unfold set_this, lift.
  rewrite increment_exact by (unfold n in R; lia). fold n.
  rewrite (writeUInt32LE_fresh n R). cbn [this socket]. fold c.
  unfold buildEncapHeader. rewrite Hm. cbn [this socket].
  unfold send. rewrite Sm. unfold CipClient.send. cbn [this socket].
  pose proof (slice_prefix (hmac_sha256 (sessionNonce c) (data ++ le_bytes 4 n)) 8)
    as S.
  change (Z.of_nat 8) with 8 in S. rewrite S. reflexivity.
Qed.

(** C6 (what the code does). [sendSecureData(data)] fails NotPointToPoint
    unless the connection type is point-to-point, and SessionNotActive
    unless the session is active, leaving the client as it was.  Past the
    two guards it never transmits: it increments the sequence counter,
    writes it, computes the MAC, and then calls [this.buildEncapHeader],
    which no class defines; the call ends there with a TypeError, the
    counter incremented and nothing written to the socket.  So it does on
    an object of the class as it is, and on one that has been given the
    [send] and [receive] of [CIPClient], which has no [buildEncapHeader]
    either. *)
Theorem sendSecureData_never_sends (w : World) (data : Buffer) (now : Z) :
  let c := this w in
  let n := sequenceNumber (securityContext c) + 1 in
  (point_to_point c = false ->
     sendSecureData hmac_sha256 as_shipped data now w
       = (Throw NotPointToPoint, w)) /\
  (point_to_point c = true -> sessionActive c = false ->
     sendSecureData hmac_sha256 as_shipped data now w
       = (Throw SessionNotActive, w)) /\
  (point_to_point c = true -> sessionActive c = true ->
   0 <= n <= 4294967295 ->
     sendSecureData hmac_sha256 as_shipped data now w
       = (Throw (TypeError "this.buildEncapHeader is not a function"),
          {| this := set_sequenceNumber n c; socket := socket w |}) /\
     sendSecureData hmac_sha256 (with_transport None) data now w
       = (Throw (TypeError "this.buildEncapHeader is not a function"),
          {| this := set_sequenceNumber n c; socket := socket w |})).
Proof.
  intros c n. split; [|split].
  - exact (proj1 (sendSecureData_guards as_shipped w data now)).
  - exact (proj2 (sendSecureData_guards as_shipped w data now)).
  - intros P A R. split; apply sendSecureData_no_header;
      first [reflexivity | assumption].
Qed.

End SendSecureData.

(** A digest function of the right length, for the closed examples below;
    they do not depend on the digest being that of HMAC-SHA-256. *)
Lemma sendSecureData_never_sends_witness :
  let hmac := fun (_ _ : Buffer) => repeat x00 32 in
  let c := {| sessionNonce := repeat x07 16; sessionHandle := 0;
              sessionActive := true;
              securityContext := {| lastActivity := 0; sequenceNumber := 41 |};
              connectionType := num 0x4000 |} in
  let sock := {| CipClient.written := []; CipClient.inbound := [] |} in
  let w := {| this := c; socket := sock |} in
  let idle := {| this := set_sessionActive false c; socket := sock |} in
  let fresh := {| this := new_SecureCIPClient (repeat x07 16) 0; socket := sock |} in
  (fst (sendSecureData hmac as_shipped [x01; x02] 99 w)
     = Throw (TypeError "this.buildEncapHeader is not a function") /\
   CipClient.written (socket (snd (sendSecureData hmac as_shipped [x01; x02] 99 w)))
     = [] /\
   sequenceNumber
     (securityContext (this (snd (sendSecureData hmac as_shipped [x01; x02] 99 w))))
     = 42) /\
  sendSecureData hmac as_shipped [x01; x02] 99 idle = (Throw SessionNotActive, idle) /\
  sendSecureData hmac as_shipped [x01; x02] 99 fresh = (Throw NotPointToPoint, fresh).
Proof.
  intros hmac c sock w idle fresh.
  assert (P : point_to_point (this w) = true) by reflexivity.
  assert (A : sessionActive (this w) = true) by reflexivity.
  assert (R : 0 <= sequenceNumber (securityContext (this w)) + 1 <= 4294967295)
    by (simpl; lia).
  split; [|split].
  - destruct (proj2 (proj2 (sendSecureData_never_sends hmac w [x01; x02] 99)) P A R)
      as [E _].
    rewrite E. repeat split.
  - apply (proj1 (proj2 (sendSecureData_never_sends hmac idle [x01; x02] 99)));
      reflexivity.
  - apply (proj1 (sendSecureData_never_sends hmac fresh [x01; x02] 99)).
    reflexivity.
Defined.

Lemma establishSecureSession_handle_zero_witness :
  let hmac := fun (_ _ : Buffer) => repeat x00 32 in
  let equipped := with_transport None in
  let new := {| this := new_SecureCIPClient (repeat x07 16) 0;
                socket := {| CipClient.written := []; CipClient.inbound := [] |} |} in
  let w := after hmac equipped (Deliver (repeat x00 44)) new in
  reachable hmac equipped w /\
  (fst (establishSecureSession hmac equipped w) = Ok tt /\
   sessionHandle (this (snd (establishSecureSession hmac equipped w))) = 0 /\
   sessionActive (this (snd (establishSecureSession hmac equipped w))) = true) /\
  sessionHandle (this w) = 0 /\
  (fst (receiveWithValidation hmac equipped w) = Ok (repeat x00 8) /\
   exists transport chunk s',
     receive_member equipped = Some transport /\
     transport (socket w) = (Ok chunk, s') /\ readUInt32LE chunk 4 = Ok 0) /\
  reachable hmac as_shipped (after hmac as_shipped CallEstablishSecureSession new) /\
  sessionHandle (this (after hmac as_shipped CallEstablishSecureSession new)) = 0 /\
  establishSecureSession hmac as_shipped new
    = (Throw (TypeError "this.send is not a function"), new).
Proof.
  intros hmac equipped new w.
  assert (R : reachable hmac equipped w)
    by (apply reachable_after, reachable_new).
  assert (R' : reachable hmac as_shipped
                 (after hmac as_shipped CallEstablishSecureSession new))
    by (apply reachable_after, reachable_new).
  assert (E : establishSecureSession hmac equipped w
              = (Ok tt, snd (establishSecureSession hmac equipped w))) by reflexivity.
  assert (V : receiveWithValidation hmac equipped w
              = (Ok (repeat x00 8), snd (receiveWithValidation hmac equipped w)))
    by reflexivity.
  split; [exact R|]. split; [|split; [|split; [|split; [exact R'|split]]]].
  - split; [reflexivity|].
    exact (proj1 (establishSecureSession_handle_zero hmac) equipped w _ E).
  - exact (proj1 (proj2 (establishSecureSession_handle_zero hmac)) equipped w R).
  - split; [reflexivity|].
    exact (proj1 (proj2 (proj2 (establishSecureSession_handle_zero hmac)))
             equipped w _ _ R V).
  - exact (proj1 (proj2 (establishSecureSession_handle_zero hmac)) as_shipped _ R').
  - destruct (proj2 (proj2 (proj2 (establishSecureSession_handle_zero hmac))) new)
      as [E'|E']; [discriminate E'|exact E'].
Defined.

(** * Further properties *)

Import CipDataTypeEncoders. Import CipParserRest. Import MoreSpec.

(** ** Strings and bytes *)

Lemma substring0_ascii (n : nat) (s : string) :
  list_ascii_of_string (String.substring 0 n s) = firstn n (list_ascii_of_string s).
Proof.
  revert n; induction s as [|a s IH]; intros [|n]; simpl; try reflexivity.
  rewrite IH. reflexivity.
Qed.

Lemma length_list_ascii (s : string) :
  length (list_ascii_of_string s) = String.length s.
Proof. induction s as [|a s IH]; simpl; [|rewrite IH]; reflexivity. Qed.

Lemma length_string_of_list (l : list ascii) :
  String.length (string_of_list_ascii l) = length l.
Proof. induction l as [|a l IH]; simpl; [|rewrite IH]; reflexivity. Qed.

Lemma from_ascii_length (s : string) : length (from_ascii s) = String.length s.
Proof. unfold from_ascii. rewrite length_map. apply length_list_ascii. Qed.

Lemma substring0_length (n : nat) (s : string) :
  String.length (String.substring 0 n s) = Nat.min n (String.length s).
Proof.
  rewrite <- !length_list_ascii, substring0_ascii, length_firstn. reflexivity.
Qed.

(** Reading a 7-bit character back from its byte. *)
Lemma ascii_of_byte_7bit (a : ascii) :
  (N_of_ascii a <? 128)%N = true ->
  ascii_of_N (Z.to_N (Z_of_byte (byte_of_ascii a) mod 128)) = a.
Proof.
  destruct a as [[] [] [] [] [] [] [] []]; intros E;
    first [discriminate E | reflexivity].
Qed.

Lemma toString_ascii_from_ascii (s : string) :
  seven_bit s = true -> toString_ascii (from_ascii s) = s.
Proof.
  unfold seven_bit, toString_ascii, from_ascii. intros E.
  rewrite <- (string_of_list_ascii_of_string s) at 2. f_equal.
  induction (list_ascii_of_string s) as [|a l IH]; [reflexivity|].
  simpl in E. apply andb_prop in E as [Ea El].
  cbn [map]. rewrite (ascii_of_byte_7bit a Ea), (IH El). reflexivity.
Qed.

Lemma seven_bit_substring0 (n : nat) (s : string) :
  seven_bit s = true -> seven_bit (String.substring 0 n s) = true.
Proof.
  unfold seven_bit. rewrite substring0_ascii.
  revert n; induction (list_ascii_of_string s) as [|a l IH]; intros n E.
  - destruct n; reflexivity.
  - destruct n; [reflexivity|]. simpl in *. apply andb_prop in E as [Ea El].
    rewrite Ea, (IH n El). reflexivity.
Qed.

Lemma firstn_min_length {A : Type} (n : nat) (l : list A) :
  firstn (Nat.min n (length l)) l = firstn n l.
Proof.
  destruct (Nat.le_gt_cases n (length l)) as [L|L].
  - rewrite Nat.min_l by exact L. reflexivity.
  - rewrite Nat.min_r by lia. rewrite firstn_all, firstn_all2 by lia. reflexivity.
Qed.

(** The slice that [decode] takes for a STRING of declared length [n]. *)
Lemma slice_after_first (x : byte) (rest : Buffer) (n : Z) :
  0 <= n -> slice (x :: rest) 1 (1 + n) = firstn (Z.to_nat n) rest.
Proof.
  intros P. unfold slice. rewrite !clamp_index_nonneg by lia. cbn [length].
  rewrite (Z.min_l 1) by lia. change (Z.to_nat 1) with 1%nat. cbn [skipn].
  replace (Z.to_nat (Z.min (1 + n) (Z.of_nat (S (length rest)))) - 1)%nat
    with (Nat.min (Z.to_nat n) (length rest)) by lia.
  apply firstn_min_length.
Qed.

Lemma slice_same (b : Buffer) (i : Z) : slice b i i = [].
Proof. unfold slice. rewrite Nat.sub_diag. reflexivity. Qed.

Lemma readUInt8_cons (x : byte) (rest : Buffer) :
  readUInt8 (x :: rest) 0 = Ok (Z_of_byte x).
Proof. unfold readUInt8, bytes_at. simpl. rewrite Z.add_0_r. reflexivity. Qed.

Lemma decode_STRING_cons (x : byte) (rest : Buffer) (isBigEndian : bool) :
  decode (code STRING) (x :: rest) isBigEndian
    = Ok (DStr (toString_ascii (firstn (Z.to_nat (Z_of_byte x)) rest))).
Proof.
  rewrite decode_equation. unfold decode_body. simpl find. cbv iota.
  simpl Z.eqb. cbv iota. rewrite readUInt8_cons. cbn [bind].
  rewrite slice_after_first by apply Z_of_byte_range. reflexivity.
Qed.

Section Strings.
Context `{Host}.

Lemma encodeData_STRING (value : prim) (isBigEndian : bool) :
  encodeData value STRING isBigEndian
    = Ok (byte_of_Z (Z.of_nat (Nat.min 255 (String.length (ToString value))))
          :: from_ascii (String.substring 0 255 (ToString value))).
Proof.
  unfold encodeData. simpl Z.eqb. cbv iota. simpl orb. cbv iota.
  unfold substring0, from_array. cbn [map app].
  rewrite ToUint8_num, byte_of_Z_mod, from_ascii_length, substring0_length.
  reflexivity.
Qed.

(** X1. Encoding a value as STRING never fails: the result is one length
    byte followed by the characters of the string, cut after the first
    255; the length byte is the number of bytes that follow it, so a
    string of more than 255 characters gives the length byte 255 and
    exactly 255 bytes. *)
Theorem encodeData_STRING_truncates (value : prim) (isBigEndian : bool) :
  exists lengthByte payload,
    encodeData value STRING isBigEndian = Ok (lengthByte :: payload) /\
    payload = from_ascii (String.substring 0 255 (ToString value)) /\
    length payload = Nat.min 255 (String.length (ToString value)) /\
    Z_of_byte lengthByte = Z.of_nat (length payload) /\
    ((255 < String.length (ToString value))%nat ->
     Z_of_byte lengthByte = 255 /\ length payload = 255%nat).
Proof.
  eexists _, _. split; [apply encodeData_STRING|].
  split; [reflexivity|].
  assert (L : length (from_ascii (String.substring 0 255 (ToString value)))
              = Nat.min 255 (String.length (ToString value)))
    by (rewrite from_ascii_length; apply substring0_length).
  split; [exact L|]. split.
  - rewrite Z_of_byte_of_Z, L. apply Z.mod_small. lia.
  - intros Long. rewrite Z_of_byte_of_Z, L.
    rewrite Nat.min_l by lia. split; reflexivity.
Qed.

(** X2. A string of 7-bit characters that has been encoded as STRING
    decodes to its first 255 characters: to itself when it has at most 255
    characters. *)
Theorem STRING_roundtrip (value : prim) (isBigEndian : bool) :
  seven_bit (ToString value) = true ->
  exists buf,
    encodeData value STRING isBigEndian = Ok buf /\
    decode (code STRING) buf isBigEndian
      = Ok (DStr (String.substring 0 255 (ToString value))) /\
    ((String.length (ToString value) <= 255)%nat ->
     decode (code STRING) buf isBigEndian = Ok (DStr (ToString value))).
Proof.
  intros S7. eexists. split; [apply encodeData_STRING|].
  assert (D : decode (code STRING)
                (byte_of_Z (Z.of_nat (Nat.min 255 (String.length (ToString value))))
                 :: from_ascii (String.substring 0 255 (ToString value)))
                isBigEndian
              = Ok (DStr (String.substring 0 255 (ToString value)))).
  { rewrite decode_STRING_cons, Z_of_byte_of_Z.
    rewrite Z.mod_small by lia. rewrite Nat2Z.id.
    rewrite <- (substring0_length 255), <- from_ascii_length, firstn_all.
    rewrite toString_ascii_from_ascii by (apply seven_bit_substring0; exact S7).
    reflexivity. }
  split; [exact D|]. intros Short. rewrite D. do 2 f_equal.
  rewrite <- (string_of_list_ascii_of_string (String.substring _ _ _)).
  rewrite substring0_ascii, firstn_all2 by (rewrite length_list_ascii; lia).
  apply string_of_list_ascii_of_string.
Qed.

End Strings.

Lemma encodeData_STRING_truncates_witness :
  let longStr := string_of_list_ascii (repeat "a"%char 300) in
  exists lengthByte payload,
    @encodeData any_host (VStr longStr) STRING false = Ok (lengthByte :: payload) /\
    Z_of_byte lengthByte = 255 /\ length payload = 255%nat.
Proof.
  intros longStr.
  destruct (@encodeData_STRING_truncates any_host (VStr longStr) false)
    as [b [p [E [_ [_ [_ Long]]]]]].
  exists b, p. split; [exact E|]. apply Long. vm_compute. lia.
Defined.

Lemma STRING_roundtrip_witness :
  exists buf,
    @encodeData any_host (VStr "Hello CIP") STRING false = Ok buf /\
    decode (code STRING) buf false = Ok (DStr "Hello CIP").
Proof.
  destruct (@STRING_roundtrip any_host (VStr "Hello CIP") false eq_refl)
    as [buf [E [_ D]]].
  exists buf. split; [exact E|]. apply D. simpl. lia.
Defined.

(** ** Scalars *)

Lemma to_signed_mod_pow2 (v j : Z) :
  0 <= j <= 32 -> to_signed 32 (v mod 2 ^ 32) mod 2 ^ j = v mod 2 ^ j.
Proof.
  intros R.
  assert (D : 2 ^ 32 = 2 ^ j * 2 ^ (32 - j))
    by (rewrite <- Z.pow_add_r by lia; f_equal; lia).
  assert (P : 0 < 2 ^ j) by (apply Z.pow_pos_nonneg; lia).
  assert (M : (v mod 2 ^ 32) mod 2 ^ j = v mod 2 ^ j).
  { rewrite D, Z.rem_mul_r by (try apply Z.pow_nonzero; lia).
    rewrite (Z.mul_comm (2 ^ j)), Z.mod_add by lia. apply Z.mod_mod. lia. }
  unfold to_signed. destruct (_ <=? _); [|exact M].
  rewrite <- M. rewrite D at 2.
  rewrite <- (Z.mod_add (v mod 2 ^ 32 - 2 ^ j * 2 ^ (32 - j)) (2 ^ (32 - j)) (2 ^ j))
    by lia.
  f_equal. lia.
Qed.

Section Scalars.
Context `{Host}.

Lemma ToInt32_num_mod (v j : Z) :
  0 <= j <= 32 -> ToInt32 (num v) mod 2 ^ j = v mod 2 ^ j.
Proof.
  intros R. unfold ToInt32, num; simpl ToNumber. rewrite to_uint_inject.
  apply to_signed_mod_pow2. exact R.
Qed.

Lemma byte_of_Z_ToInt32_num (v : Z) : byte_of_Z (ToInt32 (num v)) = byte_of_Z v.
Proof.
  rewrite <- (byte_of_Z_mod (ToInt32 _)), <- (byte_of_Z_mod v). f_equal.
  exact (ToInt32_num_mod v 8 ltac:(lia)).
Qed.

Lemma encodeData_SINT (value : prim) (isBigEndian : bool) :
  encodeData value SINT isBigEndian = Ok [byte_of_Z (ToInt32 value)].
Proof.
  unfold encodeData. simpl Z.eqb. cbv iota. unfold from_array. cbn [map].
  rewrite from_array_num_land. reflexivity.
Qed.

Lemma decode_SINT_byte (x : byte) (rest : Buffer) (isBigEndian : bool) :
  decode (code SINT) (x :: rest) isBigEndian
    = Ok (DNum (Fin (inject_Z (to_signed 8 (Z_of_byte x))))).
Proof.
  rewrite decode_equation. unfold decode_body. simpl find. cbv iota.
  simpl Z.eqb. cbv iota. unfold readInt8, bytes_at. simpl.
  rewrite Z.add_0_r. reflexivity.
Qed.

(** X3. Encoding a value as SINT never fails and keeps its low byte:
    decoding gives the integer back as a signed byte, that is unchanged
    for an integer from -128 to 127 and lowered by 256 for one from 128 to
    255. *)
Theorem SINT_roundtrip (v : Z) (isBigEndian : bool) :
  exists b,
    encodeData (num v) SINT isBigEndian = Ok [b] /\
    decode (code SINT) [b] isBigEndian
      = Ok (DNum (Fin (inject_Z (to_signed 8 (v mod 256))))) /\
    (- 128 <= v <= 127 ->
     decode (code SINT) [b] isBigEndian = Ok (DNum (Fin (inject_Z v)))) /\
    (128 <= v <= 255 ->
     decode (code SINT) [b] isBigEndian = Ok (DNum (Fin (inject_Z (v - 256))))).
Proof.
  eexists. split; [apply encodeData_SINT|].
  assert (D : decode (code SINT) [byte_of_Z (ToInt32 (num v))] isBigEndian
              = Ok (DNum (Fin (inject_Z (to_signed 8 (v mod 256)))))).
  { rewrite decode_SINT_byte, byte_of_Z_ToInt32_num, Z_of_byte_of_Z. reflexivity. }
  split; [exact D|]. split; intros R; (etransitivity; [exact D|]); do 4 f_equal.
  - apply (to_signed_mod 8); simpl; lia.
  - unfold to_signed. rewrite Z.mod_small by lia.
    replace (2 ^ (8 - 1) <=? v) with true by (symmetry; apply Z.leb_le; simpl; lia).
    reflexivity.
Qed.

(** X4. Encoding a value as BOOL gives the byte FF when the value is
    truthy and 00 otherwise, and decoding gives its truth value back;
    more generally BOOL decodes every byte other than 00 as true. *)
Theorem BOOL_roundtrip (value : prim) (isBigEndian : bool) :
  encodeData value BOOL isBigEndian
    = Ok [if ToBoolean value then xff else x00] /\
  decode (code BOOL) [if ToBoolean value then xff else x00] isBigEndian
    = Ok (DBool (ToBoolean value)) /\
  (forall x rest, decode (code BOOL) (x :: rest) isBigEndian
                  = Ok (DBool (negb (Byte.eqb x x00)))).
Proof.
  split; [destruct (ToBoolean value) eqn:E; unfold encodeData; simpl;
          rewrite E; reflexivity|].
  split; [destruct (ToBoolean value); reflexivity|].
  intros x rest. rewrite decode_equation. unfold decode_body. simpl find.
  cbv iota. simpl Z.eqb. cbv iota. rewrite readUInt8_cons. cbn [bind].
  destruct x; reflexivity.
Qed.

Lemma encodeData_INT_any (value : prim) (isBigEndian : bool) :
  encodeData value INT isBigEndian
    = Ok (if isBigEndian then be_bytes 2 (ToInt32 value)
          else le_bytes 2 (ToInt32 value)).
Proof.
  unfold encodeData. simpl Z.eqb. cbv iota.
  destruct isBigEndian; unfold from_array, be_bytes; simpl;
    rewrite !from_array_num_land, Z.shiftr_div_pow2 by lia; reflexivity.
Qed.

Lemma decode_INT_bytes (t : Z) (isBigEndian : bool) :
  decode (code INT) (if isBigEndian then be_bytes 2 t else le_bytes 2 t) isBigEndian
    = Ok (DNum (Fin (inject_Z (to_signed 16 (t mod 65536))))).
Proof.
  unfold decode. destruct isBigEndian.
  - rewrite be_bytes_length. cbn [decode_fuel]. unfold decode_body. simpl find.
    cbv iota. simpl Z.eqb. cbv iota. unfold readInt16BE.
    rewrite <- (be_bytes_length 2 t) at 2. rewrite bytes_at_whole. cbn [bind].
    rewrite be_value_be_bytes. reflexivity.
  - rewrite le_bytes_length. cbn [decode_fuel]. unfold decode_body. simpl find.
    cbv iota. simpl Z.eqb. cbv iota. unfold readInt16LE.
    rewrite <- (le_bytes_length 2 t) at 2. rewrite bytes_at_whole. cbn [bind].
    rewrite le_value_le_bytes. reflexivity.
Qed.

(** X5. Encoding an integer as INT never fails, whatever its size: the
    value is reduced modulo 65536, and decoding gives back the signed
    16-bit integer with that residue.  An integer outside the range of INT
    comes back changed, not refused: 40000 comes back as -25536. *)
Theorem INT_wraps (v : Z) (isBigEndian : bool) :
  exists buf,
    encodeData (num v) INT isBigEndian = Ok buf /\
    length buf = 2%nat /\
    decode (code INT) buf isBigEndian
      = Ok (DNum (Fin (inject_Z (to_signed 16 (v mod 65536))))) /\
    (32767 < v <= 65535 ->
     decode (code INT) buf isBigEndian = Ok (DNum (Fin (inject_Z (v - 65536))))).
Proof.
  eexists. split; [apply encodeData_INT_any|].
  split; [destruct isBigEndian; [apply be_bytes_length|apply le_bytes_length]|].
  assert (D : decode (code INT)
                (if isBigEndian then be_bytes 2 (ToInt32 (num v))
                 else le_bytes 2 (ToInt32 (num v))) isBigEndian
              = Ok (DNum (Fin (inject_Z (to_signed 16 (v mod 65536)))))).
  { rewrite decode_INT_bytes. do 5 f_equal.
    exact (ToInt32_num_mod v 16 ltac:(lia)). }
  split; [exact D|]. intros R. etransitivity; [exact D|]. do 4 f_equal.
  unfold to_signed. rewrite Z.mod_small by lia.
  replace (2 ^ (16 - 1) <=? v) with true by (symmetry; apply Z.leb_le; simpl; lia).
  reflexivity.
Qed.

(** X6. Encoding an integer as DINT or as REAL returns its four bytes when
    it is a signed 32-bit integer and fails with a range error otherwise:
    unlike INT, these two never wrap. *)
Theorem DINT_range_checked (v : Z) (dataType : CIPDataType) (isBigEndian : bool) :
  dataType = DINT \/ dataType = REAL ->
  (- 2147483648 <= v <= 2147483647 ->
   encodeData (num v) dataType isBigEndian
     = Ok (if isBigEndian then be_bytes 4 v else le_bytes 4 v)) /\
  (v < - 2147483648 \/ 2147483647 < v ->
   encodeData (num v) dataType isBigEndian = Throw RangeError).
Proof.
  intros T.
  assert (E : encodeData (num v) dataType isBigEndian
              = encodeData (num v) DINT isBigEndian)
    by (destruct T as [->| ->]; reflexivity).
  rewrite E. split; [apply encodeData_DINT|].
  intros R. unfold encodeData. simpl Z.eqb. cbv iota. simpl orb. cbv iota.
  change (ToNumber (num v)) with (Fin (inject_Z v)).
  unfold writeInt32BE, writeInt32LE, write_int.
  rewrite num_gtb_inject, num_ltb_inject.
  destruct (Z.ltb_spec 2147483647 v); [destruct isBigEndian; reflexivity|].
  destruct (Z.ltb_spec v (-2147483648)); [destruct isBigEndian; reflexivity|lia].
Qed.

End Scalars.

Lemma SINT_roundtrip_witness :
  exists b,
    @encodeData any_host (num 0xAB) SINT false = Ok [b] /\
    decode (code SINT) [b] false = Ok (DNum (Fin (inject_Z (-85)))) /\
    exists b',
      @encodeData any_host (num (-7)) SINT false = Ok [b'] /\
      decode (code SINT) [b'] false = Ok (DNum (Fin (inject_Z (-7)))).
Proof.
  destruct (@SINT_roundtrip any_host 0xAB false) as [b [E [_ [_ D]]]].
  exists b. split; [exact E|]. split; [apply D; lia|].
  destruct (@SINT_roundtrip any_host (-7) false) as [b' [E' [_ [D' _]]]].
  exists b'. split; [exact E'|]. apply D'. lia.
Defined.

Lemma INT_wraps_witness :
  exists buf,
    @encodeData any_host (num 40000) INT true = Ok buf /\
    decode (code INT) buf true = Ok (DNum (Fin (inject_Z (-25536)))).
Proof.
  destruct (@INT_wraps any_host 40000 true) as [buf [E [_ [_ D]]]].
  exists buf. split; [exact E|]. apply D. lia.
Defined.

Lemma DINT_range_checked_witness :
  @encodeData any_host (num 2147483648) DINT false = Throw RangeError /\
  @encodeData any_host (num (-1)) REAL true = Ok [xff; xff; xff; xff].
Proof.
  split.
  - apply (proj2 (@DINT_range_checked any_host 2147483648 DINT false (or_introl eq_refl))).
    right. lia.
  - apply (proj1 (@DINT_range_checked any_host (-1) REAL true (or_intror eq_refl))).
    lia.
Defined.

(** ** The decoder on short, long and empty data *)

Lemma bytes_at_0_short (data : Buffer) (k : nat) :
  (length data < k)%nat -> bytes_at data 0 k = Throw RangeError.
Proof.
  intros L. unfold bytes_at. cbn [Nat.add].
  destruct (Nat.leb_spec k (length data)); [lia|reflexivity].
Qed.

Lemma bytes_at_0_prefix (data extra : Buffer) (k : nat) :
  (k <= length data)%nat ->
  bytes_at data 0 k = Ok (firstn k data) /\
  bytes_at (firstn k data ++ extra) 0 k = Ok (firstn k data).
Proof.
  intros L. unfold bytes_at. cbn [Nat.add]. rewrite !skipn_O, length_app, length_firstn.
  destruct (Nat.leb_spec k (length data)); [|lia].
  destruct (Nat.leb_spec k (Nat.min k (length data) + length extra)); [|lia].
  split; [reflexivity|]. f_equal.
  rewrite firstn_app, length_firstn, firstn_firstn, Nat.min_id.
  replace (k - Nat.min k (length data))%nat with 0%nat by lia.
  rewrite firstn_O. apply app_nil_r.
Qed.

Ltac decode_scalar :=
  rewrite !decode_equation; unfold decode_body; simpl find; cbv iota;
  simpl Z.eqb; cbv iota;
  unfold readUInt8, readInt8, readInt16BE, readInt16LE, readInt32BE, readInt32LE,
    readFloatBE, readFloatLE.

(** X7. The scalar types BOOL, SINT, INT, DINT and REAL are decoded from
    the first bytes of the data, as many as the registry gives for their
    size: with fewer bytes the decoder fails with a range error, with as
    many or more it returns a value that depends on those bytes only, what
    follows them being ignored.  LREAL, of size 8 in the registry, is not
    decoded at all: the data is returned as it is, whatever its length. *)
Theorem decode_fixed_size (data : Buffer) (isBigEndian : bool) :
  (forall t n,
     In t [BOOL; SINT; INT; DINT; REAL] -> size t = Some n ->
     (Z.of_nat (length data) < n ->
      decode (code t) data isBigEndian = Throw RangeError) /\
     (n <= Z.of_nat (length data) ->
      exists v,
        decode (code t) data isBigEndian = Ok v /\
        forall extra,
          decode (code t) (firstn (Z.to_nat n) data ++ extra) isBigEndian = Ok v)) /\
  decode (code LREAL) data isBigEndian = Ok (DBuf data).
Proof.
  split; [|rewrite decode_equation; reflexivity].
  intros t n T S.
  assert (Short : forall k : nat, Z.of_nat (length data) < Z.of_nat k ->
                  bytes_at data 0 k = Throw RangeError)
    by (intros k L; apply bytes_at_0_short; lia).
  assert (Long : forall (k : nat) extra, Z.of_nat k <= Z.of_nat (length data) ->
                 bytes_at data 0 k = Ok (firstn k data) /\
                 bytes_at (firstn k data ++ extra) 0 k = Ok (firstn k data))
    by (intros k extra L; apply bytes_at_0_prefix; lia).
  simpl in T.
  destruct T as [<-|[<-|[<-|[<-|[<-|[]]]]]]; injection S as <-;
    destruct isBigEndian; split; intros L.
  all: try solve [decode_scalar;
                  first [rewrite (Short 1%nat L) | rewrite (Short 2%nat L)
                        | rewrite (Short 4%nat L)]; reflexivity].
  all: decode_scalar;
    first [rewrite (proj1 (Long 1%nat [] L)) | rewrite (proj1 (Long 2%nat [] L))
          | rewrite (proj1 (Long 4%nat [] L))];
    eexists; (split; [reflexivity|]); intros extra; decode_scalar;
    try change (Z.to_nat 1) with 1%nat; try change (Z.to_nat 2) with 2%nat;
    try change (Z.to_nat 4) with 4%nat;
    first [rewrite (proj2 (Long 1%nat extra L)) | rewrite (proj2 (Long 2%nat extra L))
          | rewrite (proj2 (Long 4%nat extra L))];
    reflexivity.
Qed.

Lemma decode_fixed_size_witness :
  decode (code DINT) [x01; x02; x03] false = Throw RangeError /\
  exists v,
    decode (code INT) [x01; x02; x03] true = Ok v /\
    decode (code INT) [x01; x02; xff; xff] true = Ok v.
Proof.
  split.
  - apply (proj1 (proj1 (decode_fixed_size [x01; x02; x03] false) DINT 4
                    ltac:(simpl; tauto) eq_refl)).
    simpl. lia.
  - destruct (proj2 (proj1 (decode_fixed_size [x01; x02; x03] true) INT 2
                       ltac:(simpl; tauto) eq_refl)) as [v [D P]];
      [simpl; lia|].
    exists v. split; [exact D|]. exact (P [xff; xff]).
Defined.

(** X8. The length byte of a STRING is not checked against the data: the
    decoder fails with a range error on empty data only, and otherwise
    returns as many characters as the length byte says or as the data
    holds, whichever is less; when the length byte promises more than
    follows, all of what follows is returned. *)
Theorem decode_STRING_length_unchecked (isBigEndian : bool) :
  decode (code STRING) [] isBigEndian = Throw RangeError /\
  (forall lengthByte rest,
     exists s,
       decode (code STRING) (lengthByte :: rest) isBigEndian = Ok (DStr s) /\
       String.length s = Nat.min (Z.to_nat (Z_of_byte lengthByte)) (length rest) /\
       (Z.of_nat (length rest) <= Z_of_byte lengthByte -> s = toString_ascii rest)).
Proof.
  split; [reflexivity|]. intros lengthByte rest.
  eexists. split; [apply decode_STRING_cons|]. split.
  - unfold toString_ascii. rewrite length_string_of_list, length_map, length_firstn.
    reflexivity.
  - intros L. rewrite firstn_all2 by lia. reflexivity.
Qed.

Lemma decode_STRING_length_unchecked_witness :
  exists s,
    decode (code STRING) [x05; x68; x69] false = Ok (DStr s) /\
    s = toString_ascii [x68; x69].
Proof.
  destruct (proj2 (decode_STRING_length_unchecked false) x05 [x68; x69])
    as [s [D [_ E]]].
  exists s. split; [exact D|]. apply E. vm_compute. discriminate.
Defined.

(** *** Elements and members *)

Lemma decode_empty (typeCode : Z) (isBigEndian : bool) :
  decode typeCode [] isBigEndian
    = if typeCode =? code LREAL then Ok (DBuf [])
      else if existsb (Z.eqb typeCode) registry_codes then Throw RangeError
      else Throw (UnsupportedDataType typeCode).
Proof.
  destruct (Z.eqb_spec typeCode (code BOOL)) as [->|N1]; [reflexivity|].
  destruct (Z.eqb_spec typeCode (code SINT)) as [->|N2]; [reflexivity|].
  destruct (Z.eqb_spec typeCode (code INT)) as [->|N3];
    [destruct isBigEndian; reflexivity|].
  destruct (Z.eqb_spec typeCode (code DINT)) as [->|N4];
    [destruct isBigEndian; reflexivity|].
  destruct (Z.eqb_spec typeCode (code REAL)) as [->|N5];
    [destruct isBigEndian; reflexivity|].
  destruct (Z.eqb_spec typeCode (code STRING)) as [->|N6]; [reflexivity|].
  destruct (Z.eqb_spec typeCode (code ARRAY)) as [->|N7]; [reflexivity|].
  destruct (Z.eqb_spec typeCode (code STRUCT)) as [->|N8]; [reflexivity|].
  destruct (Z.eqb_spec typeCode (code LREAL)) as [->|N9]; [reflexivity|].
  assert (N : ~ In typeCode registry_codes).
  { intros C. simpl in C, N1, N2, N3, N4, N5, N6, N7, N8, N9. lia. }
  rewrite (decode_unknown _ _ _ N).
  replace (existsb (Z.eqb typeCode) registry_codes) with false; [reflexivity|].
  symmetry. apply not_true_is_false. intros C. apply existsb_exists in C.
  destruct C as [x [I E]]. apply Z.eqb_eq in E. subst x. exact (N I).
Qed.

Lemma decode_empty_Ok (typeCode : Z) (isBigEndian : bool) (v : decoded) :
  decode typeCode [] isBigEndian = Ok v -> typeCode = code LREAL /\ v = DBuf [].
Proof.
  rewrite decode_empty. destruct (Z.eqb_spec typeCode (code LREAL)) as [->|N].
  - intros [= <-]. split; reflexivity.
  - destruct (existsb _ _); discriminate.
Qed.

Lemma decodeArray_loop_empty (n : nat) (elementType : Z) (data : Buffer)
    (isBigEndian : bool) (offset : Z) :
  decodeArray_loop decode (S n) elementType data isBigEndian offset
    = (let* v := decode elementType [] isBigEndian in Ok (repeat v (S n))).
Proof.
  revert offset. induction n as [|k IH]; intros offset.
  - cbn [decodeArray_loop]. rewrite size_of_code_zero, Z.add_0_r, slice_same.
    destruct (decode elementType [] isBigEndian); reflexivity.
  - change (decodeArray_loop decode (S (S k)) elementType data isBigEndian offset)
      with (let elementSize := size_of_code elementType in
            let* v := decode elementType
                        (slice data offset (offset + elementSize)) isBigEndian in
            let* rest := decodeArray_loop decode (S k) elementType data isBigEndian
                           (offset + elementSize) in
            Ok (v :: rest)).
    cbv zeta. rewrite IH, size_of_code_zero, Z.add_0_r, slice_same.
    destruct (decode elementType [] isBigEndian) as [v|e]; reflexivity.
Qed.

(** X9. No element of an ARRAY is ever decoded from the bytes that follow
    the header: the elements are sliced with a size of 0.  With a positive
    element count, the decoder returns only for the element type LREAL,
    and then returns as many empty buffers as the count says, whatever
    follows the header; for every other registered element type it fails
    with a range error.  Data shorter than the four bytes of the header
    fails with a range error too. *)
Theorem decodeArray_never_reads_elements (data : Buffer) (isBigEndian : bool) :
  ((length data < 4)%nat ->
   decode (code ARRAY) data isBigEndian = Throw RangeError) /\
  (forall elementType elementCount,
     readUInt16BE data 0 = Ok elementType ->
     readUInt16BE data 2 = Ok elementCount ->
     0 < elementCount ->
     (elementType = code LREAL ->
      decode (code ARRAY) data isBigEndian
        = Ok (DArr (repeat (DBuf []) (Z.to_nat elementCount)))) /\
     (In elementType registry_codes -> elementType <> code LREAL ->
      decode (code ARRAY) data isBigEndian = Throw RangeError)).
Proof.
  split.
  - intros L. rewrite decode_ARRAY. unfold decodeArray, readUInt16BE, bytes_at.
    destruct (Nat.leb_spec (0 + 2) (length data)); [|reflexivity]. cbn [bind].
    destruct (Nat.leb_spec (2 + 2) (length data)); [simpl in *; lia|reflexivity].
  - intros elementType elementCount E0 E2 P.
    assert (Eq : decode (code ARRAY) data isBigEndian
                 = (let* v := decode elementType [] isBigEndian in
                    Ok (DArr (repeat v (Z.to_nat elementCount))))).
    { rewrite decode_ARRAY. unfold decodeArray. rewrite E0, E2. cbn [bind].
      destruct (Z.to_nat elementCount) as [|k] eqn:K; [lia|].
      rewrite decodeArray_loop_empty.
      destruct (decode elementType [] isBigEndian); reflexivity. }
    split.
    + intros ->. etransitivity; [exact Eq|]. reflexivity.
    + intros R N. etransitivity; [exact Eq|]. rewrite decode_empty.
      replace (elementType =? code LREAL) with false
        by (symmetry; apply Z.eqb_neq; exact N).
      replace (existsb (Z.eqb elementType) registry_codes) with true; [reflexivity|].
      symmetry. apply existsb_exists. exists elementType.
      split; [exact R|apply Z.eqb_refl].
Qed.

Lemma decodeArray_never_reads_elements_witness :
  decode (code ARRAY) [x00; xcb; x00; x02; x11; x22] false
    = Ok (DArr [DBuf []; DBuf []]) /\
  decode (code ARRAY) [x00; xc4; x00; x01; x2a; x00; x00; x00] false
    = Throw RangeError /\
  decode (code ARRAY) [x00; xc4; x00] false = Throw RangeError.
Proof.
  split; [|split].
  - apply (proj2 (decodeArray_never_reads_elements
                    [x00; xcb; x00; x02; x11; x22] false) 0xCB 2);
      [reflexivity|reflexivity|lia|reflexivity].
  - apply (proj2 (decodeArray_never_reads_elements
                    [x00; xc4; x00; x01; x2a; x00; x00; x00] false) 0xC4 1);
      [reflexivity|reflexivity|lia|simpl; tauto|discriminate].
  - apply (proj1 (decodeArray_never_reads_elements [x00; xc4; x00] false)).
    simpl. lia.
Defined.

Lemma decodeStruct_loop_S (k : nat) (data : Buffer) (isBigEndian : bool)
    (offset : nat) :
  decodeStruct_loop decode (S k) data isBigEndian (Z.of_nat offset)
    = (let* memberType := readUInt16BE data offset in
       let* v := decode memberType [] isBigEndian in
       let* rest := decodeStruct_loop decode k data isBigEndian
                      (Z.of_nat (offset + 2)) in
       Ok (DMember memberType v :: rest)).
Proof.
  cbn [decodeStruct_loop]. rewrite Nat2Z.id.
  destruct (readUInt16BE data offset) as [memberType|e]; [|reflexivity].
  cbn [bind]. rewrite size_of_code_zero, Z.add_0_r, slice_same.
  replace (Z.of_nat offset + 2) with (Z.of_nat (offset + 2)) by lia.
  reflexivity.
Qed.

Lemma decodeStruct_loop_Ok (n : nat) (data : Buffer) (isBigEndian : bool)
    (offset : nat) (members : list decoded) :
  decodeStruct_loop decode n data isBigEndian (Z.of_nat offset) = Ok members <->
  (forall i, (i < n)%nat -> readUInt16BE data (offset + 2 * i) = Ok (code LREAL)) /\
  members = repeat (DMember (code LREAL) (DBuf [])) n.
Proof.
  revert offset members. induction n as [|k IH]; intros offset members.
  - cbn [decodeStruct_loop repeat]. split.
    + intros [= <-]. split; [intros i L; lia|reflexivity].
    + intros [_ ->]. reflexivity.
  - rewrite decodeStruct_loop_S. cbn [repeat]. split.
    + intros E.
      destruct (readUInt16BE data offset) as [memberType|e] eqn:R; [|discriminate E].
      cbn [bind] in E.
      destruct (decode memberType [] isBigEndian) as [v|e] eqn:D; [|discriminate E].
      cbn [bind] in E. apply decode_empty_Ok in D. destruct D as [-> ->].
      destruct (decodeStruct_loop decode k data isBigEndian (Z.of_nat (offset + 2)))
        as [rest|e] eqn:L; [|discriminate E].
      cbn [bind] in E. injection E as <-. apply IH in L. destruct L as [All ->].
      split; [|reflexivity]. intros [|i] Li.
      * rewrite Nat.mul_0_r, Nat.add_0_r. exact R.
      * replace (offset + 2 * S i)%nat with (offset + 2 + 2 * i)%nat by lia.
        apply All. lia.
    + intros [All ->].
      assert (R0 : readUInt16BE data offset = Ok (code LREAL))
        by (rewrite <- (All 0%nat) by lia; f_equal; lia).
      rewrite R0. cbn [bind].
      rewrite decode_empty. simpl Z.eqb. cbv iota. cbn [bind].
      replace (decodeStruct_loop decode k data isBigEndian (Z.of_nat (offset + 2)))
        with (Ok (A := list decoded) (repeat (DMember (code LREAL) (DBuf [])) k));
        [reflexivity|].
      symmetry. apply IH. split; [|reflexivity]. intros i Li.
      replace (offset + 2 + 2 * i)%nat with (offset + 2 * S i)%nat by lia.
      apply All. lia.
Qed.

(** X10. A STRUCT is decoded as a 16-bit big-endian member count followed
    by one 16-bit big-endian type code per member, with no member data in
    between: the members are sliced with a size of 0.  So the decoder
    returns exactly when every one of these type codes is that of LREAL,
    and what it returns is one member per code, each an empty buffer. *)
Theorem decodeStruct_returns_iff (data : Buffer) (isBigEndian : bool) (v : decoded) :
  decode (code STRUCT) data isBigEndian = Ok v <->
  exists memberCount,
    readUInt16BE data 0 = Ok memberCount /\
    (forall i, (i < Z.to_nat memberCount)%nat ->
       readUInt16BE data (2 + 2 * i) = Ok (code LREAL)) /\
    v = DArr (repeat (DMember (code LREAL) (DBuf [])) (Z.to_nat memberCount)).
Proof.
  rewrite decode_STRUCT. unfold decodeStruct. split.
  - intros E. destruct (readUInt16BE data 0) as [memberCount|e]; [|discriminate E].
    cbn [bind] in E.
    destruct (decodeStruct_loop decode (Z.to_nat memberCount) data isBigEndian 2)
      as [members|e] eqn:L; [|discriminate E].
    cbn [bind] in E. injection E as <-.
    apply (decodeStruct_loop_Ok _ _ _ 2) in L. destruct L as [All ->].
    exists memberCount. split; [reflexivity|]. split; [exact All|reflexivity].
  - intros [memberCount [-> [All ->]]]. cbn [bind].
    replace (decodeStruct_loop decode (Z.to_nat memberCount) data isBigEndian 2)
      with (Ok (A := list decoded)
              (repeat (DMember (code LREAL) (DBuf [])) (Z.to_nat memberCount)));
      [reflexivity|].
    symmetry. apply (decodeStruct_loop_Ok _ _ _ 2). split; [exact All|reflexivity].
Qed.

Lemma decodeStruct_returns_iff_witness :
  decode (code STRUCT) [x00; x02; x00; xcb; x00; xcb] true
    = Ok (DArr [DMember 0xCB (DBuf []); DMember 0xCB (DBuf [])]).
Proof.
  apply (proj2 (decodeStruct_returns_iff [x00; x02; x00; xcb; x00; xcb] true _)).
  exists 2. split; [reflexivity|]. split; [|reflexivity].
  intros [|[|i]] L; [reflexivity|reflexivity|simpl in L; lia].
Defined.

(** ** The encoders of the registry, beside [encodeData] *)

Lemma from_ascii_firstn (n : nat) (s : string) :
  firstn n (from_ascii s) = from_ascii (String.substring 0 n s).
Proof. unfold from_ascii. rewrite substring0_ascii, firstn_map. reflexivity. Qed.

Section RegistryEncoders.
Context `{Host}.

Lemma encodeData_INT_bytes (v : Z) (isBigEndian : bool) :
  encodeData (num v) INT isBigEndian
    = Ok (if isBigEndian then be_bytes 2 v else le_bytes 2 v).
Proof.
  rewrite encodeData_INT_any.
  assert (E : le_bytes 2 (ToInt32 (num v)) = le_bytes 2 v).
  { rewrite <- (le_bytes_mod 2 2 (ToInt32 _)), <- (le_bytes_mod 2 2 v) by lia.
    f_equal. exact (ToInt32_num_mod v 16 ltac:(lia)). }
  unfold be_bytes. rewrite E. reflexivity.
Qed.

(** X11. Of the registry's own encoders for BOOL, SINT, INT and DINT,
    only that of INT differs from [encodeData]: the other three return
    what [encodeData] returns for every value, and the two INT encoders
    agree on the integers from -32768 to 32767, but on every other integer
    the registry's encoder fails with a range error where [encodeData]
    returns the two low bytes. *)
Theorem INT_encode_refuses_what_encodeData_wraps (value : prim) (v : Z)
    (isBigEndian : bool) :
  BOOL_encode value = encodeData value BOOL isBigEndian /\
  SINT_encode value = encodeData value SINT isBigEndian /\
  DINT_encode value isBigEndian = encodeData value DINT isBigEndian /\
  (- 32768 <= v <= 32767 ->
   INT_encode (num v) isBigEndian = encodeData (num v) INT isBigEndian) /\
  (v < - 32768 \/ 32767 < v ->
   INT_encode (num v) isBigEndian = Throw RangeError /\
   encodeData (num v) INT isBigEndian
     = Ok (if isBigEndian then be_bytes 2 v else le_bytes 2 v)).
Proof.
  split; [reflexivity|]. split; [reflexivity|]. split; [reflexivity|]. split.
  - intros R. rewrite encodeData_INT_bytes.
    unfold INT_encode, writeInt16BE, writeInt16LE.
    change (ToNumber (num v)) with (Fin (inject_Z v)).
    destruct isBigEndian.
    + rewrite (write_int_alloc be_bytes 2) by (try apply be_bytes_length; lia).
      change (2 ^ 32) with (256 ^ 4).
      unfold be_bytes. rewrite (le_bytes_mod 2 4 v) by lia. reflexivity.
    + rewrite (write_int_alloc le_bytes 2) by (try apply le_bytes_length; lia).
      change (2 ^ 32) with (256 ^ 4).
      rewrite (le_bytes_mod 2 4 v) by lia. reflexivity.
  - intros R. split; [|apply encodeData_INT_bytes].
    unfold INT_encode, writeInt16BE, writeInt16LE, write_int.
    change (ToNumber (num v)) with (Fin (inject_Z v)).
    rewrite num_gtb_inject, num_ltb_inject.
    destruct (Z.ltb_spec 32767 v); [destruct isBigEndian; reflexivity|].
    destruct (Z.ltb_spec v (-32768)); [destruct isBigEndian; reflexivity|lia].
Qed.

(** X12. The registry's own encoder of STRING does not cut the string: it
    writes the length modulo 256 in the length byte and then every
    character.  It agrees with [encodeData] on strings of at most 255
    characters; a longer string of 7-bit characters is decoded to its
    first (length mod 256) characters only, and one of 256 characters to
    the empty string. *)
Theorem STRING_encode_untruncated (s : string) (isBigEndian : bool) :
  exists lengthByte,
    STRING_encode (VStr s) = Ok (lengthByte :: from_ascii s) /\
    Z_of_byte lengthByte = Z.of_nat (String.length s) mod 256 /\
    ((String.length s <= 255)%nat ->
     STRING_encode (VStr s) = encodeData (VStr s) STRING isBigEndian) /\
    (seven_bit s = true ->
     decode (code STRING) (lengthByte :: from_ascii s) isBigEndian
       = Ok (DStr (String.substring 0 (String.length s mod 256) s))).
Proof.
  exists (byte_of_Z (Z.of_nat (String.length s))).
  assert (E : STRING_encode (VStr s)
              = Ok (byte_of_Z (Z.of_nat (String.length s)) :: from_ascii s)).
  { unfold STRING_encode, from_array. cbn [map app].
    rewrite ToUint8_num, byte_of_Z_mod. reflexivity. }
  split; [exact E|]. split; [apply Z_of_byte_of_Z|]. split.
  - intros Short. rewrite E, encodeData_STRING. cbn [ToString].
    rewrite Nat.min_r by lia. do 2 f_equal.
    rewrite <- (string_of_list_ascii_of_string (String.substring _ _ _)).
    rewrite substring0_ascii, firstn_all2 by (rewrite length_list_ascii; lia).
    rewrite string_of_list_ascii_of_string. reflexivity.
  - intros S7. rewrite decode_STRING_cons, Z_of_byte_of_Z, from_ascii_firstn.
    rewrite toString_ascii_from_ascii by (apply seven_bit_substring0; exact S7).
    do 3 f_equal.
    change 256 with (Z.of_nat 256). rewrite <- Nat2Z.inj_mod. apply Nat2Z.id.
Qed.

End RegistryEncoders.

Lemma INT_encode_refuses_what_encodeData_wraps_witness :
  @INT_encode any_host (num 40000) false = Throw RangeError /\
  @encodeData any_host (num 40000) INT false = Ok [x40; x9c] /\
  @INT_encode any_host (num (-2)) true = @encodeData any_host (num (-2)) INT true.
Proof.
  destruct (proj2 (proj2 (proj2 (proj2
              (@INT_encode_refuses_what_encodeData_wraps any_host VNull 40000 false)))))
    as [R W]; [right; lia|].
  split; [exact R|]. split; [exact W|].
  apply (proj1 (proj2 (proj2 (proj2
           (@INT_encode_refuses_what_encodeData_wraps any_host VNull (-2) true))))).
  lia.
Defined.

Lemma STRING_encode_untruncated_witness :
  let s := string_of_list_ascii (repeat "a"%char 258) in
  exists lengthByte,
    @STRING_encode any_host (VStr s) = Ok (lengthByte :: from_ascii s) /\
    decode (code STRING) (lengthByte :: from_ascii s) false = Ok (DStr "aa").
Proof.
  intros s.
  destruct (@STRING_encode_untruncated any_host s false) as [b [E [_ [_ D]]]].
  exists b. split; [exact E|]. apply D. vm_compute. reflexivity.
Defined.

(** ** Object paths, again *)

Section PathsAgain.
Context `{Host}.

Lemma valid_id_num (z : Z) : valid_id (num z) = (0 <=? z) && (z <=? 65535).
Proof.
  unfold valid_id, num. cbn [Number_isInteger ToNumber].
  rewrite is_integral_inject_Z, num_ltb_inject, num_gtb_inject.
  destruct (Z.ltb_spec z 0), (Z.leb_spec 0 z), (Z.ltb_spec 65535 z),
    (Z.leb_spec z 65535); first [reflexivity | lia].
Qed.

Lemma buildObjectPath_passed (classId instanceId attributeId : prim) :
  or_else (validateId classId "Class")
    (or_else (validateId instanceId "Instance")
             (validateId attributeId "Attribute")) = Ok true ->
  buildObjectPath classId instanceId attributeId
    = Ok (path_segment PATH_SEGMENTS.CLASS classId
          ++ path_segment PATH_SEGMENTS.INSTANCE instanceId
          ++ path_segment PATH_SEGMENTS.ATTRIBUTE attributeId).
Proof.
  intros E.
  assert (R : exists buf, buildObjectPath classId instanceId attributeId = Ok buf)
    by (unfold buildObjectPath; rewrite E; eexists; reflexivity).
  destruct R as [buf R]. rewrite R. f_equal. apply buildObjectPath_Ok. exact R.
Qed.

(** X13. Of the identifiers given to [buildObjectPath], only the first one
    that is present, in the order class, instance, attribute, is ever
    validated, and it decides the outcome: with none present the call
    fails with MissingIdentifier; if the first present one is not an
    integer from 0 to 65535 the call fails with the validation error that
    names it; otherwise the call returns the path of all the identifiers
    present, valid or not. *)
Theorem buildObjectPath_first_present_decides (classId instanceId attributeId : prim) :
  match first_present [(classId, "Class"); (instanceId, "Instance");
                       (attributeId, "Attribute")] with
  | None =>
      buildObjectPath classId instanceId attributeId = Throw MissingIdentifier
  | Some (id, name) =>
      if valid_id id
      then buildObjectPath classId instanceId attributeId
             = Ok (path_segment 0x20 classId ++ path_segment 0x24 instanceId
                   ++ path_segment 0x30 attributeId)
      else buildObjectPath classId instanceId attributeId
             = Throw (ValidationError name)
  end.
Proof.
  unfold first_present. cbn [find fst].
  destruct (present classId) eqn:Pc.
  { destruct (valid_id classId) eqn:Vc.
    - apply buildObjectPath_passed. rewrite (validateId_valid _ _ Pc Vc). reflexivity.
    - unfold buildObjectPath. rewrite (validateId_invalid _ _ Pc Vc). reflexivity. }
  destruct (present instanceId) eqn:Pi.
  { destruct (valid_id instanceId) eqn:Vi.
    - apply buildObjectPath_passed.
      rewrite (validateId_absent _ _ Pc), (validateId_valid _ _ Pi Vi). reflexivity.
    - unfold buildObjectPath.
      rewrite (validateId_absent _ _ Pc), (validateId_invalid _ _ Pi Vi). reflexivity. }
  destruct (present attributeId) eqn:Pa.
  { destruct (valid_id attributeId) eqn:Va.
    - apply buildObjectPath_passed.
      rewrite (validateId_absent _ _ Pc), (validateId_absent _ _ Pi),
        (validateId_valid _ _ Pa Va). reflexivity.
    - unfold buildObjectPath.
      rewrite (validateId_absent _ _ Pc), (validateId_absent _ _ Pi),
        (validateId_invalid _ _ Pa Va). reflexivity. }
  apply buildObjectPath_missing; assumption.
Qed.

(** X14. A path holds one byte per identifier, its value modulo 256,
    although identifiers up to 65535 pass the validation: for a class
    identifier from 0 to 65535 and any integers as instance and attribute
    identifiers the call returns the six bytes 20 c 24 i 30 a of the low
    bytes, so that identifiers which agree modulo 256 give the same path. *)
Theorem buildObjectPath_keeps_low_bytes (c c' i i' a a' : Z) :
  0 <= c <= 65535 -> 0 <= c' <= 65535 ->
  c mod 256 = c' mod 256 -> i mod 256 = i' mod 256 -> a mod 256 = a' mod 256 ->
  buildObjectPath (num c) (num i) (num a)
    = Ok [x20; byte_of_Z c; x24; byte_of_Z i; x30; byte_of_Z a] /\
  buildObjectPath (num c') (num i') (num a') = buildObjectPath (num c) (num i) (num a).
Proof.
  assert (P : forall x y z, 0 <= x <= 65535 ->
              buildObjectPath (num x) (num y) (num z)
                = Ok [x20; byte_of_Z (x mod 256); x24; byte_of_Z (y mod 256);
                      x30; byte_of_Z (z mod 256)]).
  { intros x y z R.
    assert (V : valid_id (num x) = true).
    { rewrite valid_id_num. apply andb_true_intro. split; apply Z.leb_le; lia. }
    rewrite buildObjectPath_passed
      by (rewrite (validateId_valid (num x) _ eq_refl V); reflexivity).
    unfold path_segment. cbn [present num app]. rewrite !ToUint8_num.
    reflexivity. }
  intros Rc Rc' Ec Ei Ea. split.
  - rewrite (P c i a Rc), !byte_of_Z_mod. reflexivity.
  - rewrite (P c i a Rc), (P c' i' a' Rc'), Ec, Ei, Ea. reflexivity.
Qed.

End PathsAgain.

Lemma buildObjectPath_keeps_low_bytes_witness :
  @buildObjectPath any_host (num 0x0101) (num 0x0202) (num 3)
    = Ok [x20; x01; x24; x02; x30; x03] /\
  @buildObjectPath any_host (num 1) (num 2) (num 3)
    = @buildObjectPath any_host (num 0x0101) (num 0x0202) (num 3).
Proof.
  apply (@buildObjectPath_keeps_low_bytes any_host 0x0101 1 0x0202 2 3 3);
    first [lia | reflexivity].
Defined.

(** ** The error catalog, again *)

Lemma fold_insert_lookup {V : Type} (entries : list (Z * V)) (m : gmap Z V)
    (k : Z) (v : V) :
  fold_left (fun m kv => <[fst kv := snd kv]> m) entries m !! k = Some v ->
  In (k, v) entries \/ m !! k = Some v.
Proof.
  revert m. induction entries as [|[k' v'] rest IH]; intros m E.
  - right. exact E.
  - cbn [fold_left fst snd] in E. apply IH in E. destruct E as [I|E].
    + left. right. exact I.
    + apply lookup_insert_Some in E. destruct E as [[-> ->]|[_ E]].
      * left. left. reflexivity.
      * right. exact E.
Qed.

(** An entry found in an object literal is one of those written in it. *)
Lemma object_literal_lookup {V : Type} (entries : list (Z * V)) (k : Z) (v : V) :
  object_literal entries !! k = Some v -> In (k, v) entries.
Proof.
  intros E. apply fold_insert_lookup in E. destruct E as [I|E]; [exact I|].
  rewrite lookup_empty in E. discriminate E.
Qed.

(** A property of all the entries written in a literal holds of every
    entry found in it. *)
Lemma object_literal_forall {V : Type} (entries : list (Z * V))
    (p : Z * V -> bool) (k : Z) (v : V) :
  forallb p entries = true ->
  object_literal entries !! k = Some v -> p (k, v) = true.
Proof.
  intros F E. apply object_literal_lookup in E.
  exact (proj1 (forallb_forall p entries) F (k, v) E).
Qed.

(** X15. In both copies of the catalog, the descriptor returned by [parse]
    is named UnknownError exactly when the status code has no entry: no
    entry of either catalog bears that name. *)
Theorem parse_UnknownError_iff (statusCode extendedStatus : Z) :
  (CIPError.name (V1.CIPErrorParser.parse statusCode extendedStatus) = "UnknownError"
     <-> V1.CIP_ERROR_CODES !! statusCode = None) /\
  (CIPError.name (V2.CIPErrorParser.parse statusCode extendedStatus) = "UnknownError"
     <-> V2.CIP_ERROR_CODES !! statusCode = None).
Proof.
  split; (split; [|apply parse_name_unknown]).
  - unfold V1.CIPErrorParser.parse, parse. cbn [CIPError.name].
    destruct (V1.CIP_ERROR_CODES !! statusCode) as [entry|] eqn:E; [|reflexivity].
    intros N. exfalso.
    apply (object_literal_forall _
             (fun kv => negb (String.eqb (fst (snd kv)) "UnknownError"))) in E;
      [|vm_compute; reflexivity].
    cbn [fst snd] in E. rewrite N in E. discriminate E.
  - unfold V2.CIPErrorParser.parse, parse. cbn [CIPError.name].
    destruct (V2.CIP_ERROR_CODES !! statusCode) as [entry|] eqn:E; [|reflexivity].
    intros N. exfalso.
    apply (object_literal_forall _
             (fun kv => negb (String.eqb (fst (snd kv)) "UnknownError"))) in E;
      [|vm_compute; reflexivity].
    cbn [fst snd] in E. rewrite N in E. discriminate E.
Qed.

Lemma parse_UnknownError_iff_witness :
  V1.CIP_ERROR_CODES !! 0x24 = None /\ V2.CIP_ERROR_CODES !! 0x20 = None.
Proof.
  split.
  - apply (proj1 (proj1 (parse_UnknownError_iff 0x24 0))). reflexivity.
  - apply (proj1 (proj2 (parse_UnknownError_iff 0x20 0))). reflexivity.
Defined.

(** X16. The first copy of the catalog writes the key 0x2D twice, and the
    later entry replaces the earlier: no status code whatever is parsed to
    the name InstanceNotDeletable there, 0x2D gives SecondaryMode.  The
    second copy has the two names under 0x2D and 0x2E. *)
Theorem V1_duplicate_key_is_shadowed (statusCode extendedStatus : Z) :
  CIPError.name (V1.CIPErrorParser.parse statusCode extendedStatus)
    <> "InstanceNotDeletable" /\
  CIPError.name (V1.CIPErrorParser.parse 0x2D extendedStatus) = "SecondaryMode" /\
  CIPError.name (V2.CIPErrorParser.parse 0x2D extendedStatus) = "InstanceNotDeletable" /\
  CIPError.name (V2.CIPErrorParser.parse 0x2E extendedStatus) = "SecondaryMode".
Proof.
  split; [|split; [|split]; reflexivity].
  unfold V1.CIPErrorParser.parse, parse. cbn [CIPError.name].
  destruct (V1.CIP_ERROR_CODES !! statusCode) as [entry|] eqn:E; [|discriminate].
  intros N.
  pose proof E as K.
  apply (object_literal_forall _
           (fun kv => implb (String.eqb (fst (snd kv)) "InstanceNotDeletable")
                            (fst kv =? 0x2D))) in K;
    [|vm_compute; reflexivity].
  cbn [fst snd] in K. rewrite N in K. cbn in K. apply Z.eqb_eq in K. subst statusCode.
  vm_compute in E. injection E as <-. discriminate N.
Qed.

(** ** Framing, again *)

Lemma write_int_refused (order : nat -> Z -> list byte) (n : nat) (lo hi v : Z)
    (b : Buffer) (off : nat) :
  v < lo \/ hi < v ->
  write_int order n lo hi b (Fin (inject_Z v)) off = Throw RangeError.
Proof.
  intros R. unfold write_int. rewrite num_gtb_inject, num_ltb_inject.
  destruct (Z.ltb_spec hi v); [reflexivity|].
  destruct (Z.ltb_spec v lo); [reflexivity|lia].
Qed.

Lemma slice_in_prefix (pre post : Buffer) (s e : nat) :
  (s <= e <= length pre)%nat ->
  slice (pre ++ post) (Z.of_nat s) (Z.of_nat e) = slice pre (Z.of_nat s) (Z.of_nat e).
Proof.
  intros R. unfold slice. rewrite !clamp_index_nonneg by lia.
  rewrite length_app.
  rewrite !Z.min_l by lia. rewrite !Nat2Z.id.
  rewrite skipn_app, firstn_app, length_skipn.
  replace (e - s - (length pre - s))%nat with 0%nat by lia.
  replace (s - length pre)%nat with 0%nat by lia.
  rewrite skipn_O, firstn_O. apply app_nil_r.
Qed.

Section FramingAgain.
Context `{Host}.

Lemma buildEncapMessage_out_of_range (params : ConnectionParams)
    (command handle : Z) (senderContext data : Buffer) :
  ~ (0 <= connection_bits params <= 65535 /\ 0 <= command <= 65535 /\
     Z.of_nat (length data) <= 65535 /\ 0 <= handle <= 4294967295) ->
  buildEncapMessage
      {| CipClient.sessionHandle := num handle; CipClient.senderContext := senderContext;
         CipClient.connectionParams := params |} (num command) data
    = Throw RangeError.
Proof.
  intros N. unfold buildEncapMessage.
  cbn [CipClient.connectionParams CipClient.sessionHandle CipClient.senderContext].
  fold (connection_bits params).
  unfold writeUInt16LE, writeUInt32LE.
  change (ToNumber (num command)) with (Fin (inject_Z command)).
  change (ToNumber (num handle)) with (Fin (inject_Z handle)).
  destruct (Z.le_gt_cases 0 (connection_bits params)) as [B0|B0];
    [|rewrite write_int_refused by lia; reflexivity].
  destruct (Z.le_gt_cases (connection_bits params) 65535) as [B1|B1];
    [|rewrite write_int_refused by lia; reflexivity].
  rewrite (write_int_le 2 0 65535 (connection_bits params)) by (simpl; lia).
  cbn [bind].
  destruct (Z.le_gt_cases 0 command) as [C0|C0];
    [|rewrite write_int_refused by lia; reflexivity].
  destruct (Z.le_gt_cases command 65535) as [C1|C1];
    [|rewrite write_int_refused by lia; reflexivity].
  rewrite (write_int_le 2 0 65535 command) by (simpl; lia).
  cbn [bind].
  destruct (Z.le_gt_cases (Z.of_nat (length data)) 65535) as [L|L];
    [|rewrite write_int_refused by lia; reflexivity].
  rewrite (write_int_le 2 0 65535 (Z.of_nat (length data))) by (simpl; lia).
  cbn [bind].
  rewrite write_int_refused by lia. reflexivity.
Qed.

Lemma buildEncapMessage_in_range (params : ConnectionParams) (command handle : Z)
    (senderContext data : Buffer) :
  0 <= connection_bits params <= 65535 ->
  0 <= command <= 65535 ->
  Z.of_nat (length data) <= 65535 ->
  0 <= handle <= 4294967295 ->
  length senderContext = 8%nat ->
  buildEncapMessage
      {| CipClient.sessionHandle := num handle; CipClient.senderContext := senderContext;
         CipClient.connectionParams := params |} (num command) data
    = Ok ((le_bytes 2 command ++ le_bytes 2 (Z.of_nat (length data))
           ++ le_bytes 4 handle ++ le_bytes 4 0 ++ senderContext ++ alloc 4) ++ data).
Proof.
  intros Rb Rc Rl Rh L.
  destruct senderContext as [|c0 [|c1 [|c2 [|c3 [|c4 [|c5 [|c6 [|c7 [|c8 rest]]]]]]]]];
    try discriminate L.
  apply buildEncapMessage_header; assumption.
Qed.

(** X17. [buildEncapMessage] never wraps a field that does not fit.  With
    a sender context of 8 bytes it returns a message exactly when the word
    of connection parameters and the command are in 0..65535, the payload
    has at most 65535 bytes and the session handle is in 0..4294967295,
    and the message is then 24 bytes longer than the payload; in every
    other case it fails with a range error. *)
Theorem buildEncapMessage_returns_iff (params : ConnectionParams)
    (command handle : Z) (senderContext data : Buffer) :
  length senderContext = 8%nat ->
  let this := {| CipClient.sessionHandle := num handle;
                 CipClient.senderContext := senderContext;
                 CipClient.connectionParams := params |} in
  let fits := 0 <= connection_bits params <= 65535 /\ 0 <= command <= 65535 /\
              Z.of_nat (length data) <= 65535 /\ 0 <= handle <= 4294967295 in
  ((exists message, buildEncapMessage this (num command) data = Ok message) <-> fits) /\
  (forall message, buildEncapMessage this (num command) data = Ok message ->
     length message = (24 + length data)%nat) /\
  (~ fits -> buildEncapMessage this (num command) data = Throw RangeError).
Proof.
  intros L this fits.
  assert (D : fits \/ ~ fits) by (unfold fits; lia).
  assert (In_range : fits ->
            buildEncapMessage this (num command) data
              = Ok ((le_bytes 2 command ++ le_bytes 2 (Z.of_nat (length data))
                     ++ le_bytes 4 handle ++ le_bytes 4 0 ++ senderContext
                     ++ alloc 4) ++ data)).
  { intros [Rb [Rc [Rl Rh]]]. apply buildEncapMessage_in_range; assumption. }
  split; [split|split].
  - intros [message E]. destruct D as [F|N]; [exact F|].
    unfold this in E. rewrite (buildEncapMessage_out_of_range _ _ _ _ _ N) in E.
    discriminate E.
  - intros F. eexists. exact (In_range F).
  - intros message E. destruct D as [F|N].
    + pose proof (In_range F) as E'.
      match type of E' with _ = Ok ?m => assert (M : message = m) by congruence end.
      rewrite M, !length_app, !le_bytes_length, L. reflexivity.
    + unfold this in E. rewrite (buildEncapMessage_out_of_range _ _ _ _ _ N) in E.
      discriminate E.
  - apply buildEncapMessage_out_of_range.
Qed.

(** X18. The word of connection parameters that [buildEncapMessage]
    writes at offset 16 never reaches the message: the 8 bytes of the
    sender context, copied to offset 12 afterwards, cover it.  With a
    sender context of 8 bytes, two clients that differ in their connection
    parameters only (both words fitting 16 bits) build the same message,
    and bytes 16 to 19 of the header are bytes 4 to 7 of the sender
    context. *)
Theorem buildEncapMessage_ignores_connectionParams (params params' : ConnectionParams)
    (command handle : Z) (senderContext data : Buffer) :
  0 <= connection_bits params <= 65535 ->
  0 <= connection_bits params' <= 65535 ->
  length senderContext = 8%nat ->
  buildEncapMessage
      {| CipClient.sessionHandle := num handle; CipClient.senderContext := senderContext;
         CipClient.connectionParams := params |} (num command) data
  = buildEncapMessage
      {| CipClient.sessionHandle := num handle; CipClient.senderContext := senderContext;
         CipClient.connectionParams := params' |} (num command) data /\
  (forall message,
     buildEncapMessage
         {| CipClient.sessionHandle := num handle; CipClient.senderContext := senderContext;
            CipClient.connectionParams := params |} (num command) data = Ok message ->
     slice message 16 20 = slice senderContext 4 8).
Proof.
  intros B B' L.
  destruct senderContext as [|c0 [|c1 [|c2 [|c3 [|c4 [|c5 [|c6 [|c7 [|c8 rest]]]]]]]]];
    try discriminate L.
  destruct (Z.le_gt_cases 0 command) as [C0|C0];
    [|rewrite !buildEncapMessage_out_of_range by lia;
      split; [reflexivity|discriminate]].
  destruct (Z.le_gt_cases command 65535) as [C1|C1];
    [|rewrite !buildEncapMessage_out_of_range by lia;
      split; [reflexivity|discriminate]].
  destruct (Z.le_gt_cases (Z.of_nat (length data)) 65535) as [D|D];
    [|rewrite !buildEncapMessage_out_of_range by lia;
      split; [reflexivity|discriminate]].
  destruct (Z.le_gt_cases 0 handle) as [H0|H0];
    [|rewrite !buildEncapMessage_out_of_range by lia;
      split; [reflexivity|discriminate]].
  destruct (Z.le_gt_cases handle 4294967295) as [H1|H1];
    [|rewrite !buildEncapMessage_out_of_range by lia;
      split; [reflexivity|discriminate]].
  rewrite !buildEncapMessage_header by lia. split; [reflexivity|].
  match goal with |- context [Ok (?h ++ data)] => set (header := h) end.
  intros message E. assert (M : message = header ++ data) by congruence.
  subst message.
  etransitivity; [apply (slice_in_prefix header data 16 20)|reflexivity].
  unfold header. rewrite !length_app, !le_bytes_length. simpl. lia.
Qed.

End FramingAgain.

Lemma buildEncapMessage_returns_iff_witness :
  @buildEncapMessage any_host
      {| CipClient.sessionHandle := num (-1); CipClient.senderContext := alloc 8;
         CipClient.connectionParams := connectionParams new_CIPClient |}
      (num 0x0065) [x01; x02]
    = Throw RangeError /\
  exists message,
    @buildEncapMessage any_host new_CIPClient (num 0x0065) [x01; x02] = Ok message.
Proof.
  split.
  - apply (proj2 (proj2 (@buildEncapMessage_returns_iff any_host
                            (connectionParams new_CIPClient) 0x0065 (-1) (alloc 8)
                            [x01; x02] eq_refl))).
    lia.
  - apply (proj2 (proj1 (@buildEncapMessage_returns_iff any_host
                            (connectionParams new_CIPClient) 0x0065 0 (alloc 8)
                            [x01; x02] eq_refl))).
    vm_compute. repeat split; discriminate.
Defined.

Lemma buildEncapMessage_ignores_connectionParams_witness :
  let multicast :=
    {| owner := num CipConnFields.CipConnOwner.REDUNDANT_OWNER;
       type := num CipConnFields.CipConnType.TYPE_MULTICAST;
       priority := num CipConnFields.CipConnPriority.PRIOR_URGENT |} in
  @buildEncapMessage any_host new_CIPClient (num 0x0065) [x01; x02]
  = @buildEncapMessage any_host
      {| CipClient.sessionHandle := num 0; CipClient.senderContext := alloc 8;
         CipClient.connectionParams := multicast |} (num 0x0065) [x01; x02].
Proof.
  intros multicast.
  apply (proj1 (@buildEncapMessage_ignores_connectionParams any_host
                  (connectionParams new_CIPClient) multicast 0x0065 0 (alloc 8)
                  [x01; x02] ltac:(vm_compute; split; discriminate)
                  ltac:(vm_compute; split; discriminate) eq_refl)).
Defined.

(** ** Requests *)

Import CipClientRest.

Section RequestsAgain.
Context `{Host}.
Variable CIPErrorParser_parse : Z -> Z -> CIPError.t.

Lemma ToUint8_half (n : nat) :
  ToUint8 (VNum (Fin (Qmake (Z.of_nat n) 2))) = (Z.of_nat n / 2) mod 256.
Proof.
  unfold ToUint8, to_uint, Qtrunc. cbn [ToNumber Qnum Qden].
  rewrite Z.quot_div_nonneg by lia. reflexivity.
Qed.

Lemma sendCipRequest_run (params : ConnectionParams) (handle : Z)
    (senderContext : Buffer) (serviceCode : Z) (path requestData : Buffer)
    (s : Socket) :
  0 <= connection_bits params <= 65535 ->
  0 <= handle <= 4294967295 ->
  length senderContext = 8%nat ->
  Z.of_nat (2 + length path + length requestData) <= 65535 ->
  let this := {| CipClient.sessionHandle := num handle;
                 CipClient.senderContext := senderContext;
                 CipClient.connectionParams := params |} in
  let message :=
    encap_header 0x0065 (Z.of_nat (2 + length path + length requestData)) handle
      senderContext
    ++ cip_request serviceCode path requestData in
  sendCipRequest this serviceCode path requestData s
    = (match inbound s with
       | [] => Fails (Thrown TimeoutError)
       | reply :: _ => reply_outcome reply
       end, exchanged message s).
Proof.
  intros Rb Rh Lc Ll this message.
  unfold sendCipRequest, mbind, Net_bind, net_bind, pure.
  assert (D : from_array [num serviceCode;
                          VNum (Fin (Qmake (Z.of_nat (length path)) 2))]
              ++ path ++ requestData
              = cip_request serviceCode path requestData).
  { unfold from_array, cip_request. cbn [map app].
    rewrite ToUint8_num, ToUint8_half, !byte_of_Z_mod. reflexivity. }
  rewrite D.
  assert (Ld : length (cip_request serviceCode path requestData)
               = (2 + length path + length requestData)%nat)
    by (unfold cip_request; cbn [length]; rewrite length_app; lia).
  unfold this. rewrite buildEncapMessage_in_range by (rewrite ?Ld; first [assumption|lia]).
  rewrite Ld. cbn [of_result]. fold (encap_header 0x0065
    (Z.of_nat (2 + length path + length requestData)) handle senderContext).
  fold message.
  unfold net_send, net_receive, CipClient.send, CipClient.receive, exchanged.
  cbn [of_result inbound written].
  destruct (inbound s) as [|reply rest]; [destruct s; reflexivity|].
  cbn [of_result tl]. unfold reply_outcome.
  destruct (readUInt32LE reply 8) as [encapStatus|e]; [|reflexivity].
  cbn [of_result]. destruct (Z.eqb_spec encapStatus 0) as [->|N]; cbn [negb].
  - unfold mret, Net_ret, net_ret. do 2 f_equal.
    pose proof (slice_from_skipn reply 24) as S. change (Z.of_nat 24) with 24 in S.
    exact S.
  - reflexivity.
Qed.

Lemma reply_outcome_short (reply : Buffer) :
  (length reply < 12)%nat -> reply_outcome reply = Fails (Thrown RangeError).
Proof.
  intros L. unfold reply_outcome, readUInt32LE, bytes_at.
  destruct (Nat.leb_spec (8 + 4) (length reply)); [lia|reflexivity].
Qed.

Lemma reply_outcome_status (pre status rest : Buffer) :
  length pre = 8%nat -> length status = 4%nat ->
  reply_outcome (pre ++ status ++ rest)
    = if le_value status =? 0 then Returns (skipn 24 (pre ++ status ++ rest))
      else Fails (EncapsulationError (le_value status)).
Proof.
  intros Lp Ls. unfold reply_outcome, readUInt32LE.
  rewrite (bytes_at_app pre status rest 8 4) by (symmetry; assumption).
  reflexivity.
Qed.

(** X19. One request is one exchange.  For a client whose header fields
    fit and a request of at most 65535 bytes, [sendCipRequest] writes
    exactly one message to the socket, an encapsulation header with the
    command 0x65 and the length of the request, followed by the service
    code, half the length of the path (rounded down), the path and the
    request data; it then takes the next chunk from the peer.  Without a
    chunk it fails with the timeout; a chunk of fewer than 12 bytes fails
    with a range error; otherwise the 32-bit word at offset 8 decides:
    when it is 0 the call returns what follows the first 24 bytes of the
    chunk, else it fails with that word as the encapsulation status. *)
Theorem sendCipRequest_exchange (params : ConnectionParams) (handle : Z)
    (senderContext : Buffer) (serviceCode : Z) (path requestData : Buffer)
    (s : Socket) :
  0 <= connection_bits params <= 65535 ->
  0 <= handle <= 4294967295 ->
  length senderContext = 8%nat ->
  Z.of_nat (2 + length path + length requestData) <= 65535 ->
  let this := {| CipClient.sessionHandle := num handle;
                 CipClient.senderContext := senderContext;
                 CipClient.connectionParams := params |} in
  let message :=
    encap_header 0x0065 (Z.of_nat (2 + length path + length requestData)) handle
      senderContext
    ++ cip_request serviceCode path requestData in
  snd (sendCipRequest this serviceCode path requestData s) = exchanged message s /\
  length message = (24 + 2 + length path + length requestData)%nat /\
  (inbound s = [] ->
   fst (sendCipRequest this serviceCode path requestData s)
     = Fails (Thrown TimeoutError)) /\
  (forall reply rest, inbound s = reply :: rest -> (length reply < 12)%nat ->
   fst (sendCipRequest this serviceCode path requestData s)
     = Fails (Thrown RangeError)) /\
  (forall pre status data rest,
     inbound s = (pre ++ status ++ data) :: rest ->
     length pre = 8%nat -> length status = 4%nat ->
     fst (sendCipRequest this serviceCode path requestData s)
       = if le_value status =? 0 then Returns (skipn 12 data)
         else Fails (EncapsulationError (le_value status))).
Proof.
  intros Rb Rh Lc Ll this message.
  unfold this. rewrite sendCipRequest_run by assumption. fold message.
  cbn [fst snd]. split; [reflexivity|]. split.
  { unfold message, encap_header, cip_request.
    rewrite !length_app, !le_bytes_length, Lc. cbn [length alloc repeat].
    rewrite length_app. lia. }
  split; [intros ->; reflexivity|]. split.
  - intros reply rest -> L. apply reply_outcome_short. exact L.
  - intros pre status data rest -> Lp Ls.
    rewrite reply_outcome_status by assumption.
    destruct (le_value status =? 0); [|reflexivity]. f_equal.
    rewrite app_assoc, skipn_app, length_app, Lp, Ls.
    rewrite (skipn_all2 (pre ++ status)) by (rewrite length_app; lia).
    reflexivity.
Qed.

(** X20. [setAttribute] encodes every value as a little-endian DINT.  For
    a client whose header fields fit and a class identifier from 0 to
    65535, an integer value outside the signed 32-bit range makes the call
    fail with a range error before anything is written to the socket; a
    value inside it is sent as the service 0x02 with the three-segment
    path and the four bytes of the value, and the call then returns
    exactly when the reply passes the checks of the exchange and the byte
    that follows its first 24 bytes is 0. *)
Theorem setAttribute_sends_DINT (params : ConnectionParams) (handle : Z)
    (senderContext : Buffer) (c i a v : Z) (s : Socket) :
  0 <= connection_bits params <= 65535 ->
  0 <= handle <= 4294967295 ->
  length senderContext = 8%nat ->
  0 <= c <= 65535 ->
  let this := {| CipClient.sessionHandle := num handle;
                 CipClient.senderContext := senderContext;
                 CipClient.connectionParams := params |} in
  let message :=
    encap_header 0x0065 12 handle senderContext
    ++ [x02; x03; x20; byte_of_Z c; x24; byte_of_Z i; x30; byte_of_Z a]
    ++ le_bytes 4 v in
  (v < - 2147483648 \/ 2147483647 < v ->
   setAttribute CIPErrorParser_parse this (num c) (num i) (num a) (num v) s
     = (Fails (Thrown RangeError), s)) /\
  (- 2147483648 <= v <= 2147483647 ->
   snd (setAttribute CIPErrorParser_parse this (num c) (num i) (num a) (num v) s)
     = exchanged message s /\
   (fst (setAttribute CIPErrorParser_parse this (num c) (num i) (num a) (num v) s)
      = Returns tt <->
    exists reply rest more,
      inbound s = reply :: rest /\ reply_outcome reply = Returns (x00 :: more))).
Proof.
  intros Rb Rh Lc Rc this message.
  assert (P : buildObjectPath (num c) (num i) (num a)
              = Ok [x20; byte_of_Z c; x24; byte_of_Z i; x30; byte_of_Z a]).
  { assert (V : valid_id (num c) = true).
    { rewrite valid_id_num. apply andb_true_intro. split; apply Z.leb_le; lia. }
    rewrite buildObjectPath_passed
      by (rewrite (validateId_valid (num c) _ eq_refl V); reflexivity).
    unfold path_segment. cbn [present num app].
    rewrite !ToUint8_num, !byte_of_Z_mod. reflexivity. }
  split.
  - intros R. unfold setAttribute, mbind, Net_bind, net_bind, pure.
    rewrite P. cbn [of_result].
    assert (E : encodeData (num v) DINT false = Throw RangeError).
    { unfold encodeData. simpl Z.eqb. cbv iota. simpl orb. cbv iota.
      change (ToNumber (num v)) with (Fin (inject_Z v)).
      unfold writeInt32LE. apply write_int_refused. exact R. }
    rewrite E. reflexivity.
  - intros R. unfold setAttribute, mbind, Net_bind, net_bind, pure.
    rewrite P, (encodeData_DINT v false R). cbn [of_result].
    unfold this. rewrite sendCipRequest_run
      by (rewrite ?le_bytes_length; cbn [length]; first [assumption|lia]).
    rewrite le_bytes_length. cbn [length Nat.add].
    change (cip_request CIP_SERVICES.SET_ATTRIBUTES
              [x20; byte_of_Z c; x24; byte_of_Z i; x30; byte_of_Z a] (le_bytes 4 v))
      with ([x02; x03; x20; byte_of_Z c; x24; byte_of_Z i; x30; byte_of_Z a]
            ++ le_bytes 4 v).
    change (Z.of_nat 12) with 12. fold message.
    destruct (inbound s) as [|reply rest] eqn:I.
    + cbn [fst snd]. split; [reflexivity|]. split; [discriminate|].
      intros [reply [rest [more [D _]]]]. discriminate D.
    + destruct (reply_outcome reply) as [cipResponse|f] eqn:O; cbn [fst snd].
      * split; [reflexivity|]. unfold parseSetAttributeResponse.
        destruct cipResponse as [|x more].
        { cbn. split; [discriminate|].
          intros [reply' [rest' [more [D O']]]]. injection D as <- <-.
          rewrite O in O'. discriminate O'. }
        cbn [length Nat.ltb Nat.leb]. rewrite readUInt8_cons.
        destruct (Z.eqb_spec (Z_of_byte x) 0) as [Z0|N]; cbn [negb].
        { split; [|reflexivity]. intros _. exists reply, rest, more.
          split; [reflexivity|]. rewrite O. do 2 f_equal.
          rewrite <- (byte_of_Z_of_byte x), Z0. reflexivity. }
        split; [discriminate|].
        intros [reply' [rest' [more' [D O']]]]. injection D as <- <-.
        rewrite O in O'. injection O' as -> _. exfalso. apply N. reflexivity.
      * split; [reflexivity|]. split; [discriminate|].
        intros [reply' [rest' [more [D O']]]]. injection D as <- <-.
        rewrite O in O'. discriminate O'.
Qed.

Lemma sendCipRequest_written (this : CIPClient) (serviceCode : Z)
    (path requestData : Buffer) (s : Socket) :
  (length (written (snd (sendCipRequest this serviceCode path requestData s)))
   <= length (written s) + 1)%nat.
Proof.
  unfold sendCipRequest, mbind, Net_bind, net_bind, pure.
  destruct (buildEncapMessage this _ _) as [message|e]; cbn [of_result snd];
    [|lia].
  unfold net_send, net_receive, CipClient.send, CipClient.receive.
  cbn [of_result inbound written].
  destruct (inbound s) as [|reply rest]; cbn [of_result snd written].
  - rewrite length_app. cbn [length]. lia.
  - destruct (readUInt32LE reply 8) as [encapStatus|e]; cbn [of_result snd written].
    + destruct (negb (encapStatus =? 0)); unfold mret, Net_ret, net_ret;
        cbn [snd written]; rewrite length_app; cbn [length]; lia.
    + rewrite length_app. cbn [length]. lia.
Qed.

Lemma getAttribute_fails (this : CIPClient) (classId instanceId attributeId : prim)
    (s : Socket) :
  (exists f,
     fst (getAttribute CIPErrorParser_parse no_globals this classId instanceId
            attributeId s) = Fails f) /\
  (length (written (snd (getAttribute CIPErrorParser_parse no_globals this classId
                           instanceId attributeId s)))
   <= length (written s) + 1)%nat.
Proof.
  unfold getAttribute, mbind, Net_bind, net_bind, pure.
  destruct (buildObjectPath classId instanceId attributeId) as [path|e];
    cbn [of_result]; [|split; [eexists; reflexivity|cbn [snd]; lia]].
  pose proof (sendCipRequest_written this CIP_SERVICES.GET_ATTRIBUTES path (alloc 0) s)
    as W.
  destruct (sendCipRequest this CIP_SERVICES.GET_ATTRIBUTES path (alloc 0) s)
    as [[cipResponse|f] s'].
  - cbn [fst snd] in *. split; [eexists; reflexivity|exact W].
  - cbn [fst snd] in *. split; [eexists; reflexivity|exact W].
Qed.

(** X21. Where nothing binds the global [classId], as in a process that
    has loaded the library's modules only, [getAttribute] never returns a
    value: it fails before or during the exchange, or, with a reply that
    passes every check of the exchange, in [parseAttributeResponse] with
    the reference error for [classId].  [getIdentityInfo] starts with such
    a call, so it never returns either, and of its three requests at most
    the first is ever written to the socket. *)
Theorem getAttribute_never_returns (this : CIPClient) (s : Socket) :
  (forall classId instanceId attributeId,
     exists f,
       fst (getAttribute CIPErrorParser_parse no_globals this classId instanceId
              attributeId s) = Fails f) /\
  (forall classId instanceId attributeId path cipResponse s',
     buildObjectPath classId instanceId attributeId = Ok path ->
     sendCipRequest this CIP_SERVICES.GET_ATTRIBUTES path (alloc 0) s
       = (Returns cipResponse, s') ->
     getAttribute CIPErrorParser_parse no_globals this classId instanceId
       attributeId s = (Fails (Thrown (ReferenceError "classId")), s')) /\
  (exists f,
     fst (getIdentityInfo CIPErrorParser_parse no_globals this s) = Fails f) /\
  (length (written (snd (getIdentityInfo CIPErrorParser_parse no_globals this s)))
   <= length (written s) + 1)%nat.
Proof.
  split; [intros; apply getAttribute_fails|]. split.
  { intros classId instanceId attributeId path cipResponse s' P E.
    unfold getAttribute, mbind, Net_bind, net_bind, pure.
    rewrite P. cbn [of_result]. rewrite E. reflexivity. }
  unfold getIdentityInfo, mbind, Net_bind, net_bind.
  destruct (getAttribute_fails this (num CIP_CLASS_IDS.IDENTITY) (num 1) (num 1) s)
    as [[f F] W].
  destruct (getAttribute CIPErrorParser_parse no_globals this
              (num CIP_CLASS_IDS.IDENTITY) (num 1) (num 1) s) as [r s'].
  cbn [fst snd] in *. subst r. cbn [fst snd].
  split; [eexists; reflexivity|exact W].
Qed.

End RequestsAgain.

Lemma sendCipRequest_exchange_witness :
  let s := {| written := []; inbound := [repeat x00 24 ++ [x00; x2a]] |} in
  fst (@sendCipRequest any_host new_CIPClient 0x01 [x20; x01; x24; x01; x30; x01] [] s)
    = Returns [x00; x2a] /\
  written (snd (@sendCipRequest any_host new_CIPClient 0x01
                  [x20; x01; x24; x01; x30; x01] [] s))
    = [encap_header 0x0065 8 0 (alloc 8)
       ++ [x01; x03; x20; x01; x24; x01; x30; x01]].
Proof.
  intros s.
  destruct (@sendCipRequest_exchange any_host (connectionParams new_CIPClient) 0
              (alloc 8) 0x01 [x20; x01; x24; x01; x30; x01] [] s
              ltac:(vm_compute; split; discriminate) ltac:(lia) eq_refl
              ltac:(simpl; lia))
    as [W [_ [_ [_ R]]]].
  split.
  - exact (R (repeat x00 8) (repeat x00 4) (repeat x00 12 ++ [x00; x2a]) []
             eq_refl eq_refl eq_refl).
  - change new_CIPClient
      with {| CipClient.sessionHandle := num 0; CipClient.senderContext := alloc 8;
              CipClient.connectionParams := connectionParams new_CIPClient |}.
    rewrite W. reflexivity.
Defined.

Lemma setAttribute_sends_DINT_witness :
  let s := {| written := []; inbound := [repeat x00 24 ++ [x00]] |} in
  @setAttribute any_host V2.CIPErrorParser.parse new_CIPClient
      (num 1) (num 1) (num 7) (num 4294967296) s
    = (Fails (Thrown RangeError), s) /\
  written (snd (@setAttribute any_host V2.CIPErrorParser.parse new_CIPClient
                  (num 1) (num 1) (num 7) (num 5) s))
    = [encap_header 0x0065 12 0 (alloc 8)
       ++ [x02; x03; x20; x01; x24; x01; x30; x07] ++ [x05; x00; x00; x00]] /\
  fst (@setAttribute any_host V2.CIPErrorParser.parse new_CIPClient
         (num 1) (num 1) (num 7) (num 5) s) = Returns tt.
Proof.
  intros s.
  assert (B : 0 <= @connection_bits any_host (connectionParams new_CIPClient) <= 65535)
    by (vm_compute; split; discriminate).
  split; [|split].
  - apply (proj1 (@setAttribute_sends_DINT any_host V2.CIPErrorParser.parse
                    (connectionParams new_CIPClient) 0 (alloc 8) 1 1 7 4294967296 s
                    B ltac:(lia) eq_refl ltac:(lia))).
    right. lia.
  - destruct (proj2 (@setAttribute_sends_DINT any_host V2.CIPErrorParser.parse
                       (connectionParams new_CIPClient) 0 (alloc 8) 1 1 7 5 s
                       B ltac:(lia) eq_refl ltac:(lia)) ltac:(lia)) as [W _].
    change new_CIPClient
      with {| CipClient.sessionHandle := num 0; CipClient.senderContext := alloc 8;
              CipClient.connectionParams := connectionParams new_CIPClient |}.
    rewrite W. reflexivity.
  - destruct (proj2 (@setAttribute_sends_DINT any_host V2.CIPErrorParser.parse
                       (connectionParams new_CIPClient) 0 (alloc 8) 1 1 7 5 s
                       B ltac:(lia) eq_refl ltac:(lia)) ltac:(lia)) as [_ R].
    apply R. exists (repeat x00 24 ++ [x00]), [], []. split; reflexivity.
Defined.

Lemma getAttribute_never_returns_witness :
  let s := {| written := [];
              inbound := [repeat x00 24 ++ [x00; x00; x00; xc1; x01]] |} in
  exists s',
    @getAttribute any_host V2.CIPErrorParser.parse no_globals new_CIPClient
        (num 1) (num 1) (num 1) s
      = (Fails (Thrown (ReferenceError "classId")), s').
Proof.
  intros s. eexists.
  apply (proj1 (proj2 (@getAttribute_never_returns any_host V2.CIPErrorParser.parse
                         new_CIPClient s))
           (num 1) (num 1) (num 1) [x20; x01; x24; x01; x30; x01]
           [x00; x00; x00; xc1; x01]);
    reflexivity.
Defined.

(** ** The secure session, again *)

Import SecureCipClientRest.

Lemma slice_middle (pre mid post : Buffer) :
  (0 < length post)%nat ->
  slice (pre ++ mid ++ post) (Z.of_nat (length pre)) (- Z.of_nat (length post)) = mid.
Proof.
  intros P. unfold slice, clamp_index. rewrite !length_app.
  replace (Z.of_nat (length pre) <? 0) with false by (symmetry; apply Z.ltb_ge; lia).
  replace (- Z.of_nat (length post) <? 0) with true by (symmetry; apply Z.ltb_lt; lia).
  rewrite Z.min_l by lia. rewrite Z.max_l by lia. rewrite Nat2Z.id.
  replace (Z.to_nat (Z.of_nat (length pre + (length mid + length post))
                     + - Z.of_nat (length post)) - length pre)%nat
    with (length mid) by lia.
  rewrite skipn_app, Nat.sub_diag, skipn_all, skipn_O, app_nil_l.
  rewrite firstn_app, Nat.sub_diag, firstn_all, firstn_O, app_nil_r. reflexivity.
Qed.

Lemma slice_from_last (pre post : Buffer) :
  (0 < length post)%nat ->
  slice_from (pre ++ post) (- Z.of_nat (length post)) = post.
Proof.
  intros P. unfold slice_from, slice, clamp_index. rewrite !length_app.
  replace (- Z.of_nat (length post) <? 0) with true by (symmetry; apply Z.ltb_lt; lia).
  replace (Z.of_nat (length pre + length post) <? 0) with false
    by (symmetry; apply Z.ltb_ge; lia).
  rewrite Z.min_id, Z.max_l by lia. rewrite Nat2Z.id.
  replace (Z.to_nat (Z.of_nat (length pre + length post) + - Z.of_nat (length post)))
    with (length pre) by lia.
  rewrite skipn_app, Nat.sub_diag, skipn_all, skipn_O, app_nil_l.
  apply firstn_all2. lia.
Qed.

Lemma slice_24_m12_length (chunk : Buffer) :
  (length (slice chunk 24 (-12)) = length chunk - 36)%nat.
Proof.
  unfold slice, clamp_index. rewrite length_firstn, length_skipn.
  change (24 <? 0) with false. change (-12 <? 0) with true. cbv iota. lia.
Qed.

(** What the [receive] of [CIPClient] gives. *)
Lemma CipClient_receive_cases (s : Socket) :
  CipClient.receive s
    = match inbound s with
      | [] => (Throw TimeoutError, s)
      | chunk :: rest => (Ok chunk, {| written := written s; inbound := rest |})
      end.
Proof. reflexivity. Qed.

Section SessionAgain.
Variable hmac_sha256 : Buffer -> Buffer -> Buffer.

(** The three checks that [receiveWithValidation] runs on a chunk. *)
Lemma receiveWithValidation_run (members : Members)
    (transport : Socket -> result Buffer * Socket) (w : World) (r : result Buffer)
    (s' : Socket) :
  receive_member members = Some transport ->
  transport (socket w) = (r, s') ->
  receiveWithValidation hmac_sha256 members w
    = (match r with
       | Throw e => Throw e
       | Ok chunk =>
           if (length chunk <? 24)%nat then Throw InvalidLength
           else match readUInt32LE chunk 4 with
                | Throw e => Throw e
                | Ok handle =>
                    if negb (handle =? sessionHandle (this w))
                    then Throw SessionHandleMismatch
                    else if negb (equals
                                    (slice (hmac_sha256 (sessionNonce (this w))
                                              (slice chunk 24 (-12))) 0 8)
                                    (slice_from chunk (-8)))
                         then Throw SecurityError
                         else Ok (slice chunk 24 (-12))
                end
       end,
       {| this := this w; socket := s' |}).
Proof.
  intros Rm T. unfold receiveWithValidation, mbind, M_bind, bindM, receive.
  rewrite Rm, T. destruct r as [chunk|e]; [|reflexivity].
  destruct (length chunk <? 24)%nat; [reflexivity|].
  unfold lift. destruct (readUInt32LE chunk 4) as [handle|e]; [|reflexivity].
  unfold get_this. cbn [this].
  destruct (negb (handle =? sessionHandle (this w))); [reflexivity|].
  unfold calculateMac, mbind, M_bind, bindM, get_this, ret. cbn [this].
  destruct (negb (equals _ _)); reflexivity.
Qed.

Lemma receiveWithValidation_no_receive (members : Members) (w : World) :
  receive_member members = None ->
  receiveWithValidation hmac_sha256 members w
    = (Throw (TypeError "this.receive is not a function"), w).
Proof.
  intros Rm. unfold receiveWithValidation, mbind, M_bind, bindM, receive.
  rewrite Rm. reflexivity.
Qed.

(** X22. [receiveWithValidation] never changes the fields of the client,
    and leaves the socket as the [receive] of the object has left it.  On
    an object of the class as it is, which has no [receive], the call
    fails with a TypeError before any check and touches nothing.  On an
    object that carries a [receive], a failure of [receive] is the failure
    of the call; a chunk of fewer than 24 bytes fails InvalidLength; a
    32-bit word at offset 4 that is not the session handle fails
    SessionHandleMismatch; and otherwise the call returns the bytes from
    24 up to the last 12 exactly when the last 8 bytes of the chunk are the
    first 8 bytes of the HMAC of those bytes under the nonce, and fails
    with the security error if they are not. *)
Theorem receiveWithValidation_checks (members : Members) (w : World) :
  (receive_member members = None ->
   receiveWithValidation hmac_sha256 members w
     = (Throw (TypeError "this.receive is not a function"), w)) /\
  receiveWithValidation hmac_sha256 as_shipped w
    = (Throw (TypeError "this.receive is not a function"), w) /\
  (forall transport r s',
     receive_member members = Some transport ->
     transport (socket w) = (r, s') ->
     snd (receiveWithValidation hmac_sha256 members w)
       = {| this := this w; socket := s' |} /\
     (forall e, r = Throw e ->
        fst (receiveWithValidation hmac_sha256 members w) = Throw e) /\
     (forall chunk, r = Ok chunk -> (length chunk < 24)%nat ->
        fst (receiveWithValidation hmac_sha256 members w) = Throw InvalidLength) /\
     (forall chunk handle, r = Ok chunk -> (24 <= length chunk)%nat ->
        readUInt32LE chunk 4 = Ok handle -> handle <> sessionHandle (this w) ->
        fst (receiveWithValidation hmac_sha256 members w)
          = Throw SessionHandleMismatch) /\
     (forall chunk, r = Ok chunk -> (24 <= length chunk)%nat ->
        readUInt32LE chunk 4 = Ok (sessionHandle (this w)) ->
        let payload := slice chunk 24 (-12) in
        (slice (hmac_sha256 (sessionNonce (this w)) payload) 0 8
           = slice_from chunk (-8) ->
         fst (receiveWithValidation hmac_sha256 members w) = Ok payload) /\
        (slice (hmac_sha256 (sessionNonce (this w)) payload) 0 8
           <> slice_from chunk (-8) ->
         fst (receiveWithValidation hmac_sha256 members w) = Throw SecurityError))).
Proof.
  split; [apply receiveWithValidation_no_receive|].
  split; [apply receiveWithValidation_no_receive; reflexivity|].
  intros transport r s' Rm T.
  rewrite (receiveWithValidation_run members transport w r s' Rm T).
  cbn [fst snd]. split; [reflexivity|]. split; [|split; [|split]].
  - intros e ->. reflexivity.
  - intros chunk -> L. apply Nat.ltb_lt in L. rewrite L. reflexivity.
  - intros chunk handle -> L R N. apply Nat.ltb_ge in L. rewrite L, R.
    apply Z.eqb_neq in N. rewrite N. reflexivity.
  - intros chunk -> L R. apply Nat.ltb_ge in L.
    rewrite L, R, Z.eqb_refl. cbn [negb]. unfold equals. split.
    + intros Ag. rewrite bool_decide_eq_true_2 by exact Ag. reflexivity.
    + intros Ng. rewrite bool_decide_eq_false_2 by exact Ng. reflexivity.
Qed.

(** Past the guards, a counter that no longer fits 32 bits once
    incremented: the write of the counter is refused. *)
Lemma sendSecureData_counter_refused (members : Members) (w : World) (data : Buffer)
    (now : Z) :
  point_to_point (this w) = true -> sessionActive (this w) = true ->
  4294967295 <= sequenceNumber (securityContext (this w)) ->
  sendSecureData hmac_sha256 members data now w
    = (Throw RangeError,
       {| this := set_sequenceNumber
                    (increment (sequenceNumber (securityContext (this w)))) (this w);
          socket := socket w |}).
Proof.
  intros P A O. unfold point_to_point in P.
  unfold sendSecureData, mbind, M_bind, bindM, get_this. rewrite P, A.
  cbn [negb]. cbv iota. unfold set_this, lift.
  pose proof (increment_past_32_bits _ O) as Past.
  unfold writeUInt32LE. rewrite write_int_refused by lia. reflexivity.
Qed.

(** X23. A call of [sendSecureData] that fails on the counter still
    counts, whatever the object carries as [buildEncapHeader] and [send],
    which are not reached.  When the sequence number is 4294967295 or more,
    the call, past its two guards, fails with a range error and leaves the
    socket as it was, but leaves the incremented number in the client, so
    that every later call fails in the same way.  The incremented number is
    one more than before as long as the number is below 2^53; at 2^53 the
    increment of a double changes nothing. *)
Theorem sendSecureData_counter_overflow (members : Members) (w : World)
    (data : Buffer) (now : Z) :
  point_to_point (this w) = true -> sessionActive (this w) = true ->
  4294967295 <= sequenceNumber (securityContext (this w)) ->
  let w' := snd (sendSecureData hmac_sha256 members data now w) in
  fst (sendSecureData hmac_sha256 members data now w) = Throw RangeError /\
  socket w' = socket w /\
  (sequenceNumber (securityContext (this w)) < 2 ^ 53 ->
   sequenceNumber (securityContext (this w'))
     = sequenceNumber (securityContext (this w)) + 1) /\
  (sequenceNumber (securityContext (this w)) = 2 ^ 53 ->
   sequenceNumber (securityContext (this w')) = 2 ^ 53) /\
  (forall data' now',
     fst (sendSecureData hmac_sha256 members data' now' w') = Throw RangeError).
Proof.
  intros P A O. cbv zeta.
  rewrite (sendSecureData_counter_refused members w data now P A O).
  cbn [fst snd this socket set_sequenceNumber set_securityContext securityContext
       sequenceNumber].
  split; [reflexivity|]. split; [reflexivity|]. split; [|split].
  - intros B. apply increment_exact. lia.
  - intros ->. reflexivity.
  - intros data' now'. rewrite sendSecureData_counter_refused; [reflexivity|..].
    + exact P.
    + exact A.
    + cbn [this set_sequenceNumber set_securityContext securityContext
           sequenceNumber].
      pose proof (increment_past_32_bits _ O). lia.
Qed.

(** X24. The two ends of the protocol do not agree on what the MAC
    covers.  [sendSecureData] computes it over the data followed by the
    sequence number; [receiveWithValidation] recomputes it over the
    payload alone, that is without the sequence number.  Take a sender
    that has been given what the class lacks, a [buildEncapHeader] (of 24
    bytes, with the session handle at offset 4) and the [send] of
    [CIPClient], and a receiver with the same nonce and handle whose
    [receive] hands over the packet that the sender has written: the
    packet is accepted, and the data returned, exactly when the two
    digests happen to agree on their first 8 bytes; in every other case it
    is refused as a MAC failure. *)
Theorem sent_packet_fails_validation (sender_members receiver_members : Members)
    (header : SecureCIPClient -> Buffer)
    (transport : Socket -> result Buffer * Socket)
    (sender receiver : World) (data : Buffer) (now : Z)
    (packet : Buffer) (s' : Socket) :
  (forall key message, length (hmac_sha256 key message) = 32%nat) ->
  buildEncapHeader_member sender_members = Some header ->
  send_member sender_members = Some CipClient.send ->
  point_to_point (this sender) = true -> sessionActive (this sender) = true ->
  let n := sequenceNumber (securityContext (this sender)) + 1 in
  0 <= n <= 4294967295 ->
  length (header (set_sequenceNumber n (this sender))) = 24%nat ->
  readUInt32LE (header (set_sequenceNumber n (this sender))) 4
    = Ok (sessionHandle (this receiver)) ->
  sessionNonce (this receiver) = sessionNonce (this sender) ->
  CipClient.written (socket sender) = [] ->
  CipClient.written
    (socket (snd (sendSecureData hmac_sha256 sender_members data now sender)))
    = [packet] ->
  receive_member receiver_members = Some transport ->
  transport (socket receiver) = (Ok packet, s') ->
  let nonce := sessionNonce (this sender) in
  let agree := firstn 8 (hmac_sha256 nonce data)
               = firstn 8 (hmac_sha256 nonce (data ++ le_bytes 4 n)) in
  (agree ->
   fst (receiveWithValidation hmac_sha256 receiver_members receiver) = Ok data) /\
  (~ agree ->
   fst (receiveWithValidation hmac_sha256 receiver_members receiver)
     = Throw SecurityError).
Proof.
  intros Ld Hm Sm P A n Rn Lh Rh En W Wp Rm T nonce agree.
  rewrite (sendSecureData_equipped hmac_sha256 sender_members header sender data now
             Hm Sm P A Rn) in Wp.
  cbn [snd socket CipClient.written] in Wp. rewrite W in Wp. cbn [app] in Wp.
  fold n nonce in Wp.
  set (hdr := header (set_sequenceNumber n (this sender))) in *.
  set (mac := firstn 8 (hmac_sha256 nonce (data ++ le_bytes 4 n))) in *.
  assert (Pk : packet = hdr ++ data ++ le_bytes 4 n ++ mac) by congruence.
  assert (Lm : length mac = 8%nat)
    by (unfold mac; rewrite length_firstn, Ld; reflexivity).
  rewrite (receiveWithValidation_run receiver_members transport receiver _ s' Rm T).
  cbn [fst]. rewrite Pk.
  replace (length (hdr ++ data ++ le_bytes 4 n ++ mac) <? 24)%nat with false
    by (symmetry; apply Nat.ltb_ge; rewrite length_app; lia).
  assert (R4 : readUInt32LE (hdr ++ data ++ le_bytes 4 n ++ mac) 4
               = Ok (sessionHandle (this receiver))).
  { unfold readUInt32LE in *.
    destruct (bytes_at hdr 4 4) as [bs|e] eqn:B; [|discriminate Rh].
    assert (B' : bytes_at (hdr ++ data ++ le_bytes 4 n ++ mac) 4 4 = Ok bs).
    { unfold bytes_at in *. rewrite length_app.
      destruct (Nat.leb_spec (4 + 4) (length hdr)); [|discriminate B].
      destruct (Nat.leb_spec (4 + 4) (length hdr + length (data ++ le_bytes 4 n ++ mac)));
        [|lia].
      injection B as <-. f_equal.
      rewrite skipn_app, firstn_app, length_skipn.
      replace (4 - (length hdr - 4))%nat with 0%nat by lia.
      rewrite firstn_O. apply app_nil_r. }
    rewrite B'. exact Rh. }
  rewrite R4, Z.eqb_refl. cbn [negb].
  assert (Sp : slice (hdr ++ data ++ le_bytes 4 n ++ mac) 24 (-12) = data).
  { pose proof (slice_middle hdr data (le_bytes 4 n ++ mac)) as S.
    rewrite length_app, le_bytes_length, Lm, Lh in S.
    apply S. lia. }
  assert (Sm' : slice_from (hdr ++ data ++ le_bytes 4 n ++ mac) (-8) = mac).
  { pose proof (slice_from_last (hdr ++ data ++ le_bytes 4 n) mac) as S.
    rewrite Lm in S. rewrite <- !app_assoc in S. apply S. lia. }
  rewrite Sp, Sm', En. fold nonce.
  pose proof (slice_prefix (hmac_sha256 nonce data) 8) as S8.
  change (Z.of_nat 8) with 8 in S8. rewrite S8.
  unfold equals. split.
  - intros Ag. rewrite bool_decide_eq_true_2 by exact Ag. reflexivity.
  - intros Ng. rewrite bool_decide_eq_false_2 by exact Ng. reflexivity.
Qed.

End SessionAgain.

Lemma receiveWithValidation_checks_witness :
  let hmac := fun (_ _ : Buffer) => repeat x00 32 in
  let c := {| sessionNonce := repeat x07 16; sessionHandle := 0;
              sessionActive := true;
              securityContext := {| lastActivity := 0; sequenceNumber := 0 |};
              connectionType := num 0x4000 |} in
  let w := {| this := c;
              socket := {| CipClient.written := [];
                           CipClient.inbound := [[x01; x02]] |} |} in
  receiveWithValidation hmac as_shipped w
    = (Throw (TypeError "this.receive is not a function"), w) /\
  receiveWithValidation hmac (with_transport None) w
    = (Throw InvalidLength,
       {| this := c;
          socket := {| CipClient.written := []; CipClient.inbound := [] |} |}).
Proof.
  intros hmac c w. split.
  - exact (proj1 (receiveWithValidation_checks hmac as_shipped w) eq_refl).
  - destruct (proj2 (proj2 (receiveWithValidation_checks hmac (with_transport None) w))
                CipClient.receive (Ok [x01; x02])
                {| CipClient.written := []; CipClient.inbound := [] |}
                eq_refl eq_refl) as [S [_ [F _]]].
    rewrite (surjective_pairing (receiveWithValidation hmac (with_transport None) w)).
    rewrite S, (F [x01; x02] eq_refl); [reflexivity|simpl; lia].
Defined.

Lemma sendSecureData_counter_overflow_witness :
  let hmac := fun (_ _ : Buffer) => repeat x00 32 in
  let c := {| sessionNonce := repeat x07 16; sessionHandle := 0;
              sessionActive := true;
              securityContext := {| lastActivity := 0; sequenceNumber := 4294967295 |};
              connectionType := num 0x4000 |} in
  let w := {| this := c;
              socket := {| CipClient.written := []; CipClient.inbound := [] |} |} in
  fst (sendSecureData hmac as_shipped [x01] 5 w) = Throw RangeError /\
  sequenceNumber
    (securityContext (this (snd (sendSecureData hmac as_shipped [x01] 5 w))))
    = 4294967296.
Proof.
  intros hmac c w.
  destruct (sendSecureData_counter_overflow hmac as_shipped w [x01] 5 eq_refl eq_refl
              ltac:(simpl; lia)) as [F [_ [N _]]].
  split; [exact F|]. apply N. simpl. lia.
Defined.

Lemma sent_packet_fails_validation_witness :
  let hmac := fun (_ message : Buffer) =>
                repeat (byte_of_Z (Z.of_nat (length message))) 32 in
  let header := fun (_ : SecureCIPClient) => repeat x00 24 in
  let c := {| sessionNonce := repeat x07 16; sessionHandle := 0;
              sessionActive := true;
              securityContext := {| lastActivity := 0; sequenceNumber := 0 |};
              connectionType := num 0x4000 |} in
  let sender := {| this := c;
                   socket := {| CipClient.written := [];
                                CipClient.inbound := [] |} |} in
  let packet := repeat x00 24 ++ [x2a] ++ [x01; x00; x00; x00] ++ repeat x05 8 in
  let receiver :=
    {| this := c;
       socket := {| CipClient.written := []; CipClient.inbound := [packet] |} |} in
  CipClient.written
    (socket (snd (sendSecureData hmac (with_transport (Some header)) [x2a] 9 sender)))
    = [packet] /\
  fst (receiveWithValidation hmac (with_transport None) receiver)
    = Throw SecurityError.
Proof.
  intros hmac header c sender packet receiver.
  split; [reflexivity|].
  apply (proj2 (sent_packet_fails_validation hmac (with_transport (Some header))
                  (with_transport None) header CipClient.receive sender receiver
                  [x2a] 9 packet
                  {| CipClient.written := []; CipClient.inbound := [] |}
                  ltac:(intros; apply repeat_length) eq_refl eq_refl eq_refl eq_refl
                  ltac:(simpl; lia) eq_refl eq_refl eq_refl eq_refl eq_refl
                  eq_refl eq_refl)).
  intros C. vm_compute in C. discriminate C.
Defined.

Section Handshake.
Variable hmac_sha256 : Buffer -> Buffer -> Buffer.

Lemma buildRegistrationPacket_run (w : World) :
  length (sessionNonce (this w)) = 16%nat ->
  buildRegistrationPacket w
    = (Ok ([x65; x00; x04; x00] ++ sessionNonce (this w) ++ alloc 8), w).
Proof.
  intros L. unfold buildRegistrationPacket, mbind, M_bind, bindM, get_this, lift, ret.
  destruct (sessionNonce (this w))
    as [|n0 [|n1 [|n2 [|n3 [|n4 [|n5 [|n6 [|n7 [|n8 [|n9 [|n10 [|n11 [|n12 [|n13
        [|n14 [|n15 [|n16 rest]]]]]]]]]]]]]]]]]; try discriminate L.
  reflexivity.
Qed.

(** The handshake, step by step, on an object that has been given the
    [send] and [receive] of [CIPClient]. *)
Lemma establishSecureSession_run (header : option (SecureCIPClient -> Buffer))
    (w : World) (packet : Buffer) :
  sessionActive (this w) = false ->
  buildRegistrationPacket w = (Ok packet, w) ->
  let w1 := {| this := this w;
               socket := {| CipClient.written :=
                              CipClient.written (socket w) ++ [packet];
                            CipClient.inbound := CipClient.inbound (socket w) |} |} in
  establishSecureSession hmac_sha256 (with_transport header) w
    = match receiveWithValidation hmac_sha256 (with_transport header) w1 with
      | (Throw e, w2) => (Throw e, w2)
      | (Ok response, w2) =>
          if (length response <? 8)%nat then (Throw SessionRegistrationFailed, w2)
          else match readUInt32LE response 4 with
               | Throw e => (Throw e, w2)
               | Ok statusCode =>
                   if statusCode =? 0
                   then (Ok tt,
                         {| this := set_sessionActive true
                                      (set_sequenceNumber 0
                                         (set_sessionHandle 0 (this w2)));
                            socket := socket w2 |})
                   else (Throw SessionRegistrationFailed, w2)
               end
      end.
Proof.
  intros A B. cbv zeta.
  unfold establishSecureSession, mbind, M_bind, bindM, get_this. rewrite A, B.
  unfold send. cbn [send_member with_transport]. unfold CipClient.send.
  cbn [this socket].
  destruct (receiveWithValidation hmac_sha256 _ _) as [[response|e] w2];
    [|reflexivity].
  unfold validateSessionResponse, mbind, M_bind, bindM, lift, throw, ret.
  destruct (Nat.ltb_spec (length response) 8) as [Ls|Ls]; [reflexivity|].
  destruct (readUInt32LE response 4) as [statusCode|e] eqn:R; [|reflexivity].
  unfold ENCAPSULATION_PROTOCOL.STATUS.SUCCESS.
  destruct (Z.eqb_spec statusCode 0) as [->|N]; cbn [negb]; [|reflexivity].
  rewrite (readUInt32LE_slice_4_8 response Ls), R.
  unfold set_this. cbn [this socket]. reflexivity.
Qed.

(** What [receiveWithValidation] does on such an object. *)
Lemma receiveWithValidation_transport (header : option (SecureCIPClient -> Buffer))
    (w : World) :
  receiveWithValidation hmac_sha256 (with_transport header) w
    = match CipClient.inbound (socket w) with
      | [] => (Throw TimeoutError, w)
      | chunk :: rest =>
          (if (length chunk <? 24)%nat then Throw InvalidLength
           else match readUInt32LE chunk 4 with
                | Throw e => Throw e
                | Ok handle =>
                    if negb (handle =? sessionHandle (this w))
                    then Throw SessionHandleMismatch
                    else if negb (equals
                                    (slice (hmac_sha256 (sessionNonce (this w))
                                              (slice chunk 24 (-12))) 0 8)
                                    (slice_from chunk (-8)))
                         then Throw SecurityError
                         else Ok (slice chunk 24 (-12))
                end,
           {| this := this w;
              socket := {| CipClient.written := CipClient.written (socket w);
                           CipClient.inbound := rest |} |})
      end.
Proof.
  pose proof (CipClient_receive_cases (socket w)) as C.
  destruct (CipClient.inbound (socket w)) as [|chunk rest].
  - rewrite (receiveWithValidation_run hmac_sha256 (with_transport header)
               CipClient.receive w _ _ eq_refl C).
    destruct w as [c s]. reflexivity.
  - rewrite (receiveWithValidation_run hmac_sha256 (with_transport header)
               CipClient.receive w _ _ eq_refl C).
    reflexivity.
Qed.

(** X25. The registration packet carries the session nonce, which is the
    key of every MAC of the session, in clear: for the 16-byte nonce of
    the constructor, [buildRegistrationPacket] returns the 28 bytes
    65 00 04 00, the nonce, and 8 bytes of zero.  On a client whose
    session is active, [establishSecureSession] fails with
    SessionAlreadyActive and does nothing.  On any other client of the
    class as it is, the packet is built and the call then fails at
    [this.send], which the class does not have: nothing is written.  On an
    object that has been given the [send] and [receive] of [CIPClient],
    the call writes to the socket, whatever happens next, exactly that one
    packet. *)
Theorem registration_packet_carries_nonce (w : World) :
  let packet := [x65; x00; x04; x00] ++ sessionNonce (this w) ++ alloc 8 in
  (length (sessionNonce (this w)) = 16%nat ->
   buildRegistrationPacket w = (Ok packet, w) /\
   length packet = 28%nat /\
   slice packet 4 20 = sessionNonce (this w)) /\
  (forall members,
     sessionActive (this w) = true ->
     establishSecureSession hmac_sha256 members w = (Throw SessionAlreadyActive, w)) /\
  (sessionActive (this w) = false ->
   establishSecureSession hmac_sha256 as_shipped w
     = (Throw (TypeError "this.send is not a function"), w)) /\
  (forall header,
     sessionActive (this w) = false ->
     length (sessionNonce (this w)) = 16%nat ->
     CipClient.written
       (socket (snd (establishSecureSession hmac_sha256 (with_transport header) w)))
       = CipClient.written (socket w) ++ [packet]).
Proof.
  intros packet. split; [|split; [|split]].
  - intros L. split; [apply buildRegistrationPacket_run; exact L|]. split.
    + unfold packet. rewrite !length_app, L. reflexivity.
    + unfold packet.
      destruct (sessionNonce (this w))
        as [|n0 [|n1 [|n2 [|n3 [|n4 [|n5 [|n6 [|n7 [|n8 [|n9 [|n10 [|n11 [|n12 [|n13
            [|n14 [|n15 [|n16 rest]]]]]]]]]]]]]]]]]; try discriminate L.
      reflexivity.
  - intros members A. unfold establishSecureSession, mbind, M_bind, bindM, get_this.
    rewrite A. destruct w; reflexivity.
  - intros A. rewrite establishSecureSession_as_shipped, A. reflexivity.
  - intros header A L.
    rewrite (establishSecureSession_run header w packet A
               (buildRegistrationPacket_run w L)).
    rewrite receiveWithValidation_transport. cbn [this socket CipClient.inbound
      CipClient.written].
    destruct (CipClient.inbound (socket w)) as [|chunk rest]; [reflexivity|].
    match goal with
    | |- context [if (length chunk <? 24)%nat then ?a else ?b] =>
        destruct (if (length chunk <? 24)%nat then a else b) as [response|e]
    end; [|reflexivity].
    destruct (length response <? 8)%nat; [reflexivity|].
    destruct (readUInt32LE response 4) as [statusCode|e]; [|reflexivity].
    destruct (statusCode =? 0); reflexivity.
Qed.

(** X26. The handshake validates the reply to the registration as if the
    session were already running.  On an object of the class as it is the
    handshake never returns.  On an object that has been given the [send]
    and [receive] of [CIPClient], and whose session is not active, it
    returns exactly when the chunk that arrives has at least 24 bytes,
    carries the client's current session handle at offset 4, ends in the
    first 8 bytes of the HMAC, keyed by the nonce, of its bytes from 24 up
    to the last 12, and these bytes are at least 8 with the 32-bit word 0
    at their offset 4.  A chunk of fewer than 44 bytes is therefore never
    accepted. *)
Theorem establishSecureSession_returns_iff (header : option (SecureCIPClient -> Buffer))
    (w : World) :
  fst (establishSecureSession hmac_sha256 as_shipped w) <> Ok tt /\
  (sessionActive (this w) = false ->
   (fst (establishSecureSession hmac_sha256 (with_transport header) w) = Ok tt <->
    exists chunk rest,
      CipClient.inbound (socket w) = chunk :: rest /\
      (24 <= length chunk)%nat /\
      readUInt32LE chunk 4 = Ok (sessionHandle (this w)) /\
      slice (hmac_sha256 (sessionNonce (this w)) (slice chunk 24 (-12))) 0 8
        = slice_from chunk (-8) /\
      (8 <= length (slice chunk 24 (-12)))%nat /\
      readUInt32LE (slice chunk 24 (-12)) 4 = Ok 0) /\
   (forall chunk rest,
      CipClient.inbound (socket w) = chunk :: rest -> (length chunk < 44)%nat ->
      fst (establishSecureSession hmac_sha256 (with_transport header) w) <> Ok tt)).
Proof.
  split.
  { rewrite establishSecureSession_as_shipped.
    destruct (sessionActive (this w)); discriminate. }
  intros A.
  destruct (buildRegistrationPacket_returns w) as [packet B].
  assert (Iff : fst (establishSecureSession hmac_sha256 (with_transport header) w)
                = Ok tt <->
    exists chunk rest,
      CipClient.inbound (socket w) = chunk :: rest /\
      (24 <= length chunk)%nat /\
      readUInt32LE chunk 4 = Ok (sessionHandle (this w)) /\
      slice (hmac_sha256 (sessionNonce (this w)) (slice chunk 24 (-12))) 0 8
        = slice_from chunk (-8) /\
      (8 <= length (slice chunk 24 (-12)))%nat /\
      readUInt32LE (slice chunk 24 (-12)) 4 = Ok 0).
  { rewrite (establishSecureSession_run header w packet A B).
    rewrite receiveWithValidation_transport.
    cbn [this socket CipClient.inbound CipClient.written].
    destruct (CipClient.inbound (socket w)) as [|chunk rest].
    { split; [discriminate|]. intros [chunk [rest [I _]]]. discriminate I. }
    destruct (Nat.ltb_spec (length chunk) 24) as [Lc|Lc].
    { split; [discriminate|].
      intros [chunk' [rest' [I [Lc' _]]]]. injection I as <- <-. lia. }
    destruct (readUInt32LE chunk 4) as [handle|e] eqn:Hd.
    2:{ split; [discriminate|].
        intros [chunk' [rest' [I [_ [Hd' _]]]]]. injection I as <- <-.
        rewrite Hd in Hd'. discriminate Hd'. }
    destruct (Z.eqb_spec handle (sessionHandle (this w))) as [->|N]; cbn [negb].
    2:{ split; [discriminate|].
        intros [chunk' [rest' [I [_ [Hd' _]]]]]. injection I as <- <-.
        rewrite Hd in Hd'. injection Hd' as Hd'. contradiction. }
    unfold equals.
    destruct (bool_decide_reflect
                (slice (hmac_sha256 (sessionNonce (this w)) (slice chunk 24 (-12))) 0 8
                 = slice_from chunk (-8))) as [Mac|Mac]; cbn [negb].
    2:{ split; [discriminate|].
        intros [chunk' [rest' [I [_ [_ [Mac' _]]]]]]. injection I as <- <-.
        contradiction. }
    destruct (Nat.ltb_spec (length (slice chunk 24 (-12))) 8) as [Ls|Ls].
    { split; [discriminate|].
      intros [chunk' [rest' [I [_ [_ [_ [Ls' _]]]]]]]. injection I as <- <-. lia. }
    destruct (readUInt32LE (slice chunk 24 (-12)) 4) as [statusCode|e] eqn:St.
    2:{ split; [discriminate|].
        intros [chunk' [rest' [I [_ [_ [_ [_ St']]]]]]]. injection I as <- <-.
        rewrite St in St'. discriminate St'. }
    destruct (Z.eqb_spec statusCode 0) as [Z0|N].
    - split; [|reflexivity]. intros _. exists chunk, rest. rewrite Z0 in St.
      repeat split; assumption.
    - split; [discriminate|].
      intros [chunk' [rest' [I [_ [_ [_ [_ St']]]]]]]. injection I as <- <-.
      rewrite St in St'. injection St' as St'. contradiction. }
  split; [exact Iff|].
  intros chunk rest I Short E. apply Iff in E.
  destruct E as [chunk' [rest' [I' [_ [_ [_ [Ls _]]]]]]].
  rewrite I in I'. injection I' as <- <-.
  rewrite slice_24_m12_length in Ls. lia.
Qed.

End Handshake.

Lemma registration_packet_carries_nonce_witness :
  let hmac := fun (_ _ : Buffer) => repeat x00 32 in
  let w := {| this := new_SecureCIPClient (repeat x07 16) 0;
              socket := {| CipClient.written := []; CipClient.inbound := [] |} |} in
  buildRegistrationPacket w
    = (Ok ([x65; x00; x04; x00] ++ repeat x07 16 ++ repeat x00 8), w) /\
  establishSecureSession hmac as_shipped w
    = (Throw (TypeError "this.send is not a function"), w) /\
  CipClient.written
    (socket (snd (establishSecureSession hmac (with_transport None) w)))
    = [[x65; x00; x04; x00] ++ repeat x07 16 ++ repeat x00 8].
Proof.
  intros hmac w. split; [|split].
  - exact (proj1 (proj1 (registration_packet_carries_nonce hmac w) eq_refl)).
  - exact (proj1 (proj2 (proj2 (registration_packet_carries_nonce hmac w))) eq_refl).
  - exact (proj2 (proj2 (proj2 (registration_packet_carries_nonce hmac w)))
             None eq_refl eq_refl).
Defined.

Lemma establishSecureSession_returns_iff_witness :
  let hmac := fun (_ _ : Buffer) => repeat x00 32 in
  let w := {| this := new_SecureCIPClient (repeat x07 16) 0;
              socket := {| CipClient.written := [];
                           CipClient.inbound := [repeat x00 44] |} |} in
  fst (establishSecureSession hmac (with_transport None) w) = Ok tt /\
  fst (establishSecureSession hmac as_shipped w) <> Ok tt.
Proof.
  intros hmac w. split.
  - apply (proj2 (proj1 (proj2 (establishSecureSession_returns_iff hmac None w)
                           eq_refl))).
    exists (repeat x00 44), []. repeat split; simpl; lia.
  - exact (proj1 (establishSecureSession_returns_iff hmac None w)).
Defined.

(** ** Teardown *)

Section Teardown.
Variable hmac_sha256 : Buffer -> Buffer -> Buffer.

(** The 24 bytes of the packet that closes a session. *)
Lemma sendSessionClose_packet (members : Members) (w : World) :
  0 <= sessionHandle (this w) <= 4294967295 ->
  sendSessionClose members w
    = send members
        ([x66; x00; x00; x00] ++ le_bytes 4 (sessionHandle (this w)) ++ alloc 16) w.
Proof.
  intros R. unfold sendSessionClose, mbind, M_bind, bindM, get_this, lift.
  unfold writeUInt16LE at 1.
  rewrite (write_int_le 2 0 65535 0x0066) by (simpl; lia).
  unfold writeUInt32LE.
  rewrite (write_int_le 4 0 4294967295) by (simpl; lia).
  reflexivity.
Qed.

Lemma sendSessionClose_refused (members : Members) (w : World) :
  sessionHandle (this w) < 0 \/ 4294967295 < sessionHandle (this w) ->
  sendSessionClose members w = (Throw RangeError, w).
Proof.
  intros R. unfold sendSessionClose, mbind, M_bind, bindM, get_this, lift.
  unfold writeUInt16LE at 1.
  rewrite (write_int_le 2 0 65535 0x0066) by (simpl; lia).
  unfold writeUInt32LE. rewrite write_int_refused by lia.
  destruct w; reflexivity.
Qed.

(** [sendSessionClose] never touches the fields of the client. *)
Lemma sendSessionClose_this (members : Members) (w : World) :
  this (snd (sendSessionClose members w)) = this w.
Proof.
  destruct (Z.le_gt_cases 0 (sessionHandle (this w))) as [L0|L0];
    [destruct (Z.le_gt_cases (sessionHandle (this w)) 4294967295) as [L1|L1]|].
  - rewrite sendSessionClose_packet by lia. unfold send.
    destruct (send_member members) as [transport|]; [|reflexivity].
    destruct (transport _ (socket w)); reflexivity.
  - rewrite sendSessionClose_refused by lia. reflexivity.
  - rewrite sendSessionClose_refused by lia. reflexivity.
Qed.

(** X27. [gracefulShutdown] never fails and always leaves the session
    inactive and the socket destroyed, the other fields of the client as
    they were.  On an object of the class as it is it writes nothing to
    the socket, active session or not: [sendSessionClose] fails at
    [this.send], which the class does not have, and the failure is
    swallowed.  On an object that has been given the [send] of [CIPClient]
    it first writes, if the session was active and the handle fits 32
    bits, one packet of 24 bytes, 66 00 00 00, the handle in little-endian
    order, and 16 bytes of zero, and it writes nothing if the session was
    not active or the handle does not fit; as the handle is 0 on every
    client reached from a new one by the methods of the session, the packet
    that closes a session is then 66 followed by 23 bytes of zero. *)
Theorem gracefulShutdown_closes (members : Members) (w : World) :
  let after := snd (gracefulShutdown members w) in
  fst (gracefulShutdown members w) = Ok tt /\
  destroyed after = true /\
  this (final after) = set_sessionActive false (this w) /\
  (send_member members = None -> socket (final after) = socket w) /\
  socket (final (snd (gracefulShutdown as_shipped w))) = socket w /\
  (send_member members = Some CipClient.send ->
   CipClient.inbound (socket (final after)) = CipClient.inbound (socket w) /\
   (sessionActive (this w) = true ->
    0 <= sessionHandle (this w) <= 4294967295 ->
    CipClient.written (socket (final after))
      = CipClient.written (socket w)
        ++ [[x66; x00; x00; x00] ++ le_bytes 4 (sessionHandle (this w))
            ++ alloc 16]) /\
   (sessionActive (this w) = false \/
    sessionHandle (this w) < 0 \/ 4294967295 < sessionHandle (this w) ->
    CipClient.written (socket (final after)) = CipClient.written (socket w)) /\
   (reachable hmac_sha256 members w -> sessionActive (this w) = true ->
    CipClient.written (socket (final after))
      = CipClient.written (socket w) ++ [x66 :: repeat x00 23])).
Proof.
  cbv zeta. unfold gracefulShutdown. cbn [fst snd final destroyed this socket].
  change ((c ← get_this;
           if sessionActive c then sendSessionClose members else mret tt) w)
    with ((if sessionActive (this w) then sendSessionClose members else mret tt) w).
  assert (No_send : forall m, send_member m = None ->
            socket (snd ((if sessionActive (this w)
                          then sendSessionClose m else mret tt) w)) = socket w).
  { intros m Sm. destruct (sessionActive (this w)); [|reflexivity].
    destruct (Z.le_gt_cases 0 (sessionHandle (this w))) as [L0|L0];
      [destruct (Z.le_gt_cases (sessionHandle (this w)) 4294967295) as [L1|L1]|].
    - rewrite sendSessionClose_packet by lia. unfold send. rewrite Sm. reflexivity.
    - rewrite sendSessionClose_refused by lia. reflexivity.
    - rewrite sendSessionClose_refused by lia. reflexivity. }
  split; [reflexivity|]. split; [reflexivity|]. split.
  { destruct (sessionActive (this w)) eqn:A; [|reflexivity].
    rewrite sendSessionClose_this. reflexivity. }
  split; [apply No_send|]. split.
  { change ((c ← get_this;
             if sessionActive c then sendSessionClose as_shipped else mret tt) w)
      with ((if sessionActive (this w)
             then sendSessionClose as_shipped else mret tt) w).
    apply No_send. reflexivity. }
  intros Sm.
  assert (Active : sessionActive (this w) = true ->
                   0 <= sessionHandle (this w) <= 4294967295 ->
                   socket (snd ((if sessionActive (this w)
                                 then sendSessionClose members else mret tt) w))
                     = {| CipClient.written :=
                            CipClient.written (socket w)
                            ++ [[x66; x00; x00; x00]
                                ++ le_bytes 4 (sessionHandle (this w))
                                ++ alloc 16];
                          CipClient.inbound := CipClient.inbound (socket w) |}).
  { intros A R. rewrite A, sendSessionClose_packet by exact R.
    unfold send. rewrite Sm. reflexivity. }
  assert (Idle : sessionActive (this w) = false \/
                 sessionHandle (this w) < 0 \/ 4294967295 < sessionHandle (this w) ->
                 socket (snd ((if sessionActive (this w)
                               then sendSessionClose members else mret tt) w))
                   = socket w).
  { intros [A|O]; [rewrite A; reflexivity|].
    destruct (sessionActive (this w)); [|reflexivity].
    rewrite sendSessionClose_refused by exact O. reflexivity. }
  split; [|split; [|split]].
  - destruct (sessionActive (this w)) eqn:A; [|reflexivity].
    destruct (Z.le_gt_cases 0 (sessionHandle (this w))) as [L0|L0];
      [destruct (Z.le_gt_cases (sessionHandle (this w)) 4294967295) as [L1|L1]|].
    + rewrite (Active eq_refl (conj L0 L1)). reflexivity.
    + rewrite Idle by lia. reflexivity.
    + rewrite Idle by lia. reflexivity.
  - intros A R. rewrite (Active A R). reflexivity.
  - intros O. rewrite (Idle O). reflexivity.
  - intros Hr A.
    pose proof (reachable_handle_zero hmac_sha256 members w Hr) as Z0.
    rewrite (Active A ltac:(lia)), Z0. reflexivity.
Qed.

End Teardown.

Lemma gracefulShutdown_closes_witness :
  let c := {| sessionNonce := repeat x07 16; sessionHandle := 0x01020304;
              sessionActive := true;
              securityContext := {| lastActivity := 0; sequenceNumber := 3 |};
              connectionType := num 0x4000 |} in
  let w := {| this := c;
              socket := {| CipClient.written := []; CipClient.inbound := [] |} |} in
  socket (final (snd (gracefulShutdown as_shipped w))) = socket w /\
  CipClient.written (socket (final (snd (gracefulShutdown (with_transport None) w))))
    = [[x66; x00; x00; x00; x04; x03; x02; x01] ++ repeat x00 16].
Proof.
  intros c w. split.
  - destruct (gracefulShutdown_closes (fun _ _ => []) as_shipped w)
      as [_ [_ [_ [_ [S _]]]]].
    exact S.
  - destruct (gracefulShutdown_closes (fun _ _ => []) (with_transport None) w)
      as [_ [_ [_ [_ [_ T]]]]].
    destruct (T eq_refl) as [_ [P _]].
    apply P; [reflexivity|simpl; lia].
Defined.

(** ** Identifier checks *)

Section ObjectIds.
Context `{Host}.

Lemma validateObjectIds_step (index : nat) (id : prim) (rest : list prim) :
  validateObjectIds_from index (id :: rest)
    = if valid_id id then validateObjectIds_from (S index) rest
      else Fails (InvalidObjectId index id).
Proof.
  cbn [validateObjectIds_from]. unfold valid_id.
  destruct id as [| |b|[q| | |]|s]; cbn [Number_isInteger ToNumber negb orb andb];
    try reflexivity.
  destruct (is_integral q), (num_ltb (Fin q) 0), (num_gtb (Fin q) 65535); reflexivity.
Qed.

Lemma validateObjectIds_from_Returns (index : nat) (ids : list prim) :
  validateObjectIds_from index ids = Returns tt <-> forallb valid_id ids = true.
Proof.
  revert index. induction ids as [|id rest IH]; intros index.
  - split; reflexivity.
  - rewrite validateObjectIds_step. cbn [forallb].
    destruct (valid_id id); cbn [andb]; [apply IH|].
    split; discriminate.
Qed.

Lemma validateObjectIds_from_Fails (index : nat) (ids : list prim) (position : nat)
    (id : prim) :
  validateObjectIds_from index ids = Fails (InvalidObjectId position id) ->
  exists k, position = (index + k)%nat /\ nth_error ids k = Some id /\
            valid_id id = false /\ forallb valid_id (firstn k ids) = true.
Proof.
  revert index. induction ids as [|x rest IH]; intros index E; [discriminate E|].
  rewrite validateObjectIds_step in E. destruct (valid_id x) eqn:V.
  - apply IH in E. destruct E as [k [-> [N [Vi F]]]].
    exists (S k). split; [lia|]. split; [exact N|]. split; [exact Vi|].
    cbn [firstn forallb]. rewrite V, F. reflexivity.
  - injection E as <- <-. exists 0%nat. split; [lia|]. split; [reflexivity|].
    split; [exact V|reflexivity].
Qed.

(** X28. [validateObjectIds] accepts its arguments exactly when each of
    them is an integer from 0 to 65535, and otherwise fails naming the
    first argument that is not, with its position.  Unlike
    [buildObjectPath] it does not take an absent identifier: three accepted
    identifiers are all present, so that the path built from them, as
    [safeGetAttribute] does next, is returned and has 6 bytes. *)
Theorem validateObjectIds_accepts (ids : list prim) :
  (validateObjectIds ids = Returns tt <-> forallb valid_id ids = true) /\
  (forall position id,
     validateObjectIds ids = Fails (InvalidObjectId position id) ->
     nth_error ids position = Some id /\ valid_id id = false /\
     forallb valid_id (firstn position ids) = true) /\
  (forall classId instanceId attributeId,
     ids = [classId; instanceId; attributeId] ->
     validateObjectIds ids = Returns tt ->
     exists path,
       buildObjectPath classId instanceId attributeId = Ok path /\
       length path = 6%nat) /\
  validateObjectIds (VUndefined :: ids) = Fails (InvalidObjectId 0 VUndefined).
Proof.
  split; [apply validateObjectIds_from_Returns|]. split; [|split; [|reflexivity]].
  - intros position id E. apply validateObjectIds_from_Fails in E.
    destruct E as [k [-> E]]. exact E.
  - intros classId instanceId attributeId -> E.
    apply validateObjectIds_from_Returns in E. cbn [forallb] in E.
    apply andb_prop in E as [Vc E]. apply andb_prop in E as [Vi E].
    apply andb_prop in E as [Va _].
    assert (P : forall id, valid_id id = true -> present id = true).
    { intros id V. unfold valid_id in V. destruct id; try reflexivity; discriminate V. }
    eexists. split.
    + apply buildObjectPath_passed.
      rewrite (validateId_valid _ _ (P _ Vc) Vc). reflexivity.
    + unfold path_segment. rewrite (P _ Vc), (P _ Vi), (P _ Va). reflexivity.
Qed.

End ObjectIds.

Lemma validateObjectIds_accepts_witness :
  validateObjectIds [num 1; num 65535; num 0] = Returns tt /\
  (exists path, @buildObjectPath any_host (num 1) (num 65535) (num 0) = Ok path /\
                length path = 6%nat) /\
  nth_error [num 1; num 65536; num (-1)] 1 = Some (num 65536).
Proof.
  assert (E : validateObjectIds [num 1; num 65535; num 0] = Returns tt).
  { apply (proj2 (proj1 (@validateObjectIds_accepts any_host
                           [num 1; num 65535; num 0]))).
    reflexivity. }
  split; [exact E|]. split.
  - exact (proj1 (proj2 (proj2 (@validateObjectIds_accepts any_host
                                  [num 1; num 65535; num 0])))
             (num 1) (num 65535) (num 0) eq_refl E).
  - exact (proj1 (proj1 (proj2 (@validateObjectIds_accepts any_host
                                  [num 1; num 65536; num (-1)]))
                    1%nat (num 65536) eq_refl)).
Defined.

(** ** Attribute responses, past the first statement *)

Lemma Z_land_pow2 (w n : Z) :
  0 <= n -> Z.land w (2 ^ n) = if Z.testbit w n then 2 ^ n else 0.
Proof.
  intros P. apply Z.bits_inj'. intros m Pm.
  rewrite Z.land_spec, Z.pow2_bits_eqb by exact P.
  destruct (Z.eqb_spec n m) as [->|N].
  - destruct (Z.testbit w m) eqn:T; cbn [andb].
    + rewrite Z.pow2_bits_true by exact Pm. reflexivity.
    + rewrite Z.bits_0. reflexivity.
  - rewrite andb_false_r. destruct (Z.testbit w n).
    + rewrite Z.pow2_bits_false by exact N. reflexivity.
    + rewrite Z.bits_0. reflexivity.
Qed.

Section AttributeResponseAgain.
Context `{Host}.
Variable CIPErrorParser_parse : Z -> Z -> CIPError.t.

(** X29. With [classId] bound to something other than the identifier of
    the connection class, [parseAttributeResponse] does what its comments
    promise.  A response of at least 4 bytes whose first byte is not 0
    fails with the descriptor that [CIPErrorParser.parse] gives for that
    byte and for the big-endian word at offset 1, with the response
    attached.  After a first byte of 0, the type code is the big-endian
    word at offset 2, whatever byte order the data has, and the value is
    decoded from offset 4: an integer of 16 bits encoded as INT, or of 32
    bits encoded as DINT, by [encodeData] is read back unchanged in either
    byte order, and a type code outside the registry fails with the
    decoder's error, the data attached. *)
Theorem parseAttributeResponse_reads_back (G : Globals) (classId : prim)
    (CIP_CLASS_IDS : list (string * Z)) (isBigEndian : bool) :
  g_classId G = Some classId -> g_CIP_CLASS_IDS G = Some CIP_CLASS_IDS ->
  strict_equal classId (get_property CIP_CLASS_IDS "CONNECTION") = false ->
  (forall status b1 b2 b3 rest,
     status <> x00 ->
     parseAttributeResponse CIPErrorParser_parse G
         (IsBuffer (status :: b1 :: b2 :: b3 :: rest)) isBigEndian
       = Throw (ProtocolStatusError
                  (CIPErrorParser_parse (Z_of_byte status) (be_value [b1; b2]))
                  (status :: b1 :: b2 :: b3 :: rest))) /\
  (forall b1 v, - 32768 <= v <= 32767 ->
     exists buf,
       encodeData (num v) INT isBigEndian = Ok buf /\
       parseAttributeResponse CIPErrorParser_parse G
           (IsBuffer ([x00; b1; x00; xc3] ++ buf)) isBigEndian
         = Ok (AttributeValue (code INT) (DNum (Fin (inject_Z v))))) /\
  (forall b1 v, - 2147483648 <= v <= 2147483647 ->
     exists buf,
       encodeData (num v) DINT isBigEndian = Ok buf /\
       parseAttributeResponse CIPErrorParser_parse G
           (IsBuffer ([x00; b1; x00; xc4] ++ buf)) isBigEndian
         = Ok (AttributeValue (code DINT) (DNum (Fin (inject_Z v))))) /\
  (forall b1 b2 b3 data,
     ~ In (be_value [b2; b3]) registry_codes ->
     parseAttributeResponse CIPErrorParser_parse G
         (IsBuffer (x00 :: b1 :: b2 :: b3 :: data)) isBigEndian
       = Throw (WithRawData (UnsupportedDataType (be_value [b2; b3])) data)).
Proof.
  intros Ec Ei Ne.
  destruct (parseAttributeResponse_past_guard CIPErrorParser_parse G classId
              CIP_CLASS_IDS isBigEndian Ec Ei Ne) as [_ [_ Value]].
  split; [|split; [|split]].
  - intros status b1 b2 b3 rest N.
    unfold parseAttributeResponse. rewrite Ec, Ei. cbn [resolve bind]. rewrite Ne.
    cbn [length Nat.ltb Nat.leb]. rewrite readUInt8_cons. cbn [bind].
    replace (Z_of_byte status =? 0) with false; [reflexivity|].
    symmetry. apply Z.eqb_neq. intros Z0. apply N.
    rewrite <- (byte_of_Z_of_byte status), Z0. reflexivity.
  - intros b1 v R. eexists. split; [apply encodeData_INT; lia|].
    cbn [app]. rewrite Value.
    change (be_value [x00; xc3]) with (code INT).
    pose proof (decode_INT v isBigEndian R) as D.
    destruct isBigEndian; rewrite D; reflexivity.
  - intros b1 v R. eexists. split; [apply encodeData_DINT; lia|].
    cbn [app]. rewrite Value.
    change (be_value [x00; xc4]) with (code DINT).
    pose proof (decode_DINT v isBigEndian R) as D.
    destruct isBigEndian; rewrite D; reflexivity.
  - intros b1 b2 b3 data N. rewrite Value, (decode_unknown _ _ _ N). reflexivity.
Qed.

(** X30. With [classId] bound to the identifier of the connection class,
    [parseAttributeResponse] checks nothing of what it checks otherwise:
    whatever the first byte of the response, status or not, a response of
    at least 6 bytes is read as a connection status, the redundant-owner
    flag being bit 15 of the big-endian word at offset 4 and the transport
    class its low 4 bits; a shorter response fails with a range error
    instead of the error for an invalid length. *)
Theorem parseAttributeResponse_connection_branch (G : Globals) (classId : prim)
    (CIP_CLASS_IDS CipConnOwner : list (string * Z)) (isBigEndian : bool) :
  g_classId G = Some classId -> g_CIP_CLASS_IDS G = Some CIP_CLASS_IDS ->
  strict_equal classId (get_property CIP_CLASS_IDS "CONNECTION") = true ->
  g_CipConnOwner G = Some CipConnOwner ->
  get_property CipConnOwner "REDUNDANT_OWNER"
    = Some CipConnFields.CipConnOwner.REDUNDANT_OWNER ->
  (forall b0 b1 b2 b3 hi lo rest,
     parseAttributeResponse CIPErrorParser_parse G
         (IsBuffer (b0 :: b1 :: b2 :: b3 :: hi :: lo :: rest)) isBigEndian
       = Ok (ConnectionStatus
               (Z.testbit (256 * Z_of_byte hi + Z_of_byte lo) 15)
               ((256 * Z_of_byte hi + Z_of_byte lo) mod 16))) /\
  (forall response, (length response < 6)%nat ->
     parseAttributeResponse CIPErrorParser_parse G (IsBuffer response) isBigEndian
       = Throw RangeError).
Proof.
  intros Ec Ei Eq Eo Er. split.
  - intros b0 b1 b2 b3 hi lo rest.
    unfold parseAttributeResponse. rewrite Ec, Ei. cbn [resolve bind]. rewrite Eq.
    change (readUInt16BE (b0 :: b1 :: b2 :: b3 :: hi :: lo :: rest) 4)
      with (Ok (A := Z) (be_value [hi; lo])).
    cbn [bind]. rewrite Eo. cbn [resolve bind]. rewrite Er.
    change (to_signed 32 (CipConnFields.CipConnOwner.REDUNDANT_OWNER mod 2 ^ 32))
      with (2 ^ 15).
    assert (W : be_value [hi; lo] = 256 * Z_of_byte hi + Z_of_byte lo)
      by (unfold be_value; cbn [rev app le_value]; lia).
    rewrite W, (Z_land_pow2 _ 15) by lia.
    change 15 with (Z.ones 4) at 2. rewrite (Z.land_ones _ 4) by lia.
    destruct (Z.testbit _ 15); reflexivity.
  - intros response L.
    unfold parseAttributeResponse. rewrite Ec, Ei. cbn [resolve bind]. rewrite Eq.
    unfold readUInt16BE, bytes_at.
    destruct (Nat.leb_spec (4 + 2) (length response)); [lia|reflexivity].
Qed.

End AttributeResponseAgain.

Lemma parseAttributeResponse_reads_back_witness :
  let G := {| g_classId := Some (num 1);
              g_CIP_CLASS_IDS := Some [("IDENTITY", 0x01); ("CONNECTION", 0x06)];
              g_CipConnOwner := None |} in
  exists buf,
    @encodeData any_host (num (-2)) INT false = Ok buf /\
    parseAttributeResponse V2.CIPErrorParser.parse G
        (IsBuffer ([x00; x00; x00; xc3] ++ buf)) false
      = Ok (AttributeValue 0xC3 (DNum (Fin (inject_Z (-2))))).
Proof.
  intros G.
  exact (proj1 (proj2 (@parseAttributeResponse_reads_back any_host
                         V2.CIPErrorParser.parse G (num 1)
                         [("IDENTITY", 0x01); ("CONNECTION", 0x06)] false
                         eq_refl eq_refl eq_refl))
           x00 (-2) ltac:(lia)).
Defined.

Lemma parseAttributeResponse_connection_branch_witness :
  let G := {| g_classId := Some (num 6);
              g_CIP_CLASS_IDS := Some [("IDENTITY", 0x01); ("CONNECTION", 0x06)];
              g_CipConnOwner :=
                Some [("EXCLUSIVE_OWNER", 0x0000); ("REDUNDANT_OWNER", 0x8000)] |} in
  parseAttributeResponse V2.CIPErrorParser.parse G
      (IsBuffer [x08; x00; x00; x00; x80; x03]) false
    = Ok (ConnectionStatus true 3).
Proof.
  intros G.
  exact (proj1 (parseAttributeResponse_connection_branch
                  V2.CIPErrorParser.parse G (num 6)
                  [("IDENTITY", 0x01); ("CONNECTION", 0x06)]
                  [("EXCLUSIVE_OWNER", 0x0000); ("REDUNDANT_OWNER", 0x8000)] false
                  eq_refl eq_refl eq_refl eq_refl eq_refl)
           x08 x00 x00 x00 x80 x03 []).
Defined.
